(** * Agent orchestrator: merge readiness, notifier delivery, agent liveness
      and plugin resolution

    A shallow embedding of the TypeScript sources of the agent orchestrator
    (the scm-github plugin, the webhook notifier, the [ao notify test]
    command, the shared process-liveness helper with the codex, opencode and
    aider agent plugins, the CLI plugin tables and the web message route),
    with the properties stated about them.

    Conventions of the embedding:
    - a JavaScript string is a [string] of 8-bit characters, the bytes of
      its UTF-8 encoding, so that an ASCII character is one character;
      [trim] removes the white space and the line terminators of ECMAScript;
      the regular-expression class [\s], which the sources apply to the
      output of [ps], is read over ASCII white space (tab, line feed,
      vertical tab, form feed, carriage return, space), and [toUpperCase]
      maps the ASCII letters;
    - [undefined]/[null] fields are [option]s; a plain object used as a
      lookup table is given by its own properties, a [gmap] or a list in
      the order of their creation; a lookup by name also finds the names
      that every object inherits from [Object.prototype], and
      [Object.entries] lists the array indices before the other names;
    - an [async] function is a function from the replies of the outside world
      to a [Completion]: it returns, throws, or never settles;
    - calls that leave the process (HTTP requests, child processes, signals,
      timers) are recorded, in order, in a trace of effects. *)

From Stdlib Require Import ZArith Ascii String.
From stdpp Require Import base option list strings gmap pretty sorting.

Local Open Scope string_scope.
Local Open Scope Z_scope.

(** ** Outcomes of calls *)

(** What a caught or thrown JavaScript value is: an [Error] object with its
    message (and its [code] property when it has one), [undefined], or any
    other value through its [String(...)] conversion. *)
Inductive JsThrown : Type :=
  | ErrorObj (message : string) (code : option string)
  | ThrownUndefined
  | ThrownValue (asString : string).

#[global] Instance JsThrown_eq_dec : EqDecision JsThrown.
Proof. solve_decision. Defined.

(** [new Error(msg)] *)
Definition newError (msg : string) : JsThrown := ErrorObj msg None.

(** [err instanceof Error ? err.message : String(err)] *)
Definition errorMessage (err : JsThrown) : string :=
  match err with
  | ErrorObj m _ => m
  | ThrownUndefined => "undefined"
  | ThrownValue s => s
  end.

(** How the evaluation of an [async] function ends. *)
Inductive Completion (A : Type) : Type :=
  | Returned (a : A)
  | Threw (e : JsThrown)
  | NeverSettles.
Arguments Returned {A} a.
Arguments Threw {A} e.
Arguments NeverSettles {A}.

Definition cbind {A B} (c : Completion A) (k : A -> Completion B) : Completion B :=
  match c with
  | Returned a => k a
  | Threw e => Threw e
  | NeverSettles => NeverSettles
  end.

(** [try { c } catch { return h }] *)
Definition catchAll {A} (c : Completion A) (h : A) : Completion A :=
  match c with
  | Returned a => Returned a
  | Threw _ => Returned h
  | NeverSettles => NeverSettles
  end.

(** ** Strings as the sources use them *)

Module JsString.

Definition upperChar (c : ascii) : ascii :=
  let n := nat_of_ascii c in
  if ((97 <=? n)%nat && (n <=? 122)%nat)%bool then ascii_of_nat (n - 32) else c.

(** [s.toUpperCase()] *)
Fixpoint toUpperCase (s : string) : string :=
  match s with
  | EmptyString => EmptyString
  | String c s' => String (upperChar c) (toUpperCase s')
  end.

(** The white space and the line terminators of ECMAScript, which [trim]
    removes: each character as the bytes of its UTF-8 encoding. The six
    ASCII ones are tab, line feed, vertical tab, form feed, carriage return
    and space; the others are U+00A0, U+1680, U+2000 to U+200A, U+2028,
    U+2029, U+202F, U+205F, U+3000 and U+FEFF. *)
Definition whiteSpace : list string :=
  [ String "009" EmptyString; String "010" EmptyString; String "011" EmptyString;
    String "012" EmptyString; String "013" EmptyString; String "032" EmptyString;
    String "194" (String "160" EmptyString);
    String "225" (String "154" (String "128" EmptyString));
    String "226" (String "128" (String "128" EmptyString));
    String "226" (String "128" (String "129" EmptyString));
    String "226" (String "128" (String "130" EmptyString));
    String "226" (String "128" (String "131" EmptyString));
    String "226" (String "128" (String "132" EmptyString));
    String "226" (String "128" (String "133" EmptyString));
    String "226" (String "128" (String "134" EmptyString));
    String "226" (String "128" (String "135" EmptyString));
    String "226" (String "128" (String "136" EmptyString));
    String "226" (String "128" (String "137" EmptyString));
    String "226" (String "128" (String "138" EmptyString));
    String "226" (String "128" (String "168" EmptyString));
    String "226" (String "128" (String "169" EmptyString));
    String "226" (String "128" (String "175" EmptyString));
    String "226" (String "129" (String "159" EmptyString));
    String "227" (String "128" (String "128" EmptyString));
    String "239" (String "187" (String "191" EmptyString)) ].

Definition isWhiteSpace (character : string) : bool :=
  bool_decide (character ∈ whiteSpace).

(** Removes from the start of [s] every character of one, two or three
    bytes that [unit] accepts, up to the first one that it does not. *)
Fixpoint stripStart (unit : string -> bool) (s : string) : string :=
  match s with
  | EmptyString => EmptyString
  | String a s1 =>
      if unit (String a EmptyString) then stripStart unit s1
      else
        match s1 with
        | EmptyString => s
        | String b s2 =>
            if unit (String a (String b EmptyString)) then stripStart unit s2
            else
              match s2 with
              | EmptyString => s
              | String c s3 =>
                  if unit (String a (String b (String c EmptyString)))
                  then stripStart unit s3
                  else s
              end
        end
  end.

(** [s.trimStart()] *)
Definition trimStart (s : string) : string := stripStart isWhiteSpace s.

(** [s.trimEnd()]: the same from the end, where the bytes of a character
    come in reverse. *)
Definition trimEnd (s : string) : string :=
  String.rev (stripStart (fun w => isWhiteSpace (String.rev w)) (String.rev s)).

(** [s.trim()] *)
Definition trim (s : string) : string := trimEnd (trimStart s).

(** [s.startsWith(p)] *)
Fixpoint startsWith (p s : string) : bool :=
  match p, s with
  | EmptyString, _ => true
  | String a p', String b s' => if decide (a = b) then startsWith p' s' else false
  | String _ _, EmptyString => false
  end.

(** [s.includes(p)] *)
Fixpoint includes (p s : string) : bool :=
  startsWith p s ||
  match s with
  | EmptyString => false
  | String _ s' => includes p s'
  end.

(** [s.split(sep)] for a one-character separator: the pieces between the
    separators, an empty piece included; never the empty list. *)
Fixpoint splitGo (sep : ascii) (cur : string) (s : string) : list string :=
  match s with
  | EmptyString => [String.rev cur]
  | String c s' =>
      if decide (c = sep) then String.rev cur :: splitGo sep EmptyString s'
      else splitGo sep (String c cur) s'
  end.
Definition split (sep : ascii) (s : string) : list string :=
  splitGo sep EmptyString s.

(** [s.split(/\s+/)]: the pieces between maximal runs of white space. *)
Fixpoint splitSpacesGo (inRun : bool) (cur : string) (s : string) : list string :=
  match s with
  | EmptyString => [String.rev cur]
  | String c s' =>
      if Ascii.is_space c then
        if inRun then splitSpacesGo true cur s'
        else String.rev cur :: splitSpacesGo true EmptyString s'
      else splitSpacesGo false (String c cur) s'
  end.
Definition splitSpaces (s : string) : list string :=
  splitSpacesGo false EmptyString s.

(** [parts.join(sep)] *)
Fixpoint join (sep : string) (parts : list string) : string :=
  match parts with
  | [] => EmptyString
  | [p] => p
  | p :: rest => p +:+ sep +:+ join sep rest
  end.

(** [s.replace(/^prefix/, empty)] for a literal prefix *)
Fixpoint dropPrefix (p s : string) : option string :=
  match p, s with
  | EmptyString, _ => Some s
  | String a p', String b s' => if decide (a = b) then dropPrefix p' s' else None
  | String _ _, EmptyString => None
  end.
Definition removePrefix (p s : string) : string :=
  default s (dropPrefix p s).

(** The one-character string holding a double quote. *)
Definition dquote : string := String "034" EmptyString.

(** Truthiness of a string: [Boolean(s)], [!!s] *)
Definition truthy (s : string) : bool :=
  match s with EmptyString => false | _ => true end.

(** Truthiness of an optional string: [undefined] and the empty string
    are falsy. *)
Definition truthyOpt (s : option string) : bool :=
  match s with Some s' => truthy s' | None => false end.

End JsString.

(** ** Plain objects used as tables *)

Module JsObject.
Import JsString.

(** The names that every plain object inherits from [Object.prototype]
    (those of Node.js). *)
Definition prototypeKeys : list string :=
  [ "constructor"; "__defineGetter__"; "__defineSetter__"; "hasOwnProperty";
    "__lookupGetter__"; "__lookupSetter__"; "isPrototypeOf";
    "propertyIsEnumerable"; "toString"; "valueOf"; "__proto__"; "toLocaleString" ].

Definition inherited (name : string) : bool := bool_decide (name ∈ prototypeKeys).

(** What [object[name]] finds on a plain object: an own property; or a
    member of [Object.prototype], which is a function (the prototype itself
    for [__proto__]), so truthy, and has none of the fields that the
    sources read from the values of their tables; or nothing. *)
Inductive Property (V : Type) : Type :=
  | Own (v : V)
  | Inherited
  | Absent.
Arguments Own {V} v.
Arguments Inherited {V}.
Arguments Absent {V}.

(** [object[name]], from the own property of that name, if any. *)
Definition property {V} (own : option V) (name : string) : Property V :=
  match own with
  | Some v => Own v
  | None => if inherited name then Inherited else Absent
  end.

Fixpoint digitsValue (acc : N) (s : string) : option N :=
  match s with
  | EmptyString => Some acc
  | String c s' =>
      let n := N_of_ascii c in
      if ((48 <=? n)%N && (n <=? 57)%N)%bool
      then digitsValue (10 * acc + (n - 48))%N s'
      else None
  end.

(** An array index: the decimal digits, written without a leading zero, of
    an integer from 0 to 2^32 - 2. *)
Definition arrayIndex (name : string) : option N :=
  match name with
  | EmptyString => None
  | String c digits =>
      if (bool_decide (c = "0"%char) && truthy digits)%bool then None
      else
        match digitsValue 0 name with
        | Some n => if (n <=? 4294967294)%N then Some n else None
        | None => None
        end
  end.

Definition isArrayIndex (name : string) : bool :=
  match arrayIndex name with Some _ => true | None => false end.

(** The order of two array indices. *)
Definition indexLe {V} (a b : string * V) : Prop :=
  (default 0 (arrayIndex a.1) ≤ default 0 (arrayIndex b.1))%N.

#[global] Instance indexLe_dec {V} (a b : string * V) : Decision (indexLe a b).
Proof. unfold indexLe. apply _. Defined.

(** [Object.entries(object)] for own properties given in the order of
    their creation: the array indices first, in ascending order, then the
    other names in the order of their creation. [Object.keys] and
    [Object.values] follow the same order. *)
Definition ownEntries {V} (properties : list (string * V)) : list (string * V) :=
  (merge_sort indexLe (List.filter (fun e => isArrayIndex e.1) properties)
   ++ List.filter (fun e => negb (isArrayIndex e.1)) properties)%list.

End JsObject.

(** ** The scm-github plugin: CI summary and merge readiness *)

Module ScmGithub.
Import JsString.

Record PRInfo := {
  pr_number : Z;
  pr_url : string;
  pr_title : string;
  pr_owner : string;
  pr_repo : string;
  pr_branch : string;
  pr_baseBranch : string;
  pr_isDraft : bool
}.

(** One element of the JSON array printed by [gh pr checks --json ...]. *)
Record RawCheck := {
  raw_name : string;
  raw_state : option string;
  raw_conclusion : option string;
  raw_detailsUrl : option string;
  raw_startedAt : option string;
  raw_completedAt : option string
}.

(** [CICheck["status"]] *)
Inductive CheckStatus := ck_pending | ck_running | ck_passed | ck_failed | ck_skipped.

#[global] Instance CheckStatus_eq_dec : EqDecision CheckStatus.
Proof. solve_decision. Defined.

(** Dates are kept as the text they are built from. *)
Record CICheck := {
  ci_name : string;
  ci_status : CheckStatus;
  ci_url : option string;
  ci_conclusion : option string;
  ci_startedAt : option string;
  ci_completedAt : option string
}.

(** [CIStatus] *)
Inductive CIStatus := CI_pending | CI_passing | CI_failing | CI_none.

#[global] Instance CIStatus_eq_dec : EqDecision CIStatus.
Proof. solve_decision. Defined.

(** The string a [CIStatus] is, as interpolated in a template literal. *)
Definition CIStatus_text (s : CIStatus) : string :=
  match s with
  | CI_pending => "pending"
  | CI_passing => "passing"
  | CI_failing => "failing"
  | CI_none => "none"
  end.

(** The JSON object printed by
    [gh pr view --json mergeable,reviewDecision,mergeStateStatus,isDraft]. *)
Record PRView := {
  view_mergeable : option string;
  view_reviewDecision : option string;
  view_mergeStateStatus : option string;
  view_isDraft : bool
}.

(** A [gh] invocation followed by [JSON.parse]: the parsed value, or the
    exception of a failed command or of unparsable output. *)
Inductive GhReply (A : Type) := GhOk (a : A) | GhFails (e : JsThrown).
Arguments GhOk {A} a.
Arguments GhFails {A} e.

(** What GitHub answers for a pull request. *)
Record GitHub := {
  gh_pr_checks : PRInfo -> GhReply (list RawCheck);
  gh_pr_view_mergeability : PRInfo -> GhReply PRView
}.

Record MergeReadiness := {
  mergeable : bool;
  ciPassing : bool;
  approved : bool;
  noConflicts : bool;
  blockers : list string
}.

(** [x === "LIT"] where [x] may be [undefined] *)
Definition optIs (x : option string) (lit : string) : bool :=
  match x with Some s => bool_decide (s = lit) | None => false end.

(** [v || undefined] *)
Definition orUndefined (v : option string) : option string :=
  match v with Some s => if truthy s then Some s else None | None => None end.

Definition checkOfRaw (c : RawCheck) : CICheck :=
  let state := toUpperCase <$> raw_state c in
  let conclusion := toUpperCase <$> raw_conclusion c in
  let status :=
    if optIs state "PENDING" || optIs state "QUEUED" then ck_pending
    else if optIs state "IN_PROGRESS" then ck_running
    else if optIs conclusion "SUCCESS" then ck_passed
    else if optIs conclusion "FAILURE" || optIs conclusion "TIMED_OUT" then ck_failed
    else if optIs conclusion "SKIPPED" || optIs conclusion "NEUTRAL" then ck_skipped
    else ck_pending in
  {| ci_name := raw_name c;
     ci_status := status;
     ci_url := orUndefined (raw_detailsUrl c);
     ci_conclusion := orUndefined (raw_conclusion c);
     ci_startedAt := orUndefined (raw_startedAt c);
     ci_completedAt := orUndefined (raw_completedAt c) |}.

(** [getCIChecks]: any failure of the command is caught and gives []. *)
Definition getCIChecks (gh : GitHub) (pr : PRInfo) : list CICheck :=
  match gh_pr_checks gh pr with
  | GhOk checks => checkOfRaw <$> checks
  | GhFails _ => []
  end.

(** [checks.some(p)] *)
Definition some {A} (p : A -> bool) (l : list A) : bool := existsb p l.

Definition getCISummary (gh : GitHub) (pr : PRInfo) : CIStatus :=
  let checks := getCIChecks gh pr in
  if (length checks =? 0)%nat then CI_none
  else
    let hasFailing := some (fun c => bool_decide (ci_status c = ck_failed)) checks in
    if hasFailing then CI_failing
    else
      let hasPending :=
        some (fun c => bool_decide (ci_status c = ck_pending)
                       || bool_decide (ci_status c = ck_running)) checks in
      if hasPending then CI_pending
      else CI_passing.

(** [blockers.push(x)] on the local array *)
Definition push (arr : list string) (x : string) : list string := arr ++ [x].

(** The part of [getMergeability] after the two queries. *)
Definition readiness (data : PRView) (ciStatus : CIStatus) : MergeReadiness :=
  let blockers : list string := [] in
  (* CI *)
  let ciPassing :=
    bool_decide (ciStatus = CI_passing) || bool_decide (ciStatus = CI_none) in
  let blockers :=
    if negb ciPassing then push blockers ("CI is " +:+ CIStatus_text ciStatus)
    else blockers in
  (* Reviews *)
  let reviewDecision := toUpperCase (default EmptyString (view_reviewDecision data)) in
  let approved := bool_decide (reviewDecision = "APPROVED") in
  let blockers :=
    if bool_decide (reviewDecision = "CHANGES_REQUESTED")
    then push blockers "Changes requested in review"
    else if bool_decide (reviewDecision = "REVIEW_REQUIRED")
    then push blockers "Review required"
    else blockers in
  (* Conflicts *)
  let mergeableText := toUpperCase (default EmptyString (view_mergeable data)) in
  let noConflicts := negb (bool_decide (mergeableText = "CONFLICTING")) in
  let blockers :=
    if negb noConflicts then push blockers "Merge conflicts" else blockers in
  (* Draft *)
  let blockers :=
    if view_isDraft data then push blockers "PR is still a draft" else blockers in
  {| mergeable := (length blockers =? 0)%nat;
     ciPassing := ciPassing;
     approved := approved;
     noConflicts := noConflicts;
     blockers := blockers |}.

(** [getMergeability]: the [gh pr view] query is not guarded, so its
    failure rejects the call; the CI summary is computed after it. *)
Definition getMergeability (gh : GitHub) (pr : PRInfo) : Completion MergeReadiness :=
  match gh_pr_view_mergeability gh pr with
  | GhFails e => Threw e
  | GhOk data =>
      let ciStatus := getCISummary gh pr in
      Returned (readiness data ciStatus)
  end.

(** The human-readable reasons, in the order callers rely on. *)
Definition blockerOrder : list string :=
  [ "CI is failing"; "CI is pending"; "Changes requested in review";
    "Review required"; "Merge conflicts"; "PR is still a draft" ].

(** The contribution of each of the four independent tests. *)
Definition ciBlocker (ciStatus : CIStatus) : list string :=
  match ciStatus with
  | CI_failing => ["CI is failing"]
  | CI_pending => ["CI is pending"]
  | CI_passing | CI_none => []
  end.

Definition reviewBlocker (data : PRView) : list string :=
  let d := toUpperCase (default EmptyString (view_reviewDecision data)) in
  if bool_decide (d = "CHANGES_REQUESTED") then ["Changes requested in review"]
  else if bool_decide (d = "REVIEW_REQUIRED") then ["Review required"]
  else [].

Definition conflictBlocker (data : PRView) : list string :=
  if bool_decide (toUpperCase (default EmptyString (view_mergeable data)) = "CONFLICTING")
  then ["Merge conflicts"] else [].

Definition draftBlocker (data : PRView) : list string :=
  if view_isDraft data then ["PR is still a draft"] else [].

End ScmGithub.

(** ** Types of the core package used by the plugins *)

Module Core.

Inductive EventPriority := urgent | action | warning | info.

#[global] Instance EventPriority_eq_dec : EqDecision EventPriority.
Proof. solve_decision. Defined.

Definition EventPriority_text (p : EventPriority) : string :=
  match p with
  | urgent => "urgent" | action => "action" | warning => "warning" | info => "info"
  end.

(** A [Date], through the one method the sources call on it. *)
Record JsDate := { toISOString : string }.

Record OrchestratorEvent := {
  ev_id : string;
  ev_type : string;
  ev_priority : EventPriority;
  ev_sessionId : string;
  ev_projectId : string;
  ev_timestamp : JsDate;
  ev_message : string;
  ev_data : gmap string string
}.

Record NotifyAction := {
  act_label : string;
  act_url : option string;
  act_callbackEndpoint : option string
}.

Record NotifyContext := { ctx_fields : gmap string string }.

End Core.

(** ** The webhook notifier *)

Module NotifierWebhook.
Import JsString Core.

Inductive PayloadType := notification | notification_with_actions | message.

Record SerializedEvent := {
  se_id : string;
  se_type : string;
  se_priority : string;
  se_sessionId : string;
  se_projectId : string;
  se_timestamp : string;
  se_message : string;
  se_data : gmap string string
}.

Record SerializedAction := {
  sa_label : string;
  sa_url : option string;
  sa_callbackEndpoint : option string
}.

Record WebhookPayload := {
  wp_type : PayloadType;
  wp_event : option SerializedEvent;
  wp_actions : option (list SerializedAction);
  wp_message : option string;
  wp_context : option NotifyContext
}.

(** The argument of one [fetch(url, {method: "POST", headers, body})]. *)
Record HttpRequest := {
  req_url : string;
  req_headers : gmap string string;
  req_body : WebhookPayload
}.

(** What one [fetch] gives: a response (with [ok], [status] and the result
    of [text()]), a rejection, or nothing at all: no time limit is set on
    the request. *)
Inductive HttpReply :=
  | Response (ok : bool) (status : Z) (text : JsThrown + string)
  | FetchRejects (e : JsThrown)
  | FetchPending.

(** The remote side: the reply to the [n]-th request issued so far. *)
Definition Network := nat -> HttpRequest -> HttpReply.

Inductive Effect :=
  | Fetch (req : HttpRequest)
  | SetTimeout (ms : Z).

Record Wire := { sent : nat; log : list Effect }.

Definition idle : Wire := {| sent := 0; log := [] |}.

Definition recordFetch (req : HttpRequest) (w : Wire) : Wire :=
  {| sent := S (sent w); log := log w ++ [Fetch req] |}.

Definition recordTimeout (ms : Z) (w : Wire) : Wire :=
  {| sent := sent w; log := log w ++ [SetTimeout ms] |}.

(** [err instanceof Error ? err : new Error(String(err))] *)
Definition asError (err : JsThrown) : JsThrown :=
  match err with
  | ErrorObj m c => ErrorObj m c
  | other => newError (errorMessage other)
  end.

(** The body of the [try] of one attempt: [None] when the response is ok
    (the function returns), otherwise the new value of [lastError]. *)
Definition attemptError (reply : HttpReply) : option (option JsThrown) :=
  match reply with
  | Response true _ _ => Some None
  | Response false status (inr body) =>
      Some (Some (newError ("Webhook POST failed (" +:+ pretty status +:+ "): " +:+ body)))
  | Response false _ (inl err) => Some (Some (asError err))
  | FetchRejects err => Some (Some (asError err))
  | FetchPending => None
  end.

(** [throw lastError], where [lastError] may still be [undefined] *)
Definition throwLast {A} (lastError : option JsThrown) : Completion A :=
  Threw (default ThrownUndefined lastError).

Section PostWithRetry.
Variable net : Network.
Variables (url : string) (payload : WebhookPayload) (headers : gmap string string).
Variables (retries retryDelayMs : Z).

Definition request : HttpRequest :=
  {| req_url := url;
     req_headers := headers ∪ {[ "Content-Type" := "application/json" ]};
     req_body := payload |}.

(** The [for (let attempt = 0; attempt <= retries; attempt++)] loop, from
    the state at the test of its condition; [fuel] bounds the number of
    tests of the condition. *)
Fixpoint retryLoop (fuel : nat) (attempt : Z) (lastError : option JsThrown)
    (w : Wire) : option (Completion unit * Wire) :=
  match fuel with
  | O => None
  | S fuel' =>
      if attempt <=? retries then
        let reply := net (sent w) request in
        let w := recordFetch request w in
        match attemptError reply with
        | None => Some (NeverSettles, w)
        | Some None => Some (Returned tt, w)
        | Some (Some err) =>
            let w := if attempt <? retries then recordTimeout retryDelayMs w else w in
            retryLoop fuel' (attempt + 1) (Some err) w
        end
      else Some (throwLast lastError, w)
  end.

Definition postWithRetry (w : Wire) : option (Completion unit * Wire) :=
  retryLoop (S (Z.to_nat (retries + 1))) 0 None w.

End PostWithRetry.

Definition serializeEvent (event : OrchestratorEvent) : SerializedEvent :=
  {| se_id := ev_id event;
     se_type := ev_type event;
     se_priority := EventPriority_text (ev_priority event);
     se_sessionId := ev_sessionId event;
     se_projectId := ev_projectId event;
     se_timestamp := toISOString (ev_timestamp event);
     se_message := ev_message event;
     se_data := ev_data event |}.

(** [config?: Record<string, unknown>] with the four keys that are read. *)
Record WebhookNotifierConfig := {
  cfg_url : option string;
  cfg_headers : option (gmap string string);
  cfg_retries : option Z;
  cfg_retryDelayMs : option Z
}.

(** The variables captured by the methods of the notifier object. *)
Record Notifier := {
  url : option string;
  customHeaders : gmap string string;
  retries : Z;
  retryDelayMs : Z
}.

(** [create(config)]: the notifier and what it wrote with [console.warn]. *)
Definition create (config : option WebhookNotifierConfig) : Notifier * list string :=
  let url := config ≫= cfg_url in
  let customHeaders := default ∅ (config ≫= cfg_headers) in
  let retries := default 2 (config ≫= cfg_retries) in
  let retryDelayMs := default 1000 (config ≫= cfg_retryDelayMs) in
  let warnings :=
    if negb (truthyOpt url)
    then ["[notifier-webhook] No url configured — notifications will be no-ops"]
    else [] in
  ({| url := url; customHeaders := customHeaders;
      retries := retries; retryDelayMs := retryDelayMs |}, warnings).

Definition serializeAction (a : NotifyAction) : SerializedAction :=
  {| sa_label := act_label a; sa_url := act_url a;
     sa_callbackEndpoint := act_callbackEndpoint a |}.

Section Methods.
Variable net : Network.
Variable self : Notifier.

Definition deliver (target : string) (payload : WebhookPayload) (w : Wire)
    : option (Completion unit * Wire) :=
  postWithRetry net target payload (customHeaders self)
    (retries self) (retryDelayMs self) w.

Definition notify (event : OrchestratorEvent) (w : Wire)
    : option (Completion unit * Wire) :=
  match url self with
  | Some target =>
      if negb (truthy target) then Some (Returned tt, w)
      else
        deliver target
          {| wp_type := notification; wp_event := Some (serializeEvent event);
             wp_actions := None; wp_message := None; wp_context := None |} w
  | None => Some (Returned tt, w)
  end.

Definition notifyWithActions (event : OrchestratorEvent)
    (actions : list NotifyAction) (w : Wire) : option (Completion unit * Wire) :=
  match url self with
  | Some target =>
      if negb (truthy target) then Some (Returned tt, w)
      else
        deliver target
          {| wp_type := notification_with_actions;
             wp_event := Some (serializeEvent event);
             wp_actions := Some (serializeAction <$> actions);
             wp_message := None; wp_context := None |} w
  | None => Some (Returned tt, w)
  end.

(** [post] resolves to [string | null]; both of its returns are [null]. *)
Definition post (msg : string) (context : option NotifyContext) (w : Wire)
    : option (Completion (option string) * Wire) :=
  match url self with
  | Some target =>
      if negb (truthy target) then Some (Returned None, w)
      else
        match deliver target
          {| wp_type := message; wp_event := None; wp_actions := None;
             wp_message := Some msg; wp_context := context |} w with
        | Some (c, w') => Some (cbind c (fun _ => Returned None), w')
        | None => None
        end
  | None => Some (Returned None, w)
  end.

End Methods.

Definition isFetch (e : Effect) : bool :=
  match e with Fetch _ => true | SetTimeout _ => false end.

(** The number of requests in a trace. *)
Definition fetches (l : list Effect) : nat := length (List.filter isFetch l).

(** [n] attempts with the pause between consecutive ones: what a delivery
    of [n] attempts leaves on the wire. *)
Fixpoint attemptsTrace (req : HttpRequest) (delay : Z) (n : nat) : list Effect :=
  match n with
  | O => []
  | S O => [Fetch req]
  | S n' => Fetch req :: SetTimeout delay :: attemptsTrace req delay n'
  end.

(** A request succeeds when it gets a response that is ok. *)
Definition succeeds (reply : HttpReply) : Prop :=
  ∃ status text, reply = Response true status text.

(** A request fails, and leaves an error: a response that is not ok, whose
    status and body make the message of the error (or whose body cannot be
    read: the error of [text()]); or a [fetch] that rejects, with what it
    rejects with, made an [Error] when it is none. *)
Inductive failsWith : HttpReply -> JsThrown -> Prop :=
  | fails_status (status : Z) (body : string) :
      failsWith (Response false status (inr body))
        (ErrorObj ("Webhook POST failed (" +:+ pretty status +:+ "): " +:+ body) None)
  | fails_body (status : Z) (message : string) (code : option string) :
      failsWith (Response false status (inl (ErrorObj message code)))
        (ErrorObj message code)
  | fails_body_value (status : Z) (thrown : JsThrown) :
      (∀ message code, thrown ≠ ErrorObj message code) →
      failsWith (Response false status (inl thrown))
        (ErrorObj (errorMessage thrown) None)
  | fails_rejected (message : string) (code : option string) :
      failsWith (FetchRejects (ErrorObj message code)) (ErrorObj message code)
  | fails_rejected_value (thrown : JsThrown) :
      (∀ message code, thrown ≠ ErrorObj message code) →
      failsWith (FetchRejects thrown) (ErrorObj (errorMessage thrown) None).

Definition fails (reply : HttpReply) : Prop := ∃ err, failsWith reply err.

End NotifierWebhook.

(** ** The plugin tables of the command-line front end *)

Module CliPlugins.
Import JsString JsObject Core.

(** The [Notifier] interface, through the method the commands call. *)
Record Notifier := {
  notifier_name : string;
  notifier_notify : OrchestratorEvent -> Completion unit
}.

(** A plugin module: [{ create(...): T }]; [create] returns or throws. *)
Record AgentModule (Agent : Type) := { agent_create : unit -> JsThrown + Agent }.
Record SCMModule (SCM : Type) := { scm_create : unit -> JsThrown + SCM }.
Record NotifierModule := { notifier_create : gmap string string -> JsThrown + Notifier }.
Arguments agent_create {Agent} _ _.
Arguments scm_create {SCM} _ _.

Record ScmConfig := { scm_plugin : option string }.

Record ProjectConfig := {
  project_name : string;
  project_repo : string;
  project_agent : option string;
  project_scm : option ScmConfig;
  project_runtime : option string;
  project_sessionPrefix : option string
}.

(** An entry of [config.notifiers]: the plugin name and the other keys. *)
Record NotifierConfig := { plugin : string; rest : gmap string string }.

Record Defaults := {
  defaults_agent : string;
  defaults_notifiers : list string
}.

Record OrchestratorConfig := {
  projects : gmap string ProjectConfig;
  defaults : Defaults;
  notifiers : gmap string NotifierConfig;
  notificationRouting : list (string * list string)
}.

(** [a || b] on optional strings *)
Definition orElse (a : option string) (b : string) : string :=
  match a with Some s => if truthy s then s else b | None => b end.

(** [table[name]] on a table written as an object literal. *)
Definition at_key {V} (table : list (string * V)) (name : string) : Property V :=
  property ((list_to_map table : gmap string V) !! name) name.

(** [callee.create(...)] on a member of [Object.prototype]: for the
    constructor [Object] it is [Object.create()] without a prototype, for
    the others a call of [undefined]; both throw a [TypeError], worded as
    Node.js does. *)
Definition createOfMember (callee name : string) : JsThrown :=
  newError (if bool_decide (name = "constructor")
            then "Object prototype may only be an Object or null: undefined"
            else callee +:+ ".create is not a function").

(** A member of [Object.prototype] where a notifier module is expected:
    [pluginModule.create(rest)] on the constructor [Object] is
    [Object.create(rest)], an object whose [notify] is no function (the
    values of [rest] are texts), and on the others a call of [undefined]. *)
Definition memberModule (name : string) : NotifierModule :=
  {| notifier_create := fun rest =>
       if bool_decide (name = "constructor")
       then inr {| notifier_name := default "undefined" (rest !! "name");
                   notifier_notify := fun _ =>
                     Threw (newError "notifier.notify is not a function") |}
       else inl (createOfMember "pluginModule" name) |}.

(** [config.notifiers[name]]. A member of [Object.prototype] has no
    [plugin] and no other configuration: the [undefined] that is read from
    it is, as a key of the plugin table and in the lines written, the text
    undefined. *)
Definition notifierConfigAt (config : OrchestratorConfig) (name : string)
    : option NotifierConfig :=
  match property (notifiers config !! name) name with
  | Own notifierConfig => Some notifierConfig
  | Inherited => Some {| plugin := "undefined"; rest := ∅ |}
  | Absent => None
  end.

(** [Object.keys(table)] *)
Definition keys {V} (table : list (string * V)) : list string := table.*1.

Section Tables.
Context {Agent SCM : Type}.
(** The imported plugin modules. *)
Variables claudeCodePlugin codexPlugin aiderPlugin : AgentModule Agent.
Variable githubSCMPlugin : SCMModule SCM.
Variables desktopNotifierPlugin slackNotifierPlugin
          webhookNotifierPlugin composioNotifierPlugin : NotifierModule.

(** The tables are object literals: their keys in the order written. *)
Definition agentPlugins : list (string * AgentModule Agent) :=
  [ ("claude-code", claudeCodePlugin); ("codex", codexPlugin); ("aider", aiderPlugin) ].

Definition scmPlugins : list (string * SCMModule SCM) :=
  [ ("github", githubSCMPlugin) ].

Definition notifierPlugins : list (string * NotifierModule) :=
  [ ("desktop", desktopNotifierPlugin); ("slack", slackNotifierPlugin);
    ("webhook", webhookNotifierPlugin); ("composio", composioNotifierPlugin) ].

(** The [agentName] of [getAgent]: the project's agent, or the default.
    For a project id that [config.projects] inherits from
    [Object.prototype], [?.agent] is [undefined], as for an id that is not
    there. *)
Definition agentNameOf (config : OrchestratorConfig) (projectId : option string)
    : string :=
  orElse (match projectId with
          | Some p =>
              if truthy p then
                match projects config !! p with
                | Some project => project_agent project
                | None => None
                end
              else None
          | None => None
          end)
         (defaults_agent (defaults config)).

(** The [scmName] of [getSCM]: the project's SCM plugin, or "github"; the
    same holds for an inherited project id as in [agentNameOf]. *)
Definition scmNameOf (config : OrchestratorConfig) (projectId : string) : string :=
  orElse (match projects config !! projectId with
          | Some project =>
              match project_scm project with
              | Some scm => scm_plugin scm
              | None => None
              end
          | None => None
          end) "github".

Definition getAgent (config : OrchestratorConfig) (projectId : option string)
    : JsThrown + Agent :=
  let agentName := agentNameOf config projectId in
  match at_key agentPlugins agentName with
  | Absent => inl (newError ("Unknown agent plugin: " +:+ agentName))
  | Own plugin => agent_create plugin tt
  | Inherited => inl (createOfMember "plugin" agentName)
  end.

Definition getAgentByName (name : string) : JsThrown + Agent :=
  match at_key agentPlugins name with
  | Absent => inl (newError ("Unknown agent plugin: " +:+ name))
  | Own plugin => agent_create plugin tt
  | Inherited => inl (createOfMember "plugin" name)
  end.

Definition getSCM (config : OrchestratorConfig) (projectId : string) : JsThrown + SCM :=
  let scmName := scmNameOf config projectId in
  match at_key scmPlugins scmName with
  | Absent => inl (newError ("Unknown SCM plugin: " +:+ scmName))
  | Own plugin => scm_create plugin tt
  | Inherited => inl (createOfMember "plugin" scmName)
  end.

Definition getNotifier (name : string) : JsThrown + NotifierModule :=
  match at_key notifierPlugins name with
  | Absent =>
      inl (newError ("Unknown notifier plugin: " +:+ dquote +:+ name +:+ dquote
                     +:+ ". Available: " +:+ join ", " (keys notifierPlugins)))
  | Own plugin => inr plugin
  | Inherited => inr (memberModule name)
  end.

End Tables.

End CliPlugins.

(** ** The [ao notify test] command *)

Module NotifyCommand.
Import JsString Core CliPlugins.

(** The clock: the value of the [n]-th reading of the current time. *)
Definition Clock := nat -> Z.

(** A line written with [console.log] inside the loop over the notifiers:
    - [LineSkip name]: "skip  name - no config in notifiers section";
    - [LineFailPlugin name msg]: "FAIL  name - plugin error: msg";
    - [LineOk name plugin]: "OK    name (plugin)";
    - [LineFail name plugin msg]: "FAIL  name (plugin) - msg". *)
Inductive Line :=
  | LineSkip (name : string)
  | LineFailPlugin (name message : string)
  | LineOk (name plugin : string)
  | LineFail (name plugin error : string).

(** The calls on the plugins, as they are made. *)
Inductive Call :=
  | CallGetNotifier (pluginName : string)
  | CallCreate (pluginName : string) (config : gmap string string)
  | CallNotify (name : string) (event : OrchestratorEvent).

Record Run := {
  console : list Line;
  allPassed : bool;
  calls : list Call;
  clockReads : nat
}.

Definition start : Run :=
  {| console := []; allPassed := true; calls := []; clockReads := 0 |}.

Definition log (line : Line) (r : Run) : Run :=
  {| console := console r ++ [line]; allPassed := allPassed r;
     calls := calls r; clockReads := clockReads r |}.

Definition called (c : Call) (r : Run) : Run :=
  {| console := console r; allPassed := allPassed r;
     calls := calls r ++ [c]; clockReads := clockReads r |}.

Definition failed (r : Run) : Run :=
  {| console := console r; allPassed := false;
     calls := calls r; clockReads := clockReads r |}.

Definition tick (n : nat) (r : Run) : Run :=
  {| console := console r; allPassed := allPassed r;
     calls := calls r; clockReads := clockReads r + n |}.

Record TestResult := {
  result_name : string;
  success : bool;
  error : option string
}.

Section Command.
Variables desktopNotifierPlugin slackNotifierPlugin
          webhookNotifierPlugin composioNotifierPlugin : NotifierModule.
Variable clock : Clock.
Variable config : OrchestratorConfig.

(** [makeTestEvent]: reads the clock for the id, then for the timestamp. *)
Definition makeTestEvent (priority : EventPriority) (reads : nat) : OrchestratorEvent :=
  {| ev_id := "test-" +:+ pretty (clock reads);
     ev_type := "session.working";
     ev_priority := priority;
     ev_sessionId := "test-session";
     ev_projectId := "test-project";
     ev_timestamp := {| toISOString := pretty (clock (S reads)) |};
     ev_message :=
       "This is a test notification from Agent Orchestrator (priority: "
       +:+ EventPriority_text priority +:+ ")";
     ev_data := ∅ |}.

(** [testNotifier]: the rejection of [notify] is caught and reported. *)
Definition testNotifier (name : string) (notifier : Notifier)
    (priority : EventPriority) (r : Run) : Completion TestResult * Run :=
  let event := makeTestEvent priority (clockReads r) in
  let r := called (CallNotify name event) (tick 2 r) in
  match notifier_notify notifier event with
  | Returned _ => (Returned {| result_name := name; success := true; error := None |}, r)
  | Threw err =>
      (Returned {| result_name := name; success := false;
                   error := Some (errorMessage err) |}, r)
  | NeverSettles => (NeverSettles, r)
  end.

(** [createNotifier]: [getNotifier] or [create] may throw. *)
Definition createNotifier (name : string) (notifierConfig : NotifierConfig)
    (r : Run) : (JsThrown + Notifier) * Run :=
  let pluginName := plugin notifierConfig in
  let r := called (CallGetNotifier pluginName) r in
  match getNotifier desktopNotifierPlugin slackNotifierPlugin
          webhookNotifierPlugin composioNotifierPlugin pluginName with
  | inl err => (inl err, r)
  | inr pluginModule =>
      let r := called (CallCreate pluginName (rest notifierConfig)) r in
      (notifier_create pluginModule (rest notifierConfig), r)
  end.

(** The body of [for (const name of notifierNames)]. *)
Definition forName (priority : EventPriority) (name : string) (r : Run)
    : Completion unit * Run :=
  match notifierConfigAt config name with
  | None => (Returned tt, log (LineSkip name) r)
  | Some notifierConfig =>
      match createNotifier name notifierConfig r with
      | (inl err, r) =>
          (Returned tt, failed (log (LineFailPlugin name (errorMessage err)) r))
      | (inr notifier, r) =>
          match testNotifier name notifier priority r with
          | (Returned result, r) =>
              if success result
              then (Returned tt, log (LineOk name (plugin notifierConfig)) r)
              else (Returned tt,
                    failed (log (LineFail name (plugin notifierConfig)
                                   (default "undefined" (error result))) r))
          | (Threw e, r) => (Threw e, r)
          | (NeverSettles, r) => (NeverSettles, r)
          end
      end
  end.

(** The loop over [notifierNames]; an iteration that does not complete
    ends it. *)
Fixpoint forEachName (priority : EventPriority) (names : list string) (r : Run)
    : Completion unit * Run :=
  match names with
  | [] => (Returned tt, r)
  | name :: names' =>
      match forName priority name r with
      | (Returned _, r) => forEachName priority names' r
      | (Threw e, r) => (Threw e, r)
      | (NeverSettles, r) => (NeverSettles, r)
      end
  end.

(** The delivery to [name] settles: its plugin, when it creates a notifier,
    gives one whose [notify] resolves or rejects. *)
Definition settles (name : string) : Prop :=
  ∀ notifierConfig pluginModule notifier event,
    notifierConfigAt config name = Some notifierConfig →
    getNotifier desktopNotifierPlugin slackNotifierPlugin
      webhookNotifierPlugin composioNotifierPlugin (plugin notifierConfig)
      = inr pluginModule →
    notifier_create pluginModule (rest notifierConfig) = inr notifier →
    notifier_notify notifier event ≠ NeverSettles.

(** What the loop writes for one name: the failure of the name's own
    plugin or notifier, and nothing about the other names. *)
Definition outcomeOf (name : string) (line : Line) : Prop :=
  match notifierConfigAt config name with
  | None => line = LineSkip name
  | Some notifierConfig =>
      match getNotifier desktopNotifierPlugin slackNotifierPlugin
              webhookNotifierPlugin composioNotifierPlugin (plugin notifierConfig) with
      | inl err => line = LineFailPlugin name (errorMessage err)
      | inr pluginModule =>
          match notifier_create pluginModule (rest notifierConfig) with
          | inl err => line = LineFailPlugin name (errorMessage err)
          | inr notifier =>
              ∃ event,
                (notifier_notify notifier event = Returned tt
                 ∧ line = LineOk name (plugin notifierConfig))
                ∨ (∃ err, notifier_notify notifier event = Threw err
                   ∧ line = LineFail name (plugin notifierConfig) (errorMessage err))
          end
      end
  end.

End Command.

Definition isFailure (line : Line) : bool :=
  match line with
  | LineFailPlugin _ _ | LineFail _ _ _ => true
  | LineSkip _ | LineOk _ _ => false
  end.

(** The plugin names looked up with [getNotifier], in order. *)
Definition lookedUp (cs : list Call) : list string :=
  omap (fun c => match c with CallGetNotifier p => Some p | _ => None end) cs.

End NotifyCommand.

(** ** Sessions, runtime handles and the host they run on *)

Module Runtime.
Import JsString.

(** A JavaScript number, as far as the liveness check looks at it: a finite
    number that is not an integer is kept with its sign only (it is compared
    with zero and then refused by [process.kill]). *)
Inductive JsNumber :=
  | JsNaN
  | JsInfinity (negative : bool)
  | JsInteger (z : Z)
  | JsFraction (positive : bool).

(** A scalar value of the [data] bag of a runtime handle. *)
Inductive JsValue :=
  | JsUndefined
  | JsNull
  | JsBool (b : bool)
  | JsNum (n : JsNumber)
  | JsStr (s : string).

Record RuntimeHandle := {
  runtimeName : string;
  handle_id : string;
  data : gmap string JsValue
}.

Record Session := {
  session_id : string;
  projectId : string;
  branch : option string;
  runtimeHandle : option RuntimeHandle
}.

Inductive ActivityState := st_active | st_idle | st_exited.

Record ActivityDetection := { state : ActivityState }.

(** How a child process started with [execFile] ends: it exits with
    success and its standard output, it fails, or it does not exit. *)
Inductive ChildProcess :=
  | Exits (stdout : string)
  | Fails (e : JsThrown)
  | Stalls.

(** The host: the programs the checks run, the signal probe of
    [process.kill(pid, 0)] ([None] when the signal can be sent, otherwise
    the error raised), and the engine's conversion of a string to a number. *)
Record Host := {
  run : string -> list string -> ChildProcess;
  probe : Z -> option JsThrown;
  stringToNumber : string -> JsNumber
}.

(** The calls that leave the process. *)
Inductive SysCall :=
  | ExecFile (file : string) (args : list string) (timeout : option Z)
  | ProcessKill (pid : JsNumber) (signal : Z).

(** A computation that makes such calls: its completion and its calls. *)
Definition Sys (A : Type) : Type := Completion A * list SysCall.

Definition ret {A} (a : A) : Sys A := (Returned a, []).

Definition bind {A B} (m : Sys A) (k : A -> Sys B) : Sys B :=
  match m with
  | (Returned a, t) => let '(c, t') := k a in (c, (t ++ t')%list)
  | (Threw e, t) => (Threw e, t)
  | (NeverSettles, t) => (NeverSettles, t)
  end.

(** [try { m } catch { return h }] *)
Definition tryCatch {A} (m : Sys A) (h : JsThrown -> Sys A) : Sys A :=
  match m with
  | (Threw e, t) => let '(c, t') := h e in (c, (t ++ t')%list)
  | other => other
  end.

Notation "'let!' x := m 'in' k" := (bind m (fun x => k))
  (at level 10, x name, m at level 100, k at level 200).

(** [await execFileAsync(file, args, { timeout })]: with a time limit a
    child that does not exit is killed and the call rejects; without one
    the call waits for it. *)
Definition execFileAsync (host : Host) (file : string) (args : list string)
    (timeout : option Z) : Sys string :=
  let call := [ExecFile file args timeout] in
  match run host file args with
  | Exits stdout => (Returned stdout, call)
  | Fails e => (Threw e, call)
  | Stalls =>
      match timeout with
      | Some _ => (Threw (ErrorObj "Command failed" None), call)
      | None => (NeverSettles, call)
      end
  end.

Definition int32 (z : Z) : bool := (- 2 ^ 31 <=? z) && (z <? 2 ^ 31).

(** [process.kill(pid, 0)]: a pid that is not a 32-bit integer is refused
    with a [TypeError]; otherwise the host decides. *)
Definition processKill (host : Host) (pid : JsNumber) : Sys unit :=
  let call := [ProcessKill pid 0] in
  match pid with
  | JsInteger z =>
      if int32 z then
        match probe host z with
        | None => (Returned tt, call)
        | Some e => (Threw e, call)
        end
      else (Threw (ErrorObj "The pid argument must be of type number" (Some "ERR_INVALID_ARG_TYPE")), call)
  | _ => (Threw (ErrorObj "The pid argument must be of type number" (Some "ERR_INVALID_ARG_TYPE")), call)
  end.

(** [typeof rawPid === "number" ? rawPid : Number(rawPid)] *)
Definition toPid (host : Host) (rawPid : JsValue) : JsNumber :=
  match rawPid with
  | JsNum n => n
  | JsUndefined => JsNaN
  | JsNull => JsInteger 0
  | JsBool b => JsInteger (if b then 1 else 0)
  | JsStr s => stringToNumber host s
  end.

(** [Number.isFinite(pid) && pid > 0] *)
Definition finitePositive (pid : JsNumber) : bool :=
  match pid with
  | JsInteger z => 0 <? z
  | JsFraction positive => positive
  | JsNaN | JsInfinity _ => false
  end.

(** [handle.runtimeName === "tmux" && handle.id] *)
Definition inTmux (handle : RuntimeHandle) : bool :=
  bool_decide (runtimeName handle = "tmux") && truthy (handle_id handle).

Definition listPanesArgs (handle : RuntimeHandle) : list string :=
  ["list-panes"; "-t"; handle_id handle; "-F"; "#{pane_tty}"].

Definition psArgs : list string := ["-eo"; "pid,tty,args"].

(** [cols.slice(2).join(" ")] *)
Definition argsOf (cols : list string) : string := join " " (drop 2 cols).

End Runtime.

(** ** The shared liveness helper of the core package *)

Module CoreUtils.
Import JsString Runtime.

(** [ttyOut.trim().split(newline).map((t) => t.trim()).filter(Boolean)] *)
Definition paneTtys (ttyOut : string) : list string :=
  List.filter truthy (trim <$> split "010" (trim ttyOut)).

(** After the process name: white space or the end of the text. *)
Definition spaceOrEnd (s : string) : bool :=
  match s with
  | EmptyString => true
  | String c _ => Ascii.is_space c
  end.

(** A match of the expression built from the escaped process name,
    [(?:^|/)name(?:\s|$)], starting in [s]; [boundary] tells whether [s]
    is at the start of the text or follows a slash. *)
Fixpoint matchFrom (name : string) (boundary : bool) (s : string) : bool :=
  (boundary && match dropPrefix name s with
               | Some after => spaceOrEnd after
               | None => false
               end)
  || match s with
     | EmptyString => false
     | String c s' => matchFrom name (bool_decide (c = "/"%char)) s'
     end.

(** [processRe.test(args)] *)
Definition processRe_test (processName : string) (args : string) : bool :=
  matchFrom processName true args.

(** The loop over the lines of [ps]: the first line on one of the panes'
    terminals whose command matches ends it. *)
Fixpoint anyLine (ttySet : list string) (processName : string)
    (lines : list string) : bool :=
  match lines with
  | [] => false
  | line :: lines' =>
      let cols := splitSpaces (trimStart line) in
      if (length cols <? 3)%nat
         || negb (bool_decide (default EmptyString (cols !! 1%nat) ∈ ttySet))
      then anyLine ttySet processName lines'
      else
        let args := argsOf cols in
        if processRe_test processName args then true
        else anyLine ttySet processName lines'
  end.

Definition isAgentProcessRunning (host : Host) (handle : RuntimeHandle)
    (processName : string) : Sys bool :=
  tryCatch
    (if inTmux handle then
       let! ttyOut := execFileAsync host "tmux" (listPanesArgs handle) (Some 30000) in
       let ttys := paneTtys ttyOut in
       if (length ttys =? 0)%nat then ret false
       else
         let! psOut := execFileAsync host "ps" psArgs (Some 30000) in
         let ttySet := removePrefix "/dev/" <$> ttys in
         ret (anyLine ttySet processName (split "010" psOut))
     else
       let rawPid := default JsUndefined (data handle !! "pid") in
       let pid := toPid host rawPid in
       if finitePositive pid then
         tryCatch
           (let! _ := processKill host pid in ret true)
           (fun err =>
              match err with
              | ErrorObj _ (Some code) =>
                  if bool_decide (code = "EPERM") then ret true else ret false
              | _ => ret false
              end)
       else ret false)
    (fun _ => ret false).

End CoreUtils.

(** ** The agent plugins *)

Module AgentCodex.
Import Runtime CoreUtils.

Definition isProcessRunning (host : Host) (handle : RuntimeHandle) : Sys bool :=
  isAgentProcessRunning host handle "codex".

(** [null] is [None]. *)
Definition getActivityState (host : Host) (session : Session)
    : Sys (option ActivityDetection) :=
  match runtimeHandle session with
  | None => ret (Some {| state := st_exited |})
  | Some handle =>
      let! running := isProcessRunning host handle in
      if negb running then ret (Some {| state := st_exited |})
      else ret None
  end.

End AgentCodex.

Module AgentOpencode.
Import Runtime CoreUtils.

Definition isProcessRunning (host : Host) (handle : RuntimeHandle) : Sys bool :=
  isAgentProcessRunning host handle "opencode".

Definition getActivityState (host : Host) (session : Session)
    : Sys (option ActivityDetection) :=
  match runtimeHandle session with
  | None => ret (Some {| state := st_exited |})
  | Some handle =>
      let! running := isProcessRunning host handle in
      if negb running then ret (Some {| state := st_exited |})
      else ret None
  end.

End AgentOpencode.

Module AgentAider.
Import JsString Runtime.

(** The test on the command of a [ps] line. *)
Definition isAider (args : string) : bool :=
  bool_decide (args = "aider")
  || startsWith "aider " args
  || includes "/aider " args
  || includes "/aider" args.

Fixpoint anyLine (ttyShort : string) (lines : list string) : bool :=
  match lines with
  | [] => false
  | line :: lines' =>
      let cols := splitSpaces (trimStart line) in
      if (length cols <? 3)%nat
         || negb (bool_decide (cols !! 1%nat = Some ttyShort))
      then anyLine ttyShort lines'
      else
        let args := argsOf cols in
        if isAider args then true else anyLine ttyShort lines'
  end.

Definition isProcessRunning (host : Host) (handle : RuntimeHandle) : Sys bool :=
  tryCatch
    (if inTmux handle then
       let! ttyOut := execFileAsync host "tmux" (listPanesArgs handle) None in
       let tty := default EmptyString (split "010" (trim ttyOut) !! 0%nat) in
       if negb (truthy tty) then ret false
       else
         let ttyShort := removePrefix "/dev/" tty in
         let! psOut := execFileAsync host "ps" psArgs None in
         ret (anyLine ttyShort (split "010" psOut))
     else
       let rawPid := default JsUndefined (data handle !! "pid") in
       let pid := toPid host rawPid in
       if finitePositive pid then
         tryCatch
           (let! _ := processKill host pid in ret true)
           (fun _ => ret false)
       else ret false)
    (fun _ => ret false).

Definition detectActivity (host : Host) (session : Session) : Sys ActivityState :=
  match runtimeHandle session with
  | None => ret st_exited
  | Some handle =>
      let! running := isProcessRunning host handle in
      if negb running then ret st_exited
      else ret st_active
  end.

End AgentAider.

(** ** The message route of the web dashboard *)

Module WebRoute.
Import JsString JsObject Runtime CliPlugins.

(** The [Runtime] plugin interface, through the method the route calls. *)
Record RuntimePlugin := {
  sendMessage : RuntimeHandle -> string -> Completion unit
}.

(** What [getServices()] resolves to. [registry_get slot name] is the
    registry's [get]: an instance, [null], or an exception. *)
Record Services := {
  sessionManager_get : string -> Completion (option Session);
  services_projects : gmap string ProjectConfig;
  registry_get : string -> string -> JsThrown + option RuntimePlugin
}.

Inductive Body :=
  | ErrorBody (error : string)
  | SuccessBody.

(** [NextResponse.json(body, { status })] *)
Record Response := { status : Z; body : Body }.

Definition json (b : Body) (st : Z) : Response := {| status := st; body := b |}.

(** The request: the route parameter, the [message] field of the parsed
    body, and the services; each may fail to be obtained. *)
Record Request := {
  params_id : Completion string;
  request_message : Completion (option string);
  getServices : Completion Services
}.

(** The body of the outer [try]. *)
Definition handle (request : Request) : Completion Response :=
  cbind (params_id request) (fun id =>
  cbind (request_message request) (fun message =>
  if negb (truthyOpt message) then Returned (json (ErrorBody "Missing message") 400)
  else
  cbind (getServices request) (fun services =>
  cbind (sessionManager_get services id) (fun session =>
  match session with
  | None => Returned (json (ErrorBody "Session not found") 404)
  | Some session =>
      match runtimeHandle session with
      | None => Returned (json (ErrorBody "Session has no runtime handle") 400)
      | Some runtimeHandle =>
          match property (services_projects services !! projectId session)
                  (projectId session) with
          | Absent => Returned (json (ErrorBody "Project not found") 404)
          | Inherited =>
              Returned (json (ErrorBody "Project has no runtime configured") 500)
          | Own project =>
              if negb (truthyOpt (project_runtime project))
              then Returned (json (ErrorBody "Project has no runtime configured") 500)
              else
                match registry_get services "runtime"
                        (default EmptyString (project_runtime project)) with
                | inl e => Threw e
                | inr None => Returned (json (ErrorBody "Runtime plugin not found") 500)
                | inr (Some runtime) =>
                    match sendMessage runtime runtimeHandle
                            (default EmptyString message) with
                    | Returned _ => Returned (json SuccessBody 200)
                    | Threw err =>
                        Returned
                          (json (ErrorBody ("Failed to send message: "
                                            +:+ errorMessage err)) 500)
                    | NeverSettles => NeverSettles
                    end
                end
          end
      end
  end)))).

(** [POST]: whatever the body throws becomes a 500 response. *)
Definition POST (request : Request) : Completion Response :=
  match handle request with
  | Threw _ => Returned (json (ErrorBody "Internal server error") 500)
  | other => other
  end.

(** The text of a response that reports an error. *)
Definition errorText (r : Response) : option string :=
  match body r with ErrorBody e => Some e | SuccessBody => None end.

End WebRoute.

(** Pull requests to run the readiness on. *)

Module ScmGithubCases.
Import ScmGithub.

Definition somePR : PRInfo :=
  {| pr_number := 42; pr_url := "https://github.com/acme/app/pull/42";
     pr_title := "Add retries"; pr_owner := "acme"; pr_repo := "app";
     pr_branch := "feat/retries"; pr_baseBranch := "main"; pr_isDraft := false |}.

Definition rawCheck (name : string) (state conclusion : option string) : RawCheck :=
  {| raw_name := name; raw_state := state; raw_conclusion := conclusion;
     raw_detailsUrl := None; raw_startedAt := None; raw_completedAt := None |}.

(** CI green, approved, mergeable, not a draft. *)
Definition readyPR : GitHub :=
  {| gh_pr_checks := fun _ => GhOk [rawCheck "build" (Some "COMPLETED") (Some "SUCCESS")];
     gh_pr_view_mergeability := fun _ =>
       GhOk {| view_mergeable := Some "MERGEABLE";
               view_reviewDecision := Some "APPROVED";
               view_mergeStateStatus := Some "CLEAN";
               view_isDraft := false |} |}.

(** CI red and changes requested. *)
Definition blockedPR : GitHub :=
  {| gh_pr_checks := fun _ =>
       GhOk [rawCheck "build" (Some "COMPLETED") (Some "SUCCESS");
             rawCheck "test" (Some "COMPLETED") (Some "FAILURE")];
     gh_pr_view_mergeability := fun _ =>
       GhOk {| view_mergeable := Some "CONFLICTING";
               view_reviewDecision := Some "CHANGES_REQUESTED";
               view_mergeStateStatus := Some "DIRTY";
               view_isDraft := true |} |}.

(** A pull request for which [gh pr checks] lists nothing. *)
Definition noChecksPR : GitHub :=
  {| gh_pr_checks := fun _ => GhOk [];
     gh_pr_view_mergeability := fun _ =>
       GhOk {| view_mergeable := Some "MERGEABLE";
               view_reviewDecision := Some "REVIEW_REQUIRED";
               view_mergeStateStatus := Some "BLOCKED";
               view_isDraft := false |} |}.

End ScmGithubCases.

(** What the deliveries are measured against, and cases to run them on. *)

Module NotifierWebhookCases.
Import JsString Core NotifierWebhook.

(** What a delivery with retry count [r] and pause [delay] does on a wire
    [w], read off the wire [w'] it leaves and its completion [c]:
    [n] requests were issued, at most [r + 1]; the trace is those [n]
    attempts with one pause of [delay] between consecutive ones; every
    attempt but the last failed; the delivery returns when the last attempt
    was answered ok, throws only after [r + 1] failed attempts, with the
    error of the last one, and stays pending when the last request does. *)
Definition DeliveryWithRetries {A} (net : Network) (req : HttpRequest)
    (r delay : Z) (w : Wire) (res : option (Completion A * Wire)) : Prop :=
  ∃ (c : Completion A) (w' : Wire) (n : nat),
    res = Some (c, w')
    ∧ sent w' = (sent w + n)%nat
    ∧ (1 ≤ n)%nat ∧ Z.of_nat n ≤ r + 1
    ∧ fetches (attemptsTrace req delay n) = n
    ∧ log w' = (log w ++ attemptsTrace req delay n)%list
    ∧ (∀ j, (S j < n)%nat → fails (net (sent w + j)%nat req))
    ∧ match c with
      | Returned _ => succeeds (net (sent w + (n - 1))%nat req)
      | Threw e =>
          Z.of_nat n = r + 1 ∧ failsWith (net (sent w + (n - 1))%nat req) e
      | NeverSettles => net (sent w + (n - 1))%nat req = FetchPending
      end.

Section Payloads.
Variables (event : OrchestratorEvent) (actions : list NotifyAction).
Variables (msg : string) (context : option NotifyContext).

Definition notifyPayload : WebhookPayload :=
  {| wp_type := notification; wp_event := Some (serializeEvent event);
     wp_actions := None; wp_message := None; wp_context := None |}.

Definition actionsPayload : WebhookPayload :=
  {| wp_type := notification_with_actions; wp_event := Some (serializeEvent event);
     wp_actions := Some (serializeAction <$> actions);
     wp_message := None; wp_context := None |}.

Definition messagePayload : WebhookPayload :=
  {| wp_type := message; wp_event := None; wp_actions := None;
     wp_message := Some msg; wp_context := context |}.

End Payloads.

Definition sampleEvent : OrchestratorEvent :=
  {| ev_id := "evt-1"; ev_type := "session.idle"; ev_priority := action;
     ev_sessionId := "app-7"; ev_projectId := "app";
     ev_timestamp := {| toISOString := "2025-01-01T00:00:00.000Z" |};
     ev_message := "Agent is waiting for input"; ev_data := ∅ |}.

(** A url and nothing else: the retry count and the pause are defaults. *)
Definition urlOnly : option WebhookNotifierConfig :=
  Some {| cfg_url := Some "https://hooks.example.test/ao";
          cfg_headers := None; cfg_retries := None; cfg_retryDelayMs := None |}.

(** The first two requests are answered 503, the later ones 200. *)
Definition failsTwice : Network := fun n _ =>
  if (n <? 2)%nat then Response false 503 (inr "busy") else Response true 200 (inr "ok").

(** Every request is answered 500. *)
Definition alwaysFails : Network := fun _ _ => Response false 500 (inr "down").

End NotifierWebhookCases.

(** Notions and cases for the loop of the command. *)

Module NotifyCommandCases.
Import JsString Core CliPlugins NotifyCommand.

(** The plugin looked up for a name: none when [config.notifiers] has
    nothing under the name. *)
Definition pluginFor (config : OrchestratorConfig) (name : string) : option string :=
  plugin <$> notifierConfigAt config name.

(** A plugin module whose notifiers always settle. *)
Definition settling (pluginModule : NotifierModule) : Prop :=
  ∀ options notifier event,
    notifier_create pluginModule options = inr notifier →
    notifier_notify notifier event ≠ NeverSettles.

Definition resolves : Notifier :=
  {| notifier_name := "ok"; notifier_notify := fun _ => Returned tt |}.

Definition rejects (reason : string) : Notifier :=
  {| notifier_name := "down"; notifier_notify := fun _ => Threw (newError reason) |}.

Definition working : NotifierModule := {| notifier_create := fun _ => inr resolves |}.

Definition unreachable : NotifierModule :=
  {| notifier_create := fun _ => inr (rejects "connection refused") |}.

Definition misconfigured : NotifierModule :=
  {| notifier_create := fun _ => inl (newError "invalid config") |}.

Definition someConfig : OrchestratorConfig :=
  {| projects := ∅;
     defaults := {| defaults_agent := "claude-code"; defaults_notifiers := [] |};
     notifiers :=
       <[ "hook" := {| plugin := "webhook"; rest := ∅ |} ]>
       (<[ "chat" := {| plugin := "slack"; rest := ∅ |} ]>
       (<[ "pager" := {| plugin := "pagerduty"; rest := ∅ |} ]>
       (<[ "desk" := {| plugin := "desktop"; rest := ∅ |} ]> ∅)));
     notificationRouting := [("urgent", ["hook"; "chat"; "pager"; "phantom"; "desk"])] |}.

Definition someNames : list string := ["hook"; "chat"; "pager"; "phantom"; "desk"].

Definition epoch : Clock := fun n => 1700000000000 + Z.of_nat n.

End NotifyCommandCases.

(** Handles, sessions and hosts to run the liveness checks on. *)

Module AgentCases.
Import JsString Runtime.

(** The line feed. *)
Definition nl : string := String "010" EmptyString.

Definition tmuxHandle : RuntimeHandle :=
  {| runtimeName := "tmux"; handle_id := "app-7"; data := ∅ |}.

(** A bare process, with its pid in [data]. *)
Definition processHandle (pid : Z) : RuntimeHandle :=
  {| runtimeName := "process"; handle_id := "proc-1";
     data := {[ "pid" := JsNum (JsInteger pid) ]} |}.

Definition sessionOn (handle : option RuntimeHandle) : Session :=
  {| session_id := "app-7"; projectId := "app"; branch := Some "feat/retries";
     runtimeHandle := handle |}.

(** A host given by what [tmux] and [ps] do and by the signal probe; any
    other program fails to start. No pid is given as a string here. *)
Definition hostWith (tmux ps : ChildProcess) (probe : Z -> option JsThrown) : Host :=
  {| run := fun file _ =>
       if bool_decide (file = "tmux") then tmux
       else if bool_decide (file = "ps") then ps
       else Fails (ErrorObj "spawn ENOENT" (Some "ENOENT"));
     probe := probe;
     stringToNumber := fun _ => JsNaN |}.

Definition noSuchProcess : Z -> option JsThrown :=
  fun _ => Some (ErrorObj "kill ESRCH" (Some "ESRCH")).

(** The process exists and belongs to another user. *)
Definition notPermitted : Z -> option JsThrown :=
  fun _ => Some (ErrorObj "kill EPERM" (Some "EPERM")).

Definition psHeader : string := "  PID TTY      ARGS".

(** One pane, with the named agent running on its terminal. *)
Definition agentInPane (command : string) : Host :=
  hostWith (Exits ("/dev/ttys001" +:+ nl))
           (Exits (psHeader +:+ nl +:+ "  311 ttys001  -zsh" +:+ nl
                   +:+ "  412 ttys001  " +:+ command +:+ nl))
           noSuchProcess.

(** One pane, with only a shell on its terminal. *)
Definition shellInPane : Host :=
  hostWith (Exits ("/dev/ttys001" +:+ nl))
           (Exits (psHeader +:+ nl +:+ "  311 ttys001  -zsh" +:+ nl))
           noSuchProcess.

(** Two panes, the agent running in the second one. *)
Definition agentInSecondPane (command : string) : Host :=
  hostWith (Exits ("/dev/ttys001" +:+ nl +:+ "/dev/ttys002" +:+ nl))
           (Exits (psHeader +:+ nl +:+ "  311 ttys001  -zsh" +:+ nl
                   +:+ "  412 ttys002  " +:+ command +:+ nl))
           noSuchProcess.

(** [tmux] does not exit. *)
Definition tmuxStalls : Host :=
  hostWith Stalls (Exits psHeader) noSuchProcess.

(** [tmux] answers and [ps] does not exit. *)
Definition psStalls : Host :=
  hostWith (Exits ("/dev/ttys001" +:+ nl)) Stalls noSuchProcess.

(** No child process at all; signals cannot be sent to others' processes. *)
Definition othersProcess : Host :=
  hostWith (Fails (ErrorObj "no server running" None))
           (Exits psHeader) notPermitted.

(** A call with a time limit of 30 seconds, or one that cannot wait. *)
Definition timeBounded (call : SysCall) : Prop :=
  match call with
  | ExecFile _ _ timeout => timeout = Some 30000
  | ProcessKill _ _ => True
  end.

(** A child process that gives no output: it fails or does not exit. *)
Definition givesNothing (p : ChildProcess) : Prop :=
  match p with Exits _ => False | Fails _ | Stalls => True end.

End AgentCases.

(** What an error message has to tell, and a request to run the route on. *)

Module ResolutionCases.
Import JsString Runtime CliPlugins WebRoute AgentCases.

(** The message contains the word, whatever the case of its letters. *)
Definition mentions (word msg : string) : Prop :=
  includes (toUpperCase word) (toUpperCase msg) = true.

(** A project hosted by a runtime plugin called "docker". *)
Definition dockerProject : ProjectConfig :=
  {| project_name := "app"; project_repo := "acme/app";
     project_agent := None; project_scm := None;
     project_runtime := Some "docker"; project_sessionPrefix := None |}.

(** Services whose registry has no runtime plugin at all. *)
Definition emptyRegistry : Services :=
  {| sessionManager_get := fun id =>
       if bool_decide (id = "app-7")
       then Returned (Some (sessionOn (Some tmuxHandle)))
       else Returned None;
     services_projects := {[ "app" := dockerProject ]};
     registry_get := fun _ _ => inr None |}.

(** Plugin modules that only tell which one they are. *)
Definition agentStub (name : string) : AgentModule string :=
  {| agent_create := fun _ => inr name |}.

Definition scmStub : SCMModule string :=
  {| scm_create := fun _ => inr "github" |}.

Definition notifierStub (name : string) : NotifierModule :=
  {| notifier_create := fun _ =>
       inr {| notifier_name := name; notifier_notify := fun _ => Returned tt |} |}.

(** A configuration naming an agent and an SCM plugin that do not exist. *)
Definition strayConfig : OrchestratorConfig :=
  {| projects :=
       {[ "app" := {| project_name := "app"; project_repo := "acme/app";
                      project_agent := None;
                      project_scm := Some {| scm_plugin := Some "gitlab" |};
                      project_runtime := Some "docker";
                      project_sessionPrefix := None |} ]};
     defaults := {| defaults_agent := "cursor"; defaults_notifiers := [] |};
     notifiers := ∅;
     notificationRouting := [] |}.

Definition dockerRequest : Request :=
  {| params_id := Returned "app-7";
     request_message := Returned (Some "continue");
     getServices := Returned emptyRegistry |}.

End ResolutionCases.

(** ** Shared text utilities of the plugins *)

Module PluginUtils.
Import JsString.

(** [s.replace(/c/g, by)] for a one-character pattern and a replacement
    without [$]. *)
Fixpoint replaceAll (c : ascii) (by_ : string) (s : string) : string :=
  match s with
  | EmptyString => EmptyString
  | String d s' =>
      if decide (d = c) then by_ +:+ replaceAll c by_ s'
      else String d (replaceAll c by_ s')
  end.

(** The single quote, the backslash and the double quote. *)
Definition squote : ascii := "039"%char.
Definition backslash : ascii := "092"%char.
Definition dquoteChar : ascii := "034"%char.

(** The replacement of [shellEscape]: quote, backslash, quote, quote. *)
Definition quoteEscape : string :=
  String squote (String backslash (String squote (String squote EmptyString))).

(** [shellEscape]: the argument between single quotes, each single quote of
    it replaced by the four characters that close the quotes, give an
    escaped quote and open them again. *)
Definition shellEscape (arg : string) : string :=
  String squote EmptyString +:+ replaceAll squote quoteEscape arg
  +:+ String squote EmptyString.

(** [escapeAppleScript]: backslashes doubled, then double quotes preceded
    by a backslash. *)
Definition escapeAppleScript (s : string) : string :=
  replaceAll dquoteChar (String backslash (String dquoteChar EmptyString))
    (replaceAll backslash (String backslash (String backslash EmptyString)) s).

(** [validateUrl]: returns, or throws with the label and the url. *)
Definition validateUrl (url label : string) : JsThrown + unit :=
  if negb (startsWith "https://" url) && negb (startsWith "http://" url)
  then inl (newError ("[" +:+ label +:+ "] Invalid url: must be http(s), got "
                      +:+ dquote +:+ url +:+ dquote))
  else inr tt.

End PluginUtils.

(** ** How a POSIX shell and AppleScript read what the escapes produce *)

Module Readers.
Import JsString PluginUtils.

(** Characters that a shell treats specially outside quotes, other than
    white space, the single quote and the backslash. *)
Definition shellSpecial (c : ascii) : bool :=
  bool_decide (c ∈ [ dquoteChar; "$"; "`"; ";"; "&"; "|"; "<"; ">"; "("; ")";
                     "*"; "?"; "["; "]"; "{"; "}"; "~"; "#"; "!"; "=" ]%char).

Definition finish (cur : option string) : list string :=
  match cur with Some w => [w] | None => [] end.

(** The words of a command line made of plain characters, single-quoted
    text and backslash-escaped characters. [quoted]: inside single quotes;
    [cur]: the word being read, if any. [None] when the line has an open
    quote, a trailing backslash or an unquoted special character. *)
Fixpoint shellWordsGo (quoted : bool) (cur : option string) (s : string)
    : option (list string) :=
  match s with
  | EmptyString => if quoted then None else Some (finish cur)
  | String c s' =>
      let grow d := Some (default EmptyString cur +:+ String d EmptyString) in
      if quoted then
        if decide (c = squote) then shellWordsGo false cur s'
        else shellWordsGo true (grow c) s'
      else if decide (c = squote) then
        shellWordsGo true (Some (default EmptyString cur)) s'
      else if decide (c = backslash) then
        match s' with
        | EmptyString => None
        | String d s'' =>
            if decide (d = "010"%char) then None
            else shellWordsGo false (grow d) s''
        end
      else if Ascii.is_space c then
        (fun rest => (finish cur ++ rest)%list) <$> shellWordsGo false None s'
      else if shellSpecial c then None
      else shellWordsGo false (grow c) s'
  end.

Definition shellWords (line : string) : option (list string) :=
  shellWordsGo false None line.

(** The texts one after the other. *)
Definition joined (texts : list string) : string :=
  foldr String.append EmptyString texts.

(** A text of white space only, the empty text included: white-space
    characters and line terminators, one after the other. *)
Definition whiteSpaceOnly (s : string) : Prop :=
  ∃ characters, Forall (λ w, w ∈ whiteSpace) characters ∧ s = joined characters.

(** A character that stands for itself outside quotes. *)
Definition plainChar (c : ascii) : bool :=
  negb (Ascii.is_space c) && negb (shellSpecial c)
  && negb (bool_decide (c = squote)) && negb (bool_decide (c = backslash)).

(** A word written without quotes: not empty, plain characters only. *)
Fixpoint plainChars (w : string) : bool :=
  match w with
  | EmptyString => true
  | String c w' => plainChar c && plainChars w'
  end.

Definition plainWord (w : string) : bool := truthy w && plainChars w.

(** The text [p], at the start of a word, is read as the word [v]:
    whatever follows it is read with [v] as the word so far. *)
Definition readsAs (p v : string) : Prop :=
  ∀ tail, shellWordsGo false None (p +:+ tail) = shellWordsGo false (Some v) tail.

(** The text of an AppleScript string literal's inside, for the two escapes
    backslash-backslash and backslash-quote; a bare double quote would end
    the literal, a trailing backslash would escape its closing quote, and
    any other escape is not read here. *)
Fixpoint appleScriptText (s : string) : option string :=
  match s with
  | EmptyString => Some EmptyString
  | String c s' =>
      if decide (c = backslash) then
        match s' with
        | EmptyString => None
        | String d s'' =>
            if decide (d = backslash) then String d <$> appleScriptText s''
            else if decide (d = dquoteChar) then String d <$> appleScriptText s''
            else None
        end
      else if decide (c = dquoteChar) then None
      else String c <$> appleScriptText s'
  end.

End Readers.

(** ** Launch commands, environments and terminal activity of the agents *)

Module AgentLaunch.
Import JsString.

Record ProjectRef := { projectConfig_name : string }.

Record AgentLaunchConfig := {
  sessionId : string;
  projectConfig : ProjectRef;
  issueId : option string;
  permissions : option string;
  model : option string;
  prompt : option string;
  systemPrompt : option string;
  systemPromptFile : option string
}.

(** [if (v) parts.push(...)] on an optional string *)
Definition whenSet (v : option string) (f : string -> list string) : list string :=
  match v with
  | Some s => if truthy s then f s else []
  | None => []
  end.

(** [parts.push(...)] under a condition *)
Definition pushIf (b : bool) (items : list string) : list string :=
  if b then items else [].

(** [env[key] = value] *)
Definition setEnv (key value : string) (env : gmap string string) : gmap string string :=
  <[ key := value ]> env.

(** [if (config.issueId) env["AO_ISSUE_ID"] = config.issueId] *)
Definition setIssue (config : AgentLaunchConfig) (env : gmap string string)
    : gmap string string :=
  match issueId config with
  | Some i => if truthy i then setEnv "AO_ISSUE_ID" i env else env
  | None => env
  end.

Definition sampleLaunch : AgentLaunchConfig :=
  {| sessionId := "app-7"; projectConfig := {| projectConfig_name := "app" |};
     issueId := Some "INT-42"; permissions := Some "skip";
     model := Some "gpt-4o";
     prompt := Some ("it's broken; rm -rf $HOME" +:+ String "010" "fix it");
     systemPrompt := None; systemPromptFile := None |}.

End AgentLaunch.

Module AiderLaunch.
Import JsString PluginUtils AgentLaunch.

(** The plugin's own [shellEscape], the same text as the shared one. *)
Definition shellEscape (arg : string) : string :=
  String squote EmptyString +:+ replaceAll squote quoteEscape arg
  +:+ String squote EmptyString.

(** The [parts] of the command, in the order pushed. *)
Definition parts (config : AgentLaunchConfig) : list string :=
  (["aider"]
   ++ pushIf (bool_decide (permissions config = Some "skip")) ["--yes"]
   ++ whenSet (model config) (fun m => ["--model"; shellEscape m])
   ++ whenSet (prompt config) (fun p => ["--message"; shellEscape p]))%list.

Definition getLaunchCommand (config : AgentLaunchConfig) : string :=
  join " " (parts config).

Definition getEnvironment (config : AgentLaunchConfig) : gmap string string :=
  setIssue config
    (setEnv "AO_PROJECT_ID" (projectConfig_name (projectConfig config))
       (setEnv "AO_SESSION_ID" (sessionId config) ∅)).

(** The arguments the shell is expected to hand to aider. *)
Definition argv (config : AgentLaunchConfig) : list string :=
  (["aider"]
   ++ pushIf (bool_decide (permissions config = Some "skip")) ["--yes"]
   ++ whenSet (model config) (fun m => ["--model"; m])
   ++ whenSet (prompt config) (fun p => ["--message"; p]))%list.

End AiderLaunch.

Module CodexLaunch.
Import JsString Runtime PluginUtils AgentLaunch.

(** The [--system-prompt] value for a prompt file: a command substitution
    between double quotes. *)
Definition catFile (file : string) : string :=
  dquote +:+ "$(cat " +:+ shellEscape file +:+ ")" +:+ dquote.

Definition parts (config : AgentLaunchConfig) : list string :=
  (["codex"]
   ++ pushIf (bool_decide (permissions config = Some "skip"))
        ["--approval-mode"; "full-auto"]
   ++ whenSet (model config) (fun m => ["--model"; shellEscape m])
   ++ (if truthyOpt (systemPromptFile config)
       then whenSet (systemPromptFile config) (fun f => ["--system-prompt"; catFile f])
       else whenSet (systemPrompt config) (fun s => ["--system-prompt"; shellEscape s]))
   ++ whenSet (prompt config) (fun p => ["--"; shellEscape p]))%list.

Definition getLaunchCommand (config : AgentLaunchConfig) : string :=
  join " " (parts config).

Definition getEnvironment (config : AgentLaunchConfig) : gmap string string :=
  setIssue config (setEnv "AO_SESSION_ID" (sessionId config) ∅).

(** [detectActivity(terminalOutput)] *)
Definition detectActivity (terminalOutput : string) : ActivityState :=
  if negb (truthy (trim terminalOutput)) then st_idle else st_active.

(** The arguments the shell is expected to hand to codex when no prompt
    file is given. *)
Definition argv (config : AgentLaunchConfig) : list string :=
  (["codex"]
   ++ pushIf (bool_decide (permissions config = Some "skip"))
        ["--approval-mode"; "full-auto"]
   ++ whenSet (model config) (fun m => ["--model"; m])
   ++ whenSet (systemPrompt config) (fun s => ["--system-prompt"; s])
   ++ whenSet (prompt config) (fun p => ["--"; p]))%list.

End CodexLaunch.

Module OpencodeLaunch.
Import JsString Runtime PluginUtils AgentLaunch.

Definition parts (config : AgentLaunchConfig) : list string :=
  (["opencode"]
   ++ whenSet (prompt config) (fun p => ["run"; shellEscape p])
   ++ whenSet (model config) (fun m => ["--model"; shellEscape m]))%list.

Definition getLaunchCommand (config : AgentLaunchConfig) : string :=
  join " " (parts config).

Definition getEnvironment (config : AgentLaunchConfig) : gmap string string :=
  setIssue config (setEnv "AO_SESSION_ID" (sessionId config) ∅).

Definition detectActivity (terminalOutput : string) : ActivityState :=
  if negb (truthy (trim terminalOutput)) then st_idle else st_active.

(** The arguments the shell is expected to hand to opencode. *)
Definition argv (config : AgentLaunchConfig) : list string :=
  (["opencode"]
   ++ whenSet (prompt config) (fun p => ["run"; p])
   ++ whenSet (model config) (fun m => ["--model"; m]))%list.

End OpencodeLaunch.

(** ** The scm-github plugin: pull requests, reviews and comments *)

Module ScmGithubQueries.
Import JsString ScmGithub Runtime CliPlugins.

(** [repoFlag]: the owner and the repository name around a slash. *)
Definition repoFlag (pr : PRInfo) : string := pr_owner pr +:+ "/" +:+ pr_repo pr.

(** An element of the array printed by [gh pr list --json ...]. *)
Record ListedPR := {
  listed_number : Z;
  listed_url : string;
  listed_title : string;
  listed_headRefName : string;
  listed_baseRefName : string;
  listed_isDraft : bool
}.

(** An element of the arrays printed by [gh api repos/.../comments]. The
    [id] is an integer that a JavaScript number holds exactly, as the ids
    of GitHub are: [String(id)] is its decimal text. *)
Record RawComment := {
  comment_id : Z;
  comment_login : option string;
  comment_body : string;
  comment_path : option string;
  comment_line : option Z;
  comment_original_line : option Z;
  comment_in_reply_to_id : option Z;
  comment_created_at : option string;
  comment_html_url : string
}.

(** An element of the array printed by [gh api repos/.../reviews]. *)
Record RawReview := {
  review_id : Z;
  review_login : option string
}.

(** The other queries of the plugin, each with its parsed reply, and the
    two commands whose output is not read, by their arguments. *)
Record Replies := {
  gh_pr_list : string -> string -> GhReply (list ListedPR);
  gh_pr_view_state : PRInfo -> GhReply (option string);
  gh_pr_view_reviewDecision : PRInfo -> GhReply (option string);
  gh_api_comments : PRInfo -> GhReply (list RawComment);
  gh_api_reviews : PRInfo -> GhReply (list RawReview);
  gh_api_review_comments : PRInfo -> Z -> GhReply (list RawComment);
  gh_command : list string -> GhReply unit
}.

(** [detectPR]. The two parts of [project.repo.split("/")] that the
    destructuring reads; a missing second part is [undefined], kept as the
    text that [repoFlag] prints for it. *)
Definition detectPR (gh : Replies) (session : Session) (project : ProjectConfig)
    : option PRInfo :=
  if negb (truthyOpt (branch session)) then None
  else
    let parts := split "/" (project_repo project) in
    let owner := default "undefined" (parts !! 0%nat) in
    let repo := default "undefined" (parts !! 1%nat) in
    match gh_pr_list gh (project_repo project) (default EmptyString (branch session)) with
    | GhFails _ => None
    | GhOk prs =>
        match prs with
        | [] => None
        | pr :: _ =>
            Some {| pr_number := listed_number pr;
                    pr_url := listed_url pr;
                    pr_title := listed_title pr;
                    pr_owner := owner;
                    pr_repo := repo;
                    pr_branch := listed_headRefName pr;
                    pr_baseBranch := listed_baseRefName pr;
                    pr_isDraft := listed_isDraft pr |}
        end
    end.

Inductive PRState := pr_open | pr_merged | pr_closed.

(** [getPRState]: [data.state.toUpperCase()] throws on a missing state. *)
Definition getPRState (gh : Replies) (pr : PRInfo) : Completion PRState :=
  match gh_pr_view_state gh pr with
  | GhFails e => Threw e
  | GhOk None =>
      Threw (ErrorObj "Cannot read properties of undefined (reading 'toUpperCase')" None)
  | GhOk (Some state) =>
      let s := toUpperCase state in
      if bool_decide (s = "MERGED") then Returned pr_merged
      else if bool_decide (s = "CLOSED") then Returned pr_closed
      else Returned pr_open
  end.

Inductive MergeMethod := method_merge | method_squash | method_rebase.

Definition mergeFlag (method : MergeMethod) : string :=
  match method with
  | method_rebase => "--rebase"
  | method_merge => "--merge"
  | method_squash => "--squash"
  end.

(** The arguments of [gh] in [mergePR] and in [closePR]. *)
Definition mergeArgs (pr : PRInfo) (method : MergeMethod) : list string :=
  ["pr"; "merge"; pretty (pr_number pr); "--repo"; repoFlag pr;
   mergeFlag method; "--delete-branch"].

Definition closeArgs (pr : PRInfo) : list string :=
  ["pr"; "close"; pretty (pr_number pr); "--repo"; repoFlag pr].

(** [mergePR]; the method is [squash] when not given. *)
Definition mergePR (gh : Replies) (pr : PRInfo) (method : option MergeMethod)
    : Completion unit :=
  match gh_command gh (mergeArgs pr (default method_squash method)) with
  | GhOk _ => Returned tt
  | GhFails e => Threw e
  end.

Definition closePR (gh : Replies) (pr : PRInfo) : Completion unit :=
  match gh_command gh (closeArgs pr) with
  | GhOk _ => Returned tt
  | GhFails e => Threw e
  end.

Inductive ReviewDecision := rd_approved | rd_changes_requested | rd_pending | rd_none.

Definition getReviewDecision (gh : Replies) (pr : PRInfo) : Completion ReviewDecision :=
  match gh_pr_view_reviewDecision gh pr with
  | GhFails e => Threw e
  | GhOk reviewDecision =>
      let d := toUpperCase (default EmptyString reviewDecision) in
      if bool_decide (d = "APPROVED") then Returned rd_approved
      else if bool_decide (d = "CHANGES_REQUESTED") then Returned rd_changes_requested
      else if bool_decide (d = "REVIEW_REQUIRED") then Returned rd_pending
      else Returned rd_none
  end.

(** [BOT_AUTHORS] *)
Definition BOT_AUTHORS : list string :=
  [ "cursor[bot]"; "github-actions[bot]"; "codecov[bot]"; "sonarcloud[bot]";
    "dependabot[bot]"; "renovate[bot]"; "codeclimate[bot]";
    "deepsource-autofix[bot]"; "snyk-bot"; "lgtm-com[bot]" ].

(** [BOT_AUTHORS.has(login ?? empty)] *)
Definition isBot (login : option string) : bool :=
  bool_decide (default EmptyString login ∈ BOT_AUTHORS).

(** Truthiness of an optional number: [undefined] and 0 are falsy. *)
Definition truthyNum (n : option Z) : bool :=
  match n with Some z => negb (z =? 0) | None => false end.

Record ReviewComment := {
  rc_id : string;
  rc_author : string;
  rc_body : string;
  rc_path : option string;
  rc_line : option Z;
  rc_isResolved : bool;
  rc_createdAt : option string;
  rc_url : string
}.

(** [c.line ?? c.original_line ?? undefined] *)
Definition lineOf (c : RawComment) : option Z :=
  match comment_line c with
  | Some l => Some l
  | None => comment_original_line c
  end.

Definition toReviewComment (c : RawComment) : ReviewComment :=
  {| rc_id := pretty (comment_id c);
     rc_author := default "unknown" (comment_login c);
     rc_body := comment_body c;
     rc_path := orUndefined (comment_path c);
     rc_line := lineOf c;
     rc_isResolved := false;
     rc_createdAt := orUndefined (comment_created_at c);
     rc_url := comment_html_url c |}.

(** [getPendingComments]: the top-level comments that no bot wrote; any
    failure gives the empty list. *)
Definition getPendingComments (gh : Replies) (pr : PRInfo) : list ReviewComment :=
  match gh_api_comments gh pr with
  | GhFails _ => []
  | GhOk comments =>
      toReviewComment <$>
        List.filter (fun c => negb (truthyNum (comment_in_reply_to_id c))
                              && negb (isBot (comment_login c))) comments
  end.

Inductive Severity := sev_error | sev_warning | sev_info.

Definition lowerChar (c : ascii) : ascii :=
  let n := nat_of_ascii c in
  if ((65 <=? n)%nat && (n <=? 90)%nat)%bool then ascii_of_nat (n + 32) else c.

(** [s.toLowerCase()] *)
Fixpoint toLowerCase (s : string) : string :=
  match s with
  | EmptyString => EmptyString
  | String c s' => String (lowerChar c) (toLowerCase s')
  end.

Definition severityOf (body : string) : Severity :=
  let bodyLower := toLowerCase body in
  if includes "error" bodyLower || includes "bug" bodyLower
     || includes "critical" bodyLower || includes "potential issue" bodyLower
  then sev_error
  else if includes "warning" bodyLower || includes "suggest" bodyLower
          || includes "consider" bodyLower
  then sev_warning
  else sev_info.

Record AutomatedComment := {
  ac_id : string;
  ac_botName : string;
  ac_body : string;
  ac_path : option string;
  ac_line : option Z;
  ac_severity : Severity;
  ac_createdAt : option string;
  ac_url : string
}.

Definition toAutomatedComment (c : RawComment) : AutomatedComment :=
  {| ac_id := pretty (comment_id c);
     ac_botName := default "unknown" (comment_login c);
     ac_body := comment_body c;
     ac_path := orUndefined (comment_path c);
     ac_line := lineOf c;
     ac_severity := severityOf (comment_body c);
     ac_createdAt := orUndefined (comment_created_at c);
     ac_url := comment_html_url c |}.

(** The loop over the reviews: the comments of each review by a bot are
    appended; a review whose comments cannot be fetched is passed over. *)
Fixpoint botReviewCommentsOf (gh : Replies) (pr : PRInfo)
    (reviews : list RawReview) (acc : list RawComment) : list RawComment :=
  match reviews with
  | [] => acc
  | review :: reviews' =>
      if negb (isBot (review_login review)) then botReviewCommentsOf gh pr reviews' acc
      else
        match gh_api_review_comments gh pr (review_id review) with
        | GhOk rc => botReviewCommentsOf gh pr reviews' (acc ++ rc)
        | GhFails _ => botReviewCommentsOf gh pr reviews' acc
        end
  end.

(** The filter with the set [seen]: the first comment of each id is kept. *)
Fixpoint uniqueById (seen : list Z) (comments : list RawComment) : list RawComment :=
  match comments with
  | [] => []
  | c :: comments' =>
      if bool_decide (comment_id c ∈ seen) then uniqueById seen comments'
      else c :: uniqueById (comment_id c :: seen) comments'
  end.

(** The comments gathered before the removal of duplicates. *)
Definition allBotComments (gh : Replies) (pr : PRInfo) (comments : list RawComment)
    : list RawComment :=
  let botReviewComments :=
    match gh_api_reviews gh pr with
    | GhOk reviews => botReviewCommentsOf gh pr reviews []
    | GhFails _ => []
    end in
  (List.filter (fun c => isBot (comment_login c)) comments ++ botReviewComments)%list.

Definition getAutomatedComments (gh : Replies) (pr : PRInfo) : list AutomatedComment :=
  match gh_api_comments gh pr with
  | GhFails _ => []
  | GhOk comments =>
      toAutomatedComment <$> uniqueById [] (allBotComments gh pr comments)
  end.

End ScmGithubQueries.

(** Pull requests, sessions and comments to run the queries on. *)

Module ScmQueriesCases.
Import ScmGithub Runtime CliPlugins ScmGithubQueries.

Definition listed (number : Z) (head : string) : ListedPR :=
  {| listed_number := number;
     listed_url := "https://github.com/acme/app/pull/" +:+ pretty number;
     listed_title := "Add retries"; listed_headRefName := head;
     listed_baseRefName := "main"; listed_isDraft := false |}.

Definition pr42 : ListedPR := listed 42 "feat/retries".
Definition pr43 : ListedPR := listed 43 "feat/retries".

Definition onBranch (b : option string) : Session :=
  {| session_id := "app-7"; projectId := "app"; branch := b;
     runtimeHandle := None |}.

Definition acmeApp : ProjectConfig :=
  {| project_name := "app"; project_repo := "acme/app";
     project_agent := None; project_scm := None;
     project_runtime := Some "tmux"; project_sessionPrefix := None |}.

Definition commentBy (id : Z) (login : string) (reply : option Z) (body : string)
    : RawComment :=
  {| comment_id := id; comment_login := Some login; comment_body := body;
     comment_path := Some "src/index.ts"; comment_line := Some 10;
     comment_original_line := None; comment_in_reply_to_id := reply;
     comment_created_at := Some "2025-01-01T00:00:00Z";
     comment_html_url := "https://github.com/acme/app/pull/42#r" +:+ pretty id |}.

(** A GitHub that lists the given pull requests and review comments, with
    one review by a bot whose comments repeat the bot's first comment. *)
Definition replying (prs : list ListedPR) (comments : list RawComment) : Replies :=
  {| gh_pr_list := fun _ _ => GhOk prs;
     gh_pr_view_state := fun _ => GhOk (Some "OPEN");
     gh_pr_view_reviewDecision := fun _ => GhOk (Some "APPROVED");
     gh_api_comments := fun _ => GhOk comments;
     gh_api_reviews := fun _ =>
       GhOk [ {| review_id := 900; review_login := Some "cursor[bot]" |};
              {| review_id := 901; review_login := Some "alice" |} ];
     gh_api_review_comments := fun _ id =>
       if (id =? 900)%Z
       then GhOk (List.filter (fun c => isBot (comment_login c)) comments)
       else GhFails (newError "not found");
     gh_command := fun _ => GhOk tt |}.

(** What [getAutomatedComments] gathers from the comments of the pull
    request: those written by a known bot, and every comment listed under
    a review that a known bot wrote, whoever wrote the comment. *)
Definition gathered (gh : Replies) (pr : PRInfo) (comments : list RawComment)
    (c : RawComment) : Prop :=
  (c ∈ comments ∧ isBot (comment_login c) = true)
  ∨ ∃ reviews review underReview,
      gh_api_reviews gh pr = GhOk reviews
      ∧ review ∈ reviews ∧ isBot (review_login review) = true
      ∧ gh_api_review_comments gh pr (review_id review) = GhOk underReview
      ∧ c ∈ underReview.

(** A GitHub on which a person commented under the review of a bot. *)
Definition underBotReview : Replies :=
  {| gh_pr_list := fun _ _ => GhOk [];
     gh_pr_view_state := fun _ => GhOk (Some "OPEN");
     gh_pr_view_reviewDecision := fun _ => GhOk None;
     gh_api_comments := fun _ =>
       GhOk [ commentBy 7 "cursor[bot]" None "Potential issue here";
              commentBy 8 "alice" (Some 7) "Not an issue" ];
     gh_api_reviews := fun _ =>
       GhOk [ {| review_id := 900; review_login := Some "cursor[bot]" |} ];
     gh_api_review_comments := fun _ _ =>
       GhOk [ commentBy 7 "cursor[bot]" None "Potential issue here";
              commentBy 8 "alice" (Some 7) "Not an issue" ];
     gh_command := fun _ => GhOk tt |}.

Definition someComments : list RawComment :=
  [ commentBy 1 "alice" None "Please rename this";
    commentBy 2 "cursor[bot]" None "Potential issue: unchecked null";
    commentBy 3 "bob" (Some 1) "Agreed";
    commentBy 4 "codecov[bot]" None "Coverage is fine" ].

End ScmQueriesCases.

(** ** The names and the exit status of [ao notify test] *)

Module NotifyAction.
Import JsString JsObject Core CliPlugins NotifyCommand.

(** [names.add(n)] on a [Set]: insertion order, no second copy. *)
Definition setAdd (names : list string) (n : string) : list string :=
  if bool_decide (n ∈ names) then names else names ++ [n].

(** [for (const n of list) names.add(n)] *)
Definition addAll (names : list string) (items : list string) : list string :=
  foldl setAdd names items.

(** The second part of [resolveNotifierNames]: the names of the routing,
    in the order in which [Object.values] lists its entries, and of the
    defaults, or else all configured names. [notifierKeys] is what
    [Object.keys(config.notifiers)] lists: the configured names. *)
Definition collectNames (config : OrchestratorConfig) (notifierKeys : list string)
    : list string :=
  let names := foldl addAll [] (snd <$> ownEntries (notificationRouting config)) in
  let names := addAll names (defaults_notifiers (defaults config)) in
  if (length names =? 0)%nat then addAll names notifierKeys else names.

Definition resolveNotifierNames (config : OrchestratorConfig)
    (notifierKeys : list string) (filterName : option string)
    : JsThrown + list string :=
  if truthyOpt filterName then
    let name := default EmptyString filterName in
    match notifierConfigAt config name with
    | None =>
        inl (newError
               ("Unknown notifier: " +:+ dquote +:+ name +:+ dquote
                +:+ ". Configured notifiers: "
                +:+ (let listed := join ", " notifierKeys in
                     if truthy listed then listed else "(none)")))
    | Some _ => inr [name]
    end
  else inr (collectNames config notifierKeys).

(** [VALID_PRIORITIES.includes(priority)], with the priority it names. *)
Definition priorityOf (text : string) : option EventPriority :=
  if bool_decide (text = "urgent") then Some urgent
  else if bool_decide (text = "action") then Some action
  else if bool_decide (text = "warning") then Some warning
  else if bool_decide (text = "info") then Some info
  else None.

(** How the command ends: [process.exit(code)], or the end of the action. *)
Inductive Ending := Exit (code : Z) | Done.

(** What the action wrote outside the loop. *)
Inductive Notice :=
  | InvalidPriority (text : string)
  | NoConfigFound
  | ResolveError (message : string)
  | NoNotifiersConfigured
  | AllPassed
  | SomeFailed.

Record Report := {
  ending : Ending;
  notices : list Notice;
  lines : list Line
}.

Section Action.
Variables desktopNotifierPlugin slackNotifierPlugin
          webhookNotifierPlugin composioNotifierPlugin : NotifierModule.
Variable clock : Clock.
(** [loadConfig()]: the configuration with what [Object.keys] lists for
    its notifiers, or an exception. *)
Variable loadConfig : JsThrown + (OrchestratorConfig * list string).

(** The action of [notify test] for the options [-n] and [-p]. *)
Definition notifyTest (notifier : option string) (priorityOption : option string)
    : Completion Report :=
  let text := default "action" priorityOption in
  match priorityOf text with
  | None => Returned {| ending := Exit 1; notices := [InvalidPriority text]; lines := [] |}
  | Some priority =>
      match loadConfig with
      | inl _ => Returned {| ending := Exit 1; notices := [NoConfigFound]; lines := [] |}
      | inr (config, notifierKeys) =>
          match resolveNotifierNames config notifierKeys notifier with
          | inl err =>
              Returned {| ending := Exit 1;
                          notices := [ResolveError (errorMessage err)]; lines := [] |}
          | inr notifierNames =>
              if (length notifierNames =? 0)%nat then
                Returned {| ending := Done; notices := [NoNotifiersConfigured];
                            lines := [] |}
              else
                match forEachName desktopNotifierPlugin slackNotifierPlugin
                        webhookNotifierPlugin composioNotifierPlugin clock config
                        priority notifierNames start with
                | (Returned _, r) =>
                    Returned {| ending := Done;
                                notices := [if allPassed r then AllPassed else SomeFailed];
                                lines := console r |}
                | (Threw e, _) => Threw e
                | (NeverSettles, _) => NeverSettles
                end
          end
      end
  end.

End Action.

End NotifyAction.

(** ** The desktop notifier *)

Module NotifierDesktop.
Import JsString Core Runtime PluginUtils.

Record DesktopNotifierConfig := {
  cfg_dashboardUrl : option string;
  cfg_sound : option bool
}.

Definition shouldPlaySound (priority : EventPriority) (soundEnabled : bool) : bool :=
  if negb soundEnabled then false
  else bool_decide (priority = urgent).

Definition formatTitle (event : OrchestratorEvent) : string :=
  let prefix := if bool_decide (ev_priority event = urgent)
                then "URGENT" else "Agent Orchestrator" in
  prefix +:+ " [" +:+ ev_sessionId event +:+ "]".

Definition formatMessage (event : OrchestratorEvent) : string := ev_message event.

Definition formatActionsMessage (event : OrchestratorEvent)
    (actions : list NotifyAction) : string :=
  let actionLabels := join " | " (act_label <$> actions) in
  ev_message event +:+ String "010" (String "010" "Actions: ") +:+ actionLabels.

Definition hexDigit (n : nat) : ascii :=
  ascii_of_nat (if (n <? 10)%nat then 48 + n else 87 + n).

(** One character inside the quotes of [JSON.stringify(text)]. *)
Definition jsonChar (c : ascii) : string :=
  let n := nat_of_ascii c in
  if decide (c = dquoteChar) then String backslash (String dquoteChar EmptyString)
  else if decide (c = backslash) then String backslash (String backslash EmptyString)
  else if (n =? 8)%nat then String backslash "b"
  else if (n =? 9)%nat then String backslash "t"
  else if (n =? 10)%nat then String backslash "n"
  else if (n =? 12)%nat then String backslash "f"
  else if (n =? 13)%nat then String backslash "r"
  else if (n <? 32)%nat then
    String backslash ("u00" +:+ String (hexDigit (n / 16))
                                  (String (hexDigit (n mod 16)) EmptyString))
  else String c EmptyString.

Fixpoint jsonChars (s : string) : string :=
  match s with
  | EmptyString => EmptyString
  | String c s' => jsonChar c +:+ jsonChars s'
  end.

(** [JSON.stringify(text)] for a string *)
Definition jsonStringify (s : string) : string := dquote +:+ jsonChars s +:+ dquote.

(** The [options] of [sendNotification]. *)
Record SendOptions := { opt_sound : bool; opt_url : option string }.

(** The AppleScript of the macOS notification. *)
Definition notificationScript (title message : string) (sound : bool) : string :=
  let soundClause := if sound then " sound name " +:+ dquote +:+ "default" +:+ dquote
                     else EmptyString in
  "display notification " +:+ jsonStringify message +:+ " with title "
  +:+ jsonStringify title +:+ soundClause.

(** [execFile(file, args, callback)] inside the promise: resolved when the
    program exits, rejected with its error, pending while it runs. *)
Definition execFilePromise (host : Host) (file : string) (args : list string)
    : Sys unit :=
  let call := [ExecFile file args None] in
  match run host file args with
  | Exits _ => (Returned tt, call)
  | Fails e => (Threw e, call)
  | Stalls => (NeverSettles, call)
  end.

(** [sendNotification]; [os] is what [platform()] returns. *)
Definition sendNotification (host : Host) (os : string) (title message : string)
    (options : SendOptions) : Sys unit :=
  if bool_decide (os = "darwin") then
    execFilePromise host "osascript"
      ["-e"; notificationScript title message (opt_sound options)]
  else if bool_decide (os = "linux") then
    execFilePromise host "notify-send"
      ([title; message] ++ (if opt_sound options then ["--urgency=critical"] else []))
  else ret tt.

(** The variables captured by the methods of the notifier. *)
Record Notifier := { dashboardUrl : string; soundEnabled : bool }.

Definition create (config : option DesktopNotifierConfig) : Notifier :=
  {| dashboardUrl := default "http://localhost:9847" (config ≫= cfg_dashboardUrl);
     soundEnabled := default true (config ≫= cfg_sound) |}.

Definition sessionUrl (self : Notifier) (event : OrchestratorEvent) : string :=
  dashboardUrl self +:+ "/sessions/" +:+ ev_sessionId event.

Definition notify (host : Host) (os : string) (self : Notifier)
    (event : OrchestratorEvent) : Sys unit :=
  let title := formatTitle event in
  let message := formatMessage event in
  let sound := shouldPlaySound (ev_priority event) (soundEnabled self) in
  sendNotification host os title message
    {| opt_sound := sound; opt_url := Some (sessionUrl self event) |}.

(** [actions.find((a) => a.url)?.url] *)
Definition firstActionUrl (actions : list NotifyAction) : option string :=
  match List.find (fun a => truthyOpt (act_url a)) actions with
  | Some a => act_url a
  | None => None
  end.

Definition notifyWithActions (host : Host) (os : string) (self : Notifier)
    (event : OrchestratorEvent) (actions : list NotifyAction) : Sys unit :=
  let title := formatTitle event in
  let message := formatActionsMessage event actions in
  let sound := shouldPlaySound (ev_priority event) (soundEnabled self) in
  sendNotification host os title message
    {| opt_sound := sound;
       opt_url := Some (default (sessionUrl self event) (firstActionUrl actions)) |}.

(** A text without control characters. *)
Fixpoint printable (s : string) : bool :=
  match s with
  | EmptyString => true
  | String c s' => negb (nat_of_ascii c <? 32)%nat && printable s'
  end.

End NotifierDesktop.

(** ** The project of a session, by the prefix of its name *)

Module ProjectLookup.
Import JsString JsObject CliPlugins.

(** The [for] loop of [findProjectForSession] over the entries. *)
Fixpoint firstWithPrefix (entries : list (string * ProjectConfig))
    (sessionName : string) : option string :=
  match entries with
  | [] => None
  | (id, project) :: entries' =>
      let prefix := orElse (project_sessionPrefix project) id in
      if startsWith (prefix +:+ "-") sessionName then Some id
      else firstWithPrefix entries' sessionName
  end.

(** [findProjectForSession]; [projects] are the own properties of
    [config.projects] in the order of the configuration, which
    [Object.entries] lists with the array indices first. *)
Definition findProjectForSession (projects : list (string * ProjectConfig))
    (sessionName : string) : option string :=
  firstWithPrefix (ownEntries projects) sessionName.

(** The prefix that the session names of a project start with. *)
Definition prefixOf (entry : string * ProjectConfig) : string :=
  orElse (project_sessionPrefix entry.2) entry.1 +:+ "-".

Definition projectNamed (name : string) (prefix : option string) : string * ProjectConfig :=
  (name, {| project_name := name; project_repo := "acme/" +:+ name;
            project_agent := None; project_scm := None; project_runtime := None;
            project_sessionPrefix := prefix |}).

End ProjectLookup.

(** ** Reading the last line of a file backwards

    [readLastLine] of the shared core utilities, for a file that could be
    opened.  The file is the text of its bytes, one character a byte, and
    decoding is the identity: the model is that of ASCII files. *)

Module LastLine.
Import JsString.

Definition newline : ascii := "010".

Definition CHUNK : nat := 4096.

(** The bytes of the file from position [pos] on. *)
Fixpoint skip (pos : nat) (content : string) : string :=
  match pos, content with
  | O, _ => content
  | S _, EmptyString => EmptyString
  | S pos', String _ content' => skip pos' content'
  end.

(** [fh.read(chunk, 0, readSize, pos)] into a fresh buffer of [readSize]
    bytes: the [readSize] bytes at [pos]. *)
Definition readAt (content : string) (readSize pos : nat) : string :=
  String.substring pos readSize content.

(** [Buffer.concat(chunks, totalBytes).toString("utf-8")]: the chunks in
    order, cut at [totalBytes]. *)
Definition bufferConcat (chunks : list string) (totalBytes : nat) : string :=
  String.substring 0 totalBytes (foldr String.append EmptyString chunks).

(** The [for] loop over the lines, from the last one down; [i] is one more
    than the index of the source. *)
Fixpoint scan (i : nat) (lines : list string) (pos : nat) : option string :=
  match i with
  | O => None
  | S i' =>
      let line := trim (nth i' lines EmptyString) in
      if truthy line && ((0 <? i')%nat || (pos =? 0)%nat) then Some line
      else scan i' lines pos
  end.

(** The [while (pos > 0)] loop and the statements after it; [None] when
    the loop is cut after [fuel] rounds. *)
Fixpoint readBack (chunkSize fuel : nat) (content : string)
    (chunks : list string) (totalBytes pos : nat) : option (option string) :=
  if (0 <? pos)%nat then
    match fuel with
    | O => None
    | S fuel' =>
        let readSize := Nat.min chunkSize pos in
        let pos := (pos - readSize)%nat in
        let chunk := readAt content readSize pos in
        let chunks := chunk :: chunks in
        let totalBytes := (totalBytes + readSize)%nat in
        let tail := bufferConcat chunks totalBytes in
        let lines := split newline tail in
        match scan (length lines) lines pos with
        | Some line => Some (Some line)
        | None => readBack chunkSize fuel' content chunks totalBytes pos
        end
    end
  else
    let tail := bufferConcat chunks totalBytes in
    Some (if truthy (trim tail) then Some (trim tail) else None).

Definition readLastLineBy (chunkSize fuel : nat) (content : string)
    : option (option string) :=
  let size := String.length content in
  if (size =? 0)%nat then Some None
  else readBack chunkSize fuel content [] 0 size.

Definition readLastLine (fuel : nat) (content : string) : option (option string) :=
  readLastLineBy CHUNK fuel content.

(** The last of the lines that is not white space only, trimmed. *)
Fixpoint lastNonBlank (lines : list string) : option string :=
  match lines with
  | [] => None
  | line :: rest =>
      match lastNonBlank rest with
      | Some found => Some found
      | None => if truthy (trim line) then Some (trim line) else None
      end
  end.

Definition logText : string :=
  "{type: user}" +:+ String newline ("  {type: assistant}  " +:+ String newline
    (" " +:+ String newline EmptyString)).

End LastLine.

(** * Properties *)

(** ** The string operations on sample texts *)

Module JsStringProps.

Example toUpperCase_mixed :
  JsString.toUpperCase "changes_Requested" = "CHANGES_REQUESTED".
Proof. reflexivity. Qed.

Example trim_lines :
  JsString.split "010" (JsString.trim (" /dev/ttys001" +:+ String "010" ("/dev/ttys002 " +:+ String "010" EmptyString)))
  = ["/dev/ttys001"; "/dev/ttys002"].
Proof. reflexivity. Qed.

Example splitSpaces_ps_line :
  JsString.splitSpaces (JsString.trimStart "  412 ttys001  /usr/bin/aider --yes ")
  = ["412"; "ttys001"; "/usr/bin/aider"; "--yes"; EmptyString].
Proof. reflexivity. Qed.

Example split_empty : JsString.split "010" EmptyString = [EmptyString].
Proof. reflexivity. Qed.

Example processRe_matches_path :
  CoreUtils.processRe_test "codex" "node /usr/local/bin/codex --model o3" = true.
Proof. reflexivity. Qed.

Example processRe_needs_word_end :
  CoreUtils.processRe_test "aider" "vim /home/dev/aider/README.md" = false
  ∧ CoreUtils.processRe_test "aider" "aider-chat --yes" = false
  ∧ CoreUtils.processRe_test "aider" "myaider" = false.
Proof. repeat split; reflexivity. Qed.

End JsStringProps.

(** ** The order in which the properties of an object are listed *)

Module JsObjectProps.
Import JsString JsObject.

#[global] Instance indexLe_total {V} : Total (@indexLe V).
Proof. intros a b. unfold indexLe. lia. Qed.

#[global] Instance indexLe_trans {V} : Transitive (@indexLe V).
Proof. intros a b c. unfold indexLe. lia. Qed.

Lemma filter_halves {A} (p : A -> bool) (l : list A) :
  (List.filter p l ++ List.filter (fun x => negb (p x)) l)%list ≡ₚ l.
Proof.
  induction l as [|x l IH]; [reflexivity|]. cbn [List.filter].
  destruct (p x); cbn [negb app].
  - constructor. exact IH.
  - rewrite <- Permutation_middle. constructor. exact IH.
Qed.

(** [Object.entries] lists every own property once; the array indices come
    first, in ascending order, and the other names keep their order. *)
Lemma ownEntries_order {V} (properties : list (string * V)) :
  ownEntries properties ≡ₚ properties
  ∧ ∃ indices,
      ownEntries properties
      = (indices ++ List.filter (fun e => negb (isArrayIndex e.1)) properties)%list
      ∧ Forall (fun e => isArrayIndex e.1 = true) indices
      ∧ StronglySorted indexLe indices.
Proof.
  unfold ownEntries. split.
  - rewrite merge_sort_Permutation. apply filter_halves.
  - eexists. split; [reflexivity|]. split.
    + rewrite merge_sort_Permutation. apply Forall_forall. intros e He.
      apply list_elem_of_In, filter_In in He as [_ He]. exact He.
    + apply StronglySorted_merge_sort; apply _.
Qed.

(** Names that are no array indices are listed as they were created. *)
Lemma ownEntries_names {V} (properties : list (string * V)) :
  Forall (fun e => isArrayIndex e.1 = false) properties →
  ownEntries properties = properties.
Proof.
  intros Hnames. unfold ownEntries.
  assert (List.filter (fun e : string * V => isArrayIndex e.1) properties = []) as ->.
  { induction Hnames as [|e l He Hl IH]; [reflexivity|].
    cbn [List.filter]. rewrite He. exact IH. }
  cbn. induction Hnames as [|e l He Hl IH]; [reflexivity|].
  cbn [List.filter]. rewrite He. cbn [negb]. f_equal. exact IH.
Qed.

(** The values that [Object.values] lists are those of the properties. *)
Lemma ownEntries_values {V} (properties : list (string * V)) (v : V) :
  v ∈ (snd <$> ownEntries properties) ↔ v ∈ (snd <$> properties).
Proof.
  destruct (ownEntries_order properties) as [Hperm _]. rewrite Hperm. reflexivity.
Qed.

End JsObjectProps.

(** ** Merge readiness *)

Module ScmGithubProps.
Import JsString ScmGithub ScmGithubCases.

Lemma push_app (arr : list string) (x : string) : push arr x = (arr ++ [x])%list.
Proof. reflexivity. Qed.

(** The pushes of [readiness] amount to the concatenation of the four
    independent contributions. *)
Lemma readiness_blockers (data : PRView) (ciStatus : CIStatus) :
  blockers (readiness data ciStatus)
  = (ciBlocker ciStatus ++ reviewBlocker data
     ++ conflictBlocker data ++ draftBlocker data)%list.
Proof.
  unfold readiness, reviewBlocker, conflictBlocker, draftBlocker; simpl.
  destruct ciStatus; simpl;
    repeat case_bool_decide; simpl; destruct (view_isDraft data); simpl;
    rewrite ?push_app; simpl; reflexivity.
Qed.

Lemma readiness_mergeable (data : PRView) (ciStatus : CIStatus) :
  mergeable (readiness data ciStatus) = true
  ↔ blockers (readiness data ciStatus) = [].
Proof.
  unfold readiness; simpl.
  match goal with |- (length ?l =? 0)%nat = true ↔ _ => generalize l end.
  intros l. rewrite Nat.eqb_eq. split.
  - apply nil_length_inv.
  - intros ->. reflexivity.
Qed.

Lemma readiness_ciPassing (data : PRView) (ciStatus : CIStatus) :
  ciPassing (readiness data ciStatus)
  = bool_decide (ciStatus = CI_passing ∨ ciStatus = CI_none).
Proof. destruct ciStatus; reflexivity. Qed.

Lemma ciBlocker_sublist ciStatus :
  ciBlocker ciStatus `sublist_of` ["CI is failing"; "CI is pending"].
Proof.
  destruct ciStatus; simpl.
  - apply sublist_cons, sublist_skip, sublist_nil.
  - apply sublist_nil_l.
  - apply sublist_skip, sublist_nil_l.
  - apply sublist_nil_l.
Qed.

Lemma reviewBlocker_sublist data :
  reviewBlocker data `sublist_of` ["Changes requested in review"; "Review required"].
Proof.
  unfold reviewBlocker. repeat case_bool_decide.
  - apply sublist_skip, sublist_nil_l.
  - apply sublist_cons, sublist_skip, sublist_nil.
  - apply sublist_nil_l.
Qed.

Lemma conflictBlocker_sublist data :
  conflictBlocker data `sublist_of` ["Merge conflicts"].
Proof.
  unfold conflictBlocker. case_bool_decide; [reflexivity | apply sublist_nil_l].
Qed.

Lemma draftBlocker_sublist data :
  draftBlocker data `sublist_of` ["PR is still a draft"].
Proof.
  unfold draftBlocker. destruct (view_isDraft data); [reflexivity | apply sublist_nil_l].
Qed.

Lemma readiness_order (data : PRView) (ciStatus : CIStatus) :
  blockers (readiness data ciStatus) `sublist_of` blockerOrder.
Proof.
  rewrite readiness_blockers.
  change blockerOrder with
    (["CI is failing"; "CI is pending"]
     ++ ["Changes requested in review"; "Review required"]
     ++ ["Merge conflicts"] ++ ["PR is still a draft"])%list.
  repeat apply sublist_app;
    auto using ciBlocker_sublist, reviewBlocker_sublist,
               conflictBlocker_sublist, draftBlocker_sublist.
Qed.

Lemma getCISummary_none (gh : GitHub) (pr : PRInfo) :
  getCISummary gh pr = CI_none ↔ getCIChecks gh pr = [].
Proof.
  unfold getCISummary.
  destruct (getCIChecks gh pr) as [|c checks]; simpl; [tauto|].
  split; [|discriminate].
  repeat match goal with |- context [if ?b then _ else _] => destruct b end;
    discriminate.
Qed.

(** A failed [gh pr checks] counts as no checks at all. *)
Lemma getCISummary_checks_unavailable (gh : GitHub) (pr : PRInfo) e :
  gh_pr_checks gh pr = GhFails e → getCISummary gh pr = CI_none.
Proof.
  intros H. apply getCISummary_none. unfold getCIChecks. rewrite H. reflexivity.
Qed.

(** C1. When the pull request can be read, [getMergeability] returns a
    readiness whose [mergeable] is true exactly when its [blockers] are
    empty; the blockers are the contributions of the CI, review, conflict
    and draft tests in that order (hence a sublist of the fixed order
    "CI is failing"/"CI is pending", "Changes requested in review",
    "Review required", "Merge conflicts", "PR is still a draft"). With CI
    passing, the review decision APPROVED, no CONFLICTING state and no draft
    the result is mergeable with no blockers; with CI failing and the
    decision CHANGES_REQUESTED the blockers start with "CI is failing"
    followed by "Changes requested in review". *)
Theorem getMergeability_blockers_in_order
    (gh : GitHub) (pr : PRInfo) (data : PRView) :
  gh_pr_view_mergeability gh pr = GhOk data →
  ∃ r : MergeReadiness,
    getMergeability gh pr = Returned r
    ∧ (mergeable r = true ↔ blockers r = [])
    ∧ blockers r
      = (ciBlocker (getCISummary gh pr) ++ reviewBlocker data
         ++ conflictBlocker data ++ draftBlocker data)%list
    ∧ blockers r `sublist_of` blockerOrder
    ∧ (getCISummary gh pr = CI_passing →
       toUpperCase (default EmptyString (view_reviewDecision data)) = "APPROVED" →
       toUpperCase (default EmptyString (view_mergeable data)) ≠ "CONFLICTING" →
       view_isDraft data = false →
       mergeable r = true ∧ blockers r = [])
    ∧ (getCISummary gh pr = CI_failing →
       toUpperCase (default EmptyString (view_reviewDecision data)) = "CHANGES_REQUESTED" →
       ∃ others, blockers r
                 = "CI is failing" :: "Changes requested in review" :: others).
Proof.
  intros Hview. unfold getMergeability. rewrite Hview.
  eexists. split; [reflexivity|].
  split; [apply readiness_mergeable|].
  split; [apply readiness_blockers|].
  split; [apply readiness_order|].
  split.
  - intros Hci Hrev Hconf Hdraft.
    assert (blockers (readiness data (getCISummary gh pr)) = []) as Hnil.
    { rewrite readiness_blockers, Hci.
      unfold reviewBlocker, conflictBlocker, draftBlocker.
      rewrite Hrev, Hdraft. rewrite (bool_decide_eq_false_2 _ Hconf).
      reflexivity. }
    split; [apply readiness_mergeable|]; exact Hnil.
  - intros Hci Hrev. rewrite readiness_blockers, Hci.
    unfold reviewBlocker. rewrite Hrev. simpl. eauto.
Qed.

Lemma getMergeability_blockers_in_order_witness :
  (∃ r, getMergeability readyPR somePR = Returned r
        ∧ mergeable r = true ∧ blockers r = [])
  ∧ (∃ r others, getMergeability blockedPR somePR = Returned r
        ∧ blockers r = "CI is failing" :: "Changes requested in review" :: others).
Proof.
  split.
  - destruct (getMergeability_blockers_in_order readyPR somePR _ eq_refl)
      as (r & Hr & _ & _ & _ & Hready & _).
    exists r. split; [exact Hr|].
    apply Hready; [reflexivity | reflexivity | discriminate | reflexivity].
  - destruct (getMergeability_blockers_in_order blockedPR somePR _ eq_refl)
      as (r & Hr & _ & _ & _ & _ & Hblocked).
    destruct Hblocked as [others Ho]; [reflexivity | reflexivity |].
    exists r, others. split; [exact Hr | exact Ho].
Defined.

Example getMergeability_blocked :
  getMergeability blockedPR somePR
  = Returned {| mergeable := false; ciPassing := false; approved := false;
                noConflicts := false;
                blockers := ["CI is failing"; "Changes requested in review";
                             "Merge conflicts"; "PR is still a draft"] |}.
Proof. reflexivity. Qed.

Lemma ciBlocker_text (ciStatus : CIStatus) :
  ciStatus = CI_failing ∨ ciStatus = CI_pending →
  ciBlocker ciStatus = ["CI is " +:+ CIStatus_text ciStatus].
Proof. intros [-> | ->]; reflexivity. Qed.

(** None of the review, conflict and draft reasons reads "CI is ...". *)
Lemma other_blockers_not_ci (data : PRView) (b : string) :
  b ∈ (reviewBlocker data ++ conflictBlocker data ++ draftBlocker data)%list →
  startsWith "CI is " b = false.
Proof.
  unfold reviewBlocker, conflictBlocker, draftBlocker.
  repeat case_bool_decide; destruct (view_isDraft data); simpl;
    rewrite ?elem_of_cons, elem_of_nil; intros Hin;
    repeat (destruct Hin as [-> | Hin]; [reflexivity|]); destruct Hin.
Qed.

(** C8. A pull request without CI checks has the summary "none", which
    [getMergeability] counts as passing: [ciPassing] is true and no blocker
    reads "CI is ..."; a blocker "CI is <status>" is present exactly when
    the summary is "failing" or "pending", and it carries that status. *)
Theorem getMergeability_ci_none_passes
    (gh : GitHub) (pr : PRInfo) (data : PRView) :
  gh_pr_view_mergeability gh pr = GhOk data →
  ∃ r : MergeReadiness,
    getMergeability gh pr = Returned r
    ∧ (getCIChecks gh pr = [] ↔ getCISummary gh pr = CI_none)
    ∧ (getCISummary gh pr = CI_none →
       ciPassing r = true
       ∧ ∀ b, b ∈ blockers r → startsWith "CI is " b = false)
    ∧ (ciPassing r = false
       ↔ getCISummary gh pr = CI_failing ∨ getCISummary gh pr = CI_pending)
    ∧ ((∃ b, b ∈ blockers r ∧ startsWith "CI is " b = true)
       ↔ getCISummary gh pr = CI_failing ∨ getCISummary gh pr = CI_pending)
    ∧ (∀ b, b ∈ blockers r → startsWith "CI is " b = true →
       b = "CI is " +:+ CIStatus_text (getCISummary gh pr)).
Proof.
  intros Hview. unfold getMergeability. rewrite Hview.
  eexists. split; [reflexivity|].
  split; [symmetry; apply getCISummary_none|].
  rewrite readiness_blockers, readiness_ciPassing.
  generalize (getCISummary gh pr) as ci. intros ci.
  assert (∀ b, b ∈ (ciBlocker ci ++ reviewBlocker data
                    ++ conflictBlocker data ++ draftBlocker data)%list →
               startsWith "CI is " b = true →
               (ci = CI_failing ∨ ci = CI_pending)
               ∧ b = "CI is " +:+ CIStatus_text ci) as Hci.
  { intros b [Hb | Hb]%elem_of_app Hstart.
    - destruct ci; simpl in Hb;
        try (apply elem_of_nil in Hb; contradiction);
        apply list_elem_of_singleton in Hb as ->; auto.
    - rewrite (other_blockers_not_ci data b Hb) in Hstart. discriminate. }
  split; [|split; [|split]].
  - intros ->. split; [reflexivity|].
    intros b Hb. destruct (startsWith "CI is " b) eqn:Hstart; [|reflexivity].
    destruct (Hci b Hb Hstart) as [[? | ?] _]; discriminate.
  - destruct ci; simpl; split; intros H; try discriminate; auto;
      destruct H; discriminate.
  - split.
    + intros (b & Hb & Hstart). apply (Hci b Hb Hstart).
    + intros H. exists ("CI is " +:+ CIStatus_text ci). split.
      * rewrite (ciBlocker_text ci H). apply elem_of_app. left. apply list_elem_of_here.
      * destruct H as [-> | ->]; reflexivity.
  - intros b Hb Hstart. apply (Hci b Hb Hstart).
Qed.

Lemma getMergeability_ci_none_passes_witness :
  ∃ r, getMergeability noChecksPR somePR = Returned r
       ∧ ciPassing r = true
       ∧ ∀ b, b ∈ blockers r → startsWith "CI is " b = false.
Proof.
  destruct (getMergeability_ci_none_passes noChecksPR somePR _ eq_refl)
    as (r & Hr & _ & Hnone & _).
  exists r. split; [exact Hr|]. apply Hnone. reflexivity.
Defined.

Example getMergeability_no_checks :
  getMergeability noChecksPR somePR
  = Returned {| mergeable := false; ciPassing := true; approved := false;
                noConflicts := true; blockers := ["Review required"] |}.
Proof. reflexivity. Qed.

End ScmGithubProps.

(** ** Webhook delivery *)

Module NotifierWebhookProps.
Import JsString Core NotifierWebhook NotifierWebhookCases.

Lemma attemptError_pending reply : attemptError reply = None → reply = FetchPending.
Proof. destruct reply as [[] ? []| |]; simpl; congruence. Qed.

(** An attempt returns exactly for a request that succeeds. *)
Lemma attemptError_returns (reply : HttpReply) :
  attemptError reply = Some None ↔ succeeds reply.
Proof.
  unfold succeeds. destruct reply as [[] status text|e|]; cbn [attemptError].
  - split; [eauto | reflexivity].
  - destruct text; (split; [discriminate | intros (st & tx & [=])]).
  - split; [discriminate | intros (st & tx & [=])].
  - split; [discriminate | intros (st & tx & [=])].
Qed.

Lemma asError_leaves (thrown err : JsThrown) :
  asError thrown = err
  ↔ (∃ message code, thrown = ErrorObj message code ∧ err = thrown)
    ∨ ((∀ message code, thrown ≠ ErrorObj message code)
       ∧ err = ErrorObj (errorMessage thrown) None).
Proof.
  destruct thrown as [m c| |s]; cbn [asError]; unfold newError.
  - split.
    + intros <-. left. eauto.
    + intros [(m' & c' & _ & ->) | [Hnot _]]; [reflexivity|]. destruct (Hnot m c eq_refl).
  - split.
    + intros <-. right. split; [discriminate | reflexivity].
    + intros [(m' & c' & [=] & _) | [_ ->]]. reflexivity.
  - split.
    + intros <-. right. split; [discriminate | reflexivity].
    + intros [(m' & c' & [=] & _) | [_ ->]]. reflexivity.
Qed.

(** The value that an attempt leaves in [lastError] is the error of a
    request that fails, and only that. *)
Lemma attemptError_leaves (reply : HttpReply) (err : JsThrown) :
  attemptError reply = Some (Some err) ↔ failsWith reply err.
Proof.
  split.
  - destruct reply as [[] status [thrown|body]|thrown|]; cbn [attemptError];
      try discriminate; intros [= Herr].
    + apply asError_leaves in Herr as [(m & c & -> & ->) | [Hnot ->]];
        [apply fails_body | apply fails_body_value, Hnot].
    + subst err. apply fails_status.
    + apply asError_leaves in Herr as [(m & c & -> & ->) | [Hnot ->]];
        [apply fails_rejected | apply fails_rejected_value, Hnot].
  - intros [status body|status m c|status thrown Hnot|m c|thrown Hnot];
      cbn [attemptError]; try reflexivity.
    + do 2 f_equal. apply asError_leaves. right. auto.
    + do 2 f_equal. apply asError_leaves. right. auto.
Qed.

Lemma fetches_attemptsTrace req delay n : fetches (attemptsTrace req delay n) = n.
Proof.
  unfold fetches. induction n as [|[|n] IH]; simpl in *; auto.
Qed.

Lemma attemptsTrace_step req delay n :
  (0 < n)%nat →
  attemptsTrace req delay (S n)
  = Fetch req :: SetTimeout delay :: attemptsTrace req delay n.
Proof. destruct n; [lia | reflexivity]. Qed.

Section Loop.
Variable net : Network.
Variables (target : string) (payload : WebhookPayload) (headers : gmap string string).
Variables (r delay : Z).

Let req := request target payload headers.
Let loop := retryLoop net target payload headers r delay.

(** The loop from the test of its condition with [m] attempts left. *)
Lemma retryLoop_remaining (m : nat) :
  ∀ (fuel : nat) (attempt : Z) (lastError : option JsThrown) (w : Wire),
    attempt + Z.of_nat m = r + 1 →
    (m < fuel)%nat →
    ∃ (c : Completion unit) (w' : Wire) (n : nat),
      loop fuel attempt lastError w = Some (c, w')
      ∧ sent w' = (sent w + n)%nat
      ∧ (n ≤ m)%nat ∧ ((0 < m)%nat → (0 < n)%nat)
      ∧ log w' = (log w ++ attemptsTrace req delay n)%list
      ∧ (∀ j, (S j < n)%nat → fails (net (sent w + j)%nat req))
      ∧ match c with
        | Returned _ =>
            (0 < n)%nat ∧ succeeds (net (sent w + (n - 1))%nat req)
        | Threw e =>
            n = m
            ∧ match n with
              | O => e = default ThrownUndefined lastError
              | S k => failsWith (net (sent w + k)%nat req) e
              end
        | NeverSettles =>
            (0 < n)%nat ∧ net (sent w + (n - 1))%nat req = FetchPending
        end.
Proof.
  induction m as [|m IH]; intros fuel attempt lastError w Hleft Hfuel.
  - destruct fuel as [|fuel]; [lia|]. simpl.
    assert ((attempt <=? r) = false) as -> by lia.
    exists (throwLast lastError), w, 0%nat. simpl.
    rewrite Nat.add_0_r, app_nil_r.
    repeat split; auto; try lia; try (intros; lia).
  - destruct fuel as [|fuel]; [lia|]. simpl.
    assert ((attempt <=? r) = true) as -> by lia.
    fold req. fold loop.
    destruct (attemptError (net (sent w) req)) as [[err|]|] eqn:Hreply.
    + set (w1 := if attempt <? r then recordTimeout delay (recordFetch req w)
                 else recordFetch req w).
      assert (sent w1 = S (sent w)) as Hsent
        by (subst w1; destruct (attempt <? r); reflexivity).
      destruct (IH fuel (attempt + 1) (Some err) w1)
        as (c & w' & n & Hrun & Hsent' & Hle & Hpos & Hlog & Hfail & Hend);
        [lia | lia |].
      exists c, w', (S n). rewrite Hrun, Hsent', Hsent.
      split; [reflexivity|]. split; [lia|]. split; [lia|]. split; [lia|].
      split; [|split].
      * rewrite Hlog. subst w1. destruct (attempt <? r) eqn:Hlast.
        -- rewrite attemptsTrace_step by (apply Hpos; lia).
           simpl. rewrite <- !app_assoc. reflexivity.
        -- assert (n = 0%nat) as -> by lia. simpl.
           rewrite app_nil_r. reflexivity.
      * intros [|j] Hj.
        -- rewrite Nat.add_0_r. exists err. apply attemptError_leaves, Hreply.
        -- replace (sent w + S j)%nat with (S (sent w) + j)%nat by lia.
           rewrite <- Hsent. apply Hfail. lia.
      * rewrite Hsent in Hend. destruct c as [[]|e|].
        -- destruct Hend as [Hn Hok]. split; [lia|].
           replace (sent w + (S n - 1))%nat with (S (sent w) + (n - 1))%nat by lia.
           exact Hok.
        -- destruct Hend as [-> Herr]. split; [reflexivity|].
           destruct m as [|k]; simpl in Herr.
           ++ subst e. rewrite Nat.add_0_r. apply attemptError_leaves, Hreply.
           ++ replace (sent w + S k)%nat with (S (sent w) + k)%nat by lia.
              exact Herr.
        -- destruct Hend as [Hn Hpend]. split; [lia|].
           replace (sent w + (S n - 1))%nat with (S (sent w) + (n - 1))%nat by lia.
           exact Hpend.
    + exists (Returned tt), (recordFetch req w), 1%nat. simpl.
      rewrite Nat.add_0_r. apply attemptError_returns in Hreply.
      repeat split; auto; try lia; try (intros; lia).
    + exists NeverSettles, (recordFetch req w), 1%nat. simpl.
      rewrite Nat.add_0_r.
      repeat split; auto using attemptError_pending; try lia; try (intros; lia).
Qed.

(** [postWithRetry] always completes the loop: the fuel it is given is
    enough, and for a retry count that is not negative the delivery is one
    with retries. *)
Lemma postWithRetry_delivery (w : Wire) :
  0 ≤ r →
  DeliveryWithRetries net req r delay w
    (postWithRetry net target payload headers r delay w).
Proof.
  intros Hr. unfold postWithRetry.
  destruct (retryLoop_remaining (Z.to_nat (r + 1)) (S (Z.to_nat (r + 1))) 0 None w)
    as (c & w' & n & Hrun & Hsent & Hle & Hpos & Hlog & Hfail & Hend);
    [lia | lia |].
  exists c, w', n. fold loop. rewrite Hrun.
  assert (0 < n)%nat as Hn by (apply Hpos; lia).
  split; [reflexivity|]. split; [exact Hsent|]. split; [lia|]. split; [lia|].
  split; [apply fetches_attemptsTrace|]. split; [exact Hlog|]. split; [exact Hfail|].
  destruct c as [[]|e|].
  - apply Hend.
  - destruct Hend as [-> Herr]. split; [lia|].
    destruct (Z.to_nat (r + 1)) as [|k]; [lia|].
    replace (S k - 1)%nat with k by lia. exact Herr.
  - apply Hend.
Qed.

(** With a negative retry count the loop body never runs: nothing is sent
    and [undefined] is thrown. *)
Lemma postWithRetry_negative (w : Wire) :
  r < 0 →
  postWithRetry net target payload headers r delay w
  = Some (Threw ThrownUndefined, w).
Proof.
  intros Hr. unfold postWithRetry. simpl.
  assert ((0 <=? r) = false) as -> by lia. reflexivity.
Qed.

End Loop.

(** [post] completes as the delivery does, with [null] for its value. *)
Lemma delivery_then_null (net : Network) (req : HttpRequest) (r delay : Z)
    (w : Wire) (res : option (Completion unit * Wire)) :
  DeliveryWithRetries net req r delay w res →
  DeliveryWithRetries net req r delay w
    (match res with
     | Some (c, w') => Some (cbind c (fun _ => Returned (@None string)), w')
     | None => None
     end).
Proof.
  intros (c & w' & n & -> & Hsent & Hn1 & Hn2 & Hcount & Hlog & Hfail & Hend).
  exists (cbind c (fun _ => Returned None)), w', n.
  repeat (split; [assumption || reflexivity|]).
  destruct c; exact Hend.
Qed.

(** A delivery returns at the first request that is answered ok. *)
Lemma delivery_returns_at_first_ok {A} (net : Network) (req : HttpRequest)
    (r delay : Z) (w : Wire) (res : option (Completion A * Wire)) (k : nat) :
  DeliveryWithRetries net req r delay w res →
  Z.of_nat k ≤ r →
  (∀ j, (j < k)%nat → fails (net (sent w + j)%nat req)) →
  succeeds (net (sent w + k)%nat req) →
  ∃ a w', res = Some (Returned a, w') ∧ sent w' = (sent w + S k)%nat.
Proof.
  intros (c & w' & n & -> & Hsent & Hn1 & Hn2 & _ & _ & Hfail & Hend) Hk Hbefore Hok.
  assert (n = S k) as ->.
  { destruct (lt_eq_lt_dec (n - 1) k) as [[Hlt | Heq] | Hgt]; [|lia|].
    - destruct (Hbefore (n - 1)%nat Hlt) as [err Herr].
      apply attemptError_leaves in Herr.
      destruct c as [a|e|].
      + apply attemptError_returns in Hend. congruence.
      + lia.
      + rewrite Hend in Herr. discriminate.
    - destruct (Hfail k) as [err Herr]; [lia|].
      apply attemptError_leaves in Herr. apply attemptError_returns in Hok.
      congruence. }
  replace (S k - 1)%nat with k in Hend by lia.
  apply attemptError_returns in Hok. destruct c as [a|e|].
  - eauto.
  - destruct Hend as [_ Herr]. apply attemptError_leaves in Herr. congruence.
  - rewrite Hend in Hok. discriminate.
Qed.

(** A delivery whose [r + 1] requests all fail throws the last error. *)
Lemma delivery_throws_last_error {A} (net : Network) (req : HttpRequest)
    (r delay : Z) (w : Wire) (res : option (Completion A * Wire)) (err : JsThrown) :
  DeliveryWithRetries net req r delay w res →
  (∀ j, Z.of_nat j ≤ r → fails (net (sent w + j)%nat req)) →
  failsWith (net (sent w + Z.to_nat r)%nat req) err →
  ∃ w', res = Some (Threw err, w') ∧ sent w' = (sent w + Z.to_nat (r + 1))%nat.
Proof.
  intros (c & w' & n & -> & Hsent & Hn1 & Hn2 & _ & _ & _ & Hend) Hall Hlast.
  destruct (Hall (n - 1)%nat) as [e He]; [lia|].
  apply attemptError_leaves in He, Hlast.
  destruct c as [a|e'|].
  - apply attemptError_returns in Hend. congruence.
  - destruct Hend as [Hn Herr]. apply attemptError_leaves in Herr. exists w'.
    replace (Z.to_nat r) with (n - 1)%nat in Hlast by lia.
    replace (Z.to_nat (r + 1)) with n by lia.
    split; [|exact Hsent]. congruence.
  - rewrite Hend in He. discriminate.
Qed.

(** C2. A webhook notifier takes its retry count from the configuration,
    2 when there is none, and its pause from [retryDelayMs], 1000 when there
    is none. With a url and a retry count [r] that is not negative, each of
    [notify], [notifyWithActions] and [post] is a delivery with retries:
    at most [r + 1] requests, one pause of [retryDelayMs] between
    consecutive requests, success at the first request answered ok, and an
    exception only after [r + 1] failed requests, which is the error of the
    last of them. So [notify] returns after [k + 1] requests when the
    first [k] fail, [k] being at most [r], and the next is answered ok; and
    it throws the error of the last request when all [r + 1] fail. *)
Theorem webhook_delivery_retries
    (net : Network) (config : option WebhookNotifierConfig) (target : string)
    (event : OrchestratorEvent) (actions : list NotifyAction)
    (msg : string) (context : option NotifyContext) (w : Wire) :
  let self := (create config).1 in
  url self = Some target →
  truthy target = true →
  0 ≤ retries self →
  retries self = default 2 (config ≫= cfg_retries)
  ∧ retryDelayMs self = default 1000 (config ≫= cfg_retryDelayMs)
  ∧ DeliveryWithRetries net
      (request target (notifyPayload event) (customHeaders self))
      (retries self) (retryDelayMs self) w
      (notify net self event w)
  ∧ DeliveryWithRetries net
      (request target (actionsPayload event actions) (customHeaders self))
      (retries self) (retryDelayMs self) w
      (notifyWithActions net self event actions w)
  ∧ DeliveryWithRetries net
      (request target (messagePayload msg context) (customHeaders self))
      (retries self) (retryDelayMs self) w
      (post net self msg context w)
  ∧ (∀ k : nat,
       Z.of_nat k ≤ retries self →
       (∀ j, (j < k)%nat →
          fails (net (sent w + j)%nat
                   (request target (notifyPayload event) (customHeaders self)))) →
       succeeds (net (sent w + k)%nat
                   (request target (notifyPayload event) (customHeaders self))) →
       ∃ w', notify net self event w = Some (Returned tt, w')
             ∧ sent w' = (sent w + S k)%nat)
  ∧ (∀ err : JsThrown,
       (∀ j, Z.of_nat j ≤ retries self →
          fails (net (sent w + j)%nat
                   (request target (notifyPayload event) (customHeaders self)))) →
       failsWith (net (sent w + Z.to_nat (retries self))%nat
                    (request target (notifyPayload event) (customHeaders self))) err →
       ∃ w', notify net self event w = Some (Threw err, w')
             ∧ sent w' = (sent w + Z.to_nat (retries self + 1))%nat).
Proof.
  intros self Hurl Htruthy Hretries.
  split; [reflexivity|]. split; [reflexivity|].
  assert (DeliveryWithRetries net
            (request target (notifyPayload event) (customHeaders self))
            (retries self) (retryDelayMs self) w (notify net self event w)) as Hnotify.
  { unfold notify, deliver. rewrite Hurl, Htruthy. simpl.
    apply postWithRetry_delivery, Hretries. }
  split; [exact Hnotify|].
  unfold notifyWithActions, post, deliver.
  rewrite Hurl, Htruthy. simpl.
  split; [|split; [|split]].
  - apply postWithRetry_delivery, Hretries.
  - apply delivery_then_null, postWithRetry_delivery, Hretries.
  - intros k Hk Hbefore Hok.
    destruct (delivery_returns_at_first_ok _ _ _ _ _ _ k Hnotify Hk Hbefore Hok)
      as ([] & w' & Hrun & Hsent). eauto.
  - intros err Hall Hlast.
    exact (delivery_throws_last_error _ _ _ _ _ _ err Hnotify Hall Hlast).
Qed.

Lemma webhook_delivery_retries_witness :
  let self := (create urlOnly).1 in
  let req := request "https://hooks.example.test/ao" (notifyPayload sampleEvent)
               (customHeaders self) in
  retries self = 2 ∧ retryDelayMs self = 1000
  ∧ DeliveryWithRetries failsTwice req 2 1000 idle (notify failsTwice self sampleEvent idle)
  ∧ (∃ w', notify failsTwice self sampleEvent idle = Some (Returned tt, w')
           ∧ sent w' = 3%nat)
  ∧ (∃ w', notify alwaysFails self sampleEvent idle
           = Some (Threw (newError "Webhook POST failed (500): down"), w')
           ∧ sent w' = 3%nat)
  ∧ log (default idle (snd <$> notify failsTwice self sampleEvent idle))
    = [Fetch req; SetTimeout 1000; Fetch req; SetTimeout 1000; Fetch req].
Proof.
  intros self req.
  destruct (webhook_delivery_retries failsTwice urlOnly
              "https://hooks.example.test/ao" sampleEvent [] "hello" None idle)
    as (Hr & Hd & Hnotify & _ & _ & Hok & _); [reflexivity | reflexivity | simpl; lia |].
  destruct (webhook_delivery_retries alwaysFails urlOnly
              "https://hooks.example.test/ao" sampleEvent [] "hello" None idle)
    as (_ & _ & _ & _ & _ & _ & Hthrows); [reflexivity | reflexivity | simpl; lia |].
  split; [exact Hr|]. split; [exact Hd|]. split; [exact Hnotify|].
  split; [|split; [|reflexivity]].
  - apply (Hok 2%nat); [simpl; lia | | exists 200, (inr "ok"); reflexivity].
    intros j Hj. exists (newError "Webhook POST failed (503): busy").
    destruct j as [|[|j]]; [apply fails_status | apply fails_status | lia].
  - apply (Hthrows (newError "Webhook POST failed (500): down")).
    + intros j _. eexists. apply fails_status.
    + apply fails_status.
Defined.

(** With the default two retries, two failures and then an ok answer is a
    success after three requests and two pauses of 1000 ms. *)
Example notify_succeeds_on_third_attempt :
  let self := (create urlOnly).1 in
  let req := request "https://hooks.example.test/ao" (notifyPayload sampleEvent)
               (customHeaders self) in
  notify failsTwice self sampleEvent idle
  = Some (Returned tt,
          {| sent := 3;
             log := [Fetch req; SetTimeout 1000; Fetch req; SetTimeout 1000; Fetch req] |}).
Proof. reflexivity. Qed.

(** Three failures exhaust the default two retries: the third error is
    raised, and no pause follows the last request. *)
Example notify_fails_after_three_attempts :
  let self := (create urlOnly).1 in
  let req := request "https://hooks.example.test/ao" (notifyPayload sampleEvent)
               (customHeaders self) in
  notify alwaysFails self sampleEvent idle
  = Some (Threw (newError "Webhook POST failed (500): down"),
          {| sent := 3;
             log := [Fetch req; SetTimeout 1000; Fetch req; SetTimeout 1000; Fetch req] |}).
Proof. reflexivity. Qed.

(** C10. A webhook notifier created without a url (no configuration, no
    [url] key, or an empty one) does nothing: [notify] and
    [notifyWithActions] return, and [post] returns [null], each leaving the
    wire as it was, so without any HTTP request, and none raises. *)
Theorem webhook_without_url_is_noop
    (net : Network) (config : option WebhookNotifierConfig)
    (event : OrchestratorEvent) (actions : list NotifyAction)
    (msg : string) (context : option NotifyContext) (w : Wire) :
  truthyOpt (config ≫= cfg_url) = false →
  let self := (create config).1 in
  notify net self event w = Some (Returned tt, w)
  ∧ notifyWithActions net self event actions w = Some (Returned tt, w)
  ∧ post net self msg context w = Some (Returned None, w).
Proof.
  intros Hurl self. unfold notify, notifyWithActions, post.
  change (url self) with (config ≫= cfg_url).
  destruct (config ≫= cfg_url) as [target|]; [|auto].
  simpl in Hurl. rewrite Hurl. auto.
Qed.

Lemma webhook_without_url_is_noop_witness :
  let self := (create None).1 in
  notify alwaysFails self sampleEvent idle = Some (Returned tt, idle)
  ∧ notifyWithActions alwaysFails self sampleEvent [] idle = Some (Returned tt, idle)
  ∧ post alwaysFails self "hello" None idle = Some (Returned None, idle).
Proof.
  apply (webhook_without_url_is_noop alwaysFails None sampleEvent [] "hello" None idle).
  reflexivity.
Defined.

End NotifierWebhookProps.

(** ** The notifiers of [ao notify test] fail one by one *)

Module NotifyCommandProps.
Import JsString Core CliPlugins NotifyCommand NotifyCommandCases.

Lemma lookedUp_app (l k : list Call) : lookedUp (l ++ k) = (lookedUp l ++ lookedUp k)%list.
Proof. apply omap_app. Qed.

Section Loop.
Variables desktopNotifierPlugin slackNotifierPlugin
          webhookNotifierPlugin composioNotifierPlugin : NotifierModule.
Variable clock : Clock.
Variable config : OrchestratorConfig.
Variable priority : EventPriority.

Let getNotifier' :=
  getNotifier desktopNotifierPlugin slackNotifierPlugin
    webhookNotifierPlugin composioNotifierPlugin.
Let forName' :=
  forName desktopNotifierPlugin slackNotifierPlugin
    webhookNotifierPlugin composioNotifierPlugin clock config priority.
Let forEachName' :=
  forEachName desktopNotifierPlugin slackNotifierPlugin
    webhookNotifierPlugin composioNotifierPlugin clock config priority.
Let settles' :=
  settles desktopNotifierPlugin slackNotifierPlugin
    webhookNotifierPlugin composioNotifierPlugin config.
Let outcomeOf' :=
  outcomeOf desktopNotifierPlugin slackNotifierPlugin
    webhookNotifierPlugin composioNotifierPlugin config.

(** One iteration: it completes, writes one line, which tells the outcome
    of this name, and lowers [allPassed] only for a failure. *)
Lemma forName_outcome (name : string) (r : Run) :
  settles' name →
  ∃ (r' : Run) (line : Line),
    forName' name r = (Returned tt, r')
    ∧ console r' = (console r ++ [line])%list
    ∧ outcomeOf' name line
    ∧ lookedUp (calls r') = (lookedUp (calls r) ++ option_list (pluginFor config name))%list
    ∧ allPassed r' = allPassed r && negb (isFailure line).
Proof.
  intros Hsettles.
  unfold forName', forName, outcomeOf', outcomeOf, pluginFor, createNotifier.
  destruct (notifierConfigAt config name) as [notifierConfig|] eqn:Hcfg; simpl.
  - fold getNotifier'.
    destruct (getNotifier' (plugin notifierConfig)) as [err|pluginModule] eqn:Hget.
    + eexists _, (LineFailPlugin name (errorMessage err)).
      split; [reflexivity|]. simpl.
      rewrite lookedUp_app, andb_false_r. auto.
    + destruct (notifier_create pluginModule (rest notifierConfig))
        as [err|notifier] eqn:Hcreate.
      * eexists _, (LineFailPlugin name (errorMessage err)).
        split; [reflexivity|]. simpl.
        rewrite !lookedUp_app, app_nil_r, andb_false_r. auto.
      * unfold testNotifier.
        set (event := makeTestEvent clock priority _).
        pose proof (Hsettles notifierConfig pluginModule notifier event
                      Hcfg Hget Hcreate) as Hnotify.
        destruct (notifier_notify notifier event) as [[]|err|] eqn:Hres;
          [| |congruence].
        -- eexists _, (LineOk name (plugin notifierConfig)).
           split; [reflexivity|]. simpl.
           rewrite !lookedUp_app, !app_nil_r, andb_true_r.
           repeat split; auto. exists event. left. auto.
        -- eexists _, (LineFail name (plugin notifierConfig) (errorMessage err)).
           split; [reflexivity|]. simpl.
           rewrite !lookedUp_app, !app_nil_r, andb_false_r.
           repeat split; auto. exists event. right. exists err. auto.
  - eexists _, (LineSkip name). split; [reflexivity|]. simpl.
    rewrite app_nil_r, andb_true_r. auto.
Qed.

Lemma forEachName_outcomes (names : list string) :
  ∀ r : Run,
    (∀ name, name ∈ names → settles' name) →
    ∃ (r' : Run) (lines : list Line),
      forEachName' names r = (Returned tt, r')
      ∧ console r' = (console r ++ lines)%list
      ∧ Forall2 outcomeOf' names lines
      ∧ lookedUp (calls r') = (lookedUp (calls r) ++ omap (pluginFor config) names)%list
      ∧ allPassed r' = allPassed r && forallb (fun l => negb (isFailure l)) lines.
Proof.
  induction names as [|name names IH]; intros r Hsettle.
  - exists r, []. simpl. rewrite !app_nil_r, andb_true_r.
    repeat split; auto.
  - destruct (forName_outcome name r) as (r1 & line & Hrun & Hcon & Hout & Hcalls & Hpass).
    { apply Hsettle. left. }
    destruct (IH r1) as (r' & lines & Hrun' & Hcon' & Hout' & Hcalls' & Hpass').
    { intros n Hn. apply Hsettle. right. exact Hn. }
    exists r', (line :: lines).
    unfold forEachName', forName' in *. cbn [forEachName].
    rewrite Hrun, Hrun'.
    split; [reflexivity|].
    split; [rewrite Hcon', Hcon, <- app_assoc; reflexivity|].
    split; [constructor; assumption|].
    split.
    + rewrite Hcalls', Hcalls, <- app_assoc. simpl.
      destruct (pluginFor config name); reflexivity.
    + rewrite Hpass', Hpass. simpl. rewrite andb_assoc. reflexivity.
Qed.

End Loop.

Lemma getNotifier_in_table (d s w c : NotifierModule) (name : string)
    (pluginModule : NotifierModule) :
  getNotifier d s w c name = inr pluginModule →
  pluginModule ∈ [d; s; w; c] ∨ pluginModule = memberModule name.
Proof.
  unfold getNotifier, at_key, JsObject.property.
  destruct (_ !! name) as [m|] eqn:Hlookup.
  - intros [= <-]. left. apply elem_of_list_to_map_2 in Hlookup.
    apply (list_elem_of_fmap_2 snd) in Hlookup. exact Hlookup.
  - destruct (JsObject.inherited name); [|discriminate]. intros [= <-]. right.
    reflexivity.
Qed.

(** What stands for a module under an inherited name answers at once. *)
Lemma memberModule_settling (name : string) : settling (memberModule name).
Proof.
  intros options notifier event. unfold memberModule. cbn [notifier_create].
  case_bool_decide; [|discriminate]. intros [= <-]. discriminate.
Qed.

Lemma settles_of_modules (d s w c : NotifierModule)
    (config : OrchestratorConfig) (name : string) :
  Forall settling [d; s; w; c] → settles d s w c config name.
Proof.
  intros Hall notifierConfig pluginModule notifier event _ Hget Hcreate.
  apply getNotifier_in_table in Hget as [Hget | ->].
  - rewrite Forall_forall in Hall.
    exact (Hall pluginModule Hget _ _ event Hcreate).
  - exact (memberModule_settling _ _ _ event Hcreate).
Qed.

(** C3. Given the configured notifier names in order, the loop of
    [ao notify test] runs to its end whatever the notifiers do short of
    never answering: it writes one line per name, in order, each telling the
    outcome of that name alone ([create] throwing and [notify] rejecting
    are FAIL lines, a name without configuration is a skip line); the
    plugin of every configured name is looked up, in order, so a failure
    never stops the attempts for the names after it; and [allPassed] stays
    true exactly when no line is a failure. *)
Theorem notify_test_isolates_failures
    (desktop slack webhook composio : NotifierModule)
    (clock : Clock) (config : OrchestratorConfig) (priority : EventPriority)
    (names : list string) :
  (∀ name, name ∈ names → settles desktop slack webhook composio config name) →
  ∃ (r' : Run),
    forEachName desktop slack webhook composio clock config priority names start
      = (Returned tt, r')
    ∧ length (console r') = length names
    ∧ Forall2 (outcomeOf desktop slack webhook composio config) names (console r')
    ∧ lookedUp (calls r') = omap (pluginFor config) names
    ∧ (allPassed r' = true ↔ ∀ line, line ∈ console r' → isFailure line = false).
Proof.
  intros Hsettle.
  destruct (forEachName_outcomes desktop slack webhook composio clock config
              priority names start Hsettle)
    as (r' & lines & Hrun & Hcon & Hout & Hcalls & Hpass).
  simpl in Hcon, Hcalls, Hpass. subst lines.
  exists r'. split; [exact Hrun|].
  split; [symmetry; apply (Forall2_length _ _ _ Hout)|].
  split; [exact Hout|]. split; [exact Hcalls|].
  rewrite Hpass, forallb_forall. split.
  - intros H line Hin. apply negb_true_iff, H, list_elem_of_In, Hin.
  - intros H line Hin. apply negb_true_iff, H, list_elem_of_In, Hin.
Qed.

Lemma notify_test_isolates_failures_witness :
  ∃ (r' : Run),
    forEachName working unreachable misconfigured working epoch someConfig action
      someNames start = (Returned tt, r')
    ∧ length (console r') = length someNames
    ∧ Forall2 (outcomeOf working unreachable misconfigured working someConfig)
        someNames (console r')
    ∧ lookedUp (calls r') = omap (pluginFor someConfig) someNames
    ∧ (allPassed r' = true ↔ ∀ line, line ∈ console r' → isFailure line = false).
Proof.
  apply (notify_test_isolates_failures working unreachable misconfigured working
           epoch someConfig action someNames).
  intros name _. apply settles_of_modules.
  repeat constructor; intros options notifier event; simpl; intros [= <-];
    discriminate.
Defined.

(** A broken plugin, a rejected delivery, an unknown plugin and a name
    without configuration come before "desk", which is still delivered to. *)
Example notify_test_run :
  let '(c, r') :=
    forEachName working unreachable misconfigured working epoch someConfig action
      someNames start in
  c = Returned tt
  ∧ console r'
    = [ LineFailPlugin "hook" "invalid config";
        LineFail "chat" "slack" "connection refused";
        LineFailPlugin "pager"
          ("Unknown notifier plugin: " +:+ dquote +:+ "pagerduty" +:+ dquote
           +:+ ". Available: desktop, slack, webhook, composio");
        LineSkip "phantom";
        LineOk "desk" "desktop" ]
  ∧ allPassed r' = false
  ∧ lookedUp (calls r') = ["webhook"; "slack"; "pagerduty"; "desktop"].
Proof. vm_compute. auto. Qed.

End NotifyCommandProps.

(** ** Liveness and activity of the agents *)

Module AgentProps.
Import JsString Runtime CoreUtils AgentCases.

(** The shared helper always answers, and each program it starts has the
    time limit of 30 seconds. *)
Lemma isAgentProcessRunning_answers (host : Host) (handle : RuntimeHandle)
    (processName : string) :
  ∃ (b : bool) (calls : list SysCall),
    isAgentProcessRunning host handle processName = (Returned b, calls)
    ∧ Forall timeBounded calls.
Proof.
  unfold isAgentProcessRunning, execFileAsync, processKill.
  destruct (inTmux handle).
  - destruct (run host "tmux" (listPanesArgs handle)) as [ttyOut|e|]; simpl.
    + destruct (length (paneTtys ttyOut) =? 0)%nat; simpl.
      * eexists _, _. split; [reflexivity|]. repeat constructor.
      * destruct (run host "ps" psArgs) as [psOut|e|]; simpl;
          (eexists _, _; split; [reflexivity|]; repeat constructor).
    + eexists _, _. split; [reflexivity|]. repeat constructor.
    + eexists _, _. split; [reflexivity|]. repeat constructor.
  - destruct (finitePositive _); [|eexists _, _; split; [reflexivity|constructor]].
    destruct (toPid host _) as [|neg|z|pos]; simpl;
      try (eexists _, _; split; [reflexivity|]; repeat constructor; fail).
    destruct (int32 z); simpl;
      [|eexists _, _; split; [reflexivity|]; repeat constructor].
    destruct (probe host z) as [[m [code|]| |]|]; simpl;
      try (eexists _, _; split; [reflexivity|]; repeat constructor; fail).
    case_bool_decide; eexists _, _; (split; [reflexivity|]); repeat constructor.
Qed.

(** A [tmux] or [ps] that fails or runs out of time makes the shared helper
    answer false. *)
Lemma isAgentProcessRunning_failed_child (host : Host) (handle : RuntimeHandle)
    (processName : string) :
  inTmux handle = true →
  givesNothing (run host "tmux" (listPanesArgs handle))
  ∨ givesNothing (run host "ps" psArgs) →
  (isAgentProcessRunning host handle processName).1 = Returned false.
Proof.
  intros Htmux Hnothing.
  unfold isAgentProcessRunning, execFileAsync. rewrite Htmux.
  destruct (run host "tmux" (listPanesArgs handle)) as [ttyOut|e|]; simpl;
    try reflexivity.
  destruct Hnothing as [[] | Hps].
  destruct (length (paneTtys ttyOut) =? 0)%nat; simpl; [reflexivity|].
  destruct (run host "ps" psArgs) as [psOut|e|]; simpl;
    [destruct Hps | reflexivity | reflexivity].
Qed.

(** C4. For a session with a runtime handle whose process is found running,
    [getActivityState] of the codex and opencode plugins is [null], with no
    call beyond those of the liveness check; whatever the session, the only
    state either of them ever reports is "exited", never "idle" or
    "active". *)
Theorem shared_storage_agents_answer_unknown
    (host : Host) (session : Session) (handle : RuntimeHandle) :
  runtimeHandle session = Some handle →
  (∀ calls, AgentCodex.isProcessRunning host handle = (Returned true, calls) →
            AgentCodex.getActivityState host session = (Returned None, calls))
  ∧ (∀ calls, AgentOpencode.isProcessRunning host handle = (Returned true, calls) →
              AgentOpencode.getActivityState host session = (Returned None, calls))
  ∧ (∀ detection,
       (AgentCodex.getActivityState host session).1 = Returned (Some detection)
       ∨ (AgentOpencode.getActivityState host session).1 = Returned (Some detection) →
       state detection = st_exited).
Proof.
  intros Hhandle.
  unfold AgentCodex.getActivityState, AgentOpencode.getActivityState.
  rewrite Hhandle. split; [|split].
  - intros calls ->. simpl. rewrite app_nil_r. reflexivity.
  - intros calls ->. simpl. rewrite app_nil_r. reflexivity.
  - intros detection [H | H].
    + destruct (AgentCodex.isProcessRunning host handle) as [[[]|e|] calls];
        simpl in H; try discriminate; injection H as <-; reflexivity.
    + destruct (AgentOpencode.isProcessRunning host handle) as [[[]|e|] calls];
        simpl in H; try discriminate; injection H as <-; reflexivity.
Qed.

Lemma shared_storage_agents_answer_unknown_witness :
  AgentCodex.getActivityState
    (agentInPane "node /usr/local/bin/codex --model o3") (sessionOn (Some tmuxHandle))
  = (Returned None,
     [ExecFile "tmux" (listPanesArgs tmuxHandle) (Some 30000);
      ExecFile "ps" psArgs (Some 30000)])
  ∧ AgentOpencode.getActivityState
      (agentInPane "opencode run 'fix the build'") (sessionOn (Some tmuxHandle))
    = (Returned None,
       [ExecFile "tmux" (listPanesArgs tmuxHandle) (Some 30000);
        ExecFile "ps" psArgs (Some 30000)]).
Proof.
  split.
  - apply (shared_storage_agents_answer_unknown
             (agentInPane "node /usr/local/bin/codex --model o3")
             (sessionOn (Some tmuxHandle)) tmuxHandle eq_refl).
    reflexivity.
  - apply (shared_storage_agents_answer_unknown
             (agentInPane "opencode run 'fix the build'")
             (sessionOn (Some tmuxHandle)) tmuxHandle eq_refl).
    reflexivity.
Defined.

(** C5. The activity check of the codex, opencode and aider plugins answers
    "exited" for a session without runtime handle, without any call that
    leaves the process. For a session with a handle the only calls are
    those of the liveness check, and when that check answers false the
    activity is "exited". *)
Theorem activity_check_exited_first (host : Host) (session : Session) :
  (runtimeHandle session = None →
   AgentCodex.getActivityState host session
     = (Returned (Some {| state := st_exited |}), [])
   ∧ AgentOpencode.getActivityState host session
     = (Returned (Some {| state := st_exited |}), [])
   ∧ AgentAider.detectActivity host session = (Returned st_exited, []))
  ∧ (∀ handle, runtimeHandle session = Some handle →
     ((AgentCodex.getActivityState host session).2
        = (AgentCodex.isProcessRunning host handle).2
      ∧ ((AgentCodex.isProcessRunning host handle).1 = Returned false →
         (AgentCodex.getActivityState host session).1
           = Returned (Some {| state := st_exited |})))
     ∧ ((AgentOpencode.getActivityState host session).2
          = (AgentOpencode.isProcessRunning host handle).2
        ∧ ((AgentOpencode.isProcessRunning host handle).1 = Returned false →
           (AgentOpencode.getActivityState host session).1
             = Returned (Some {| state := st_exited |})))
     ∧ ((AgentAider.detectActivity host session).2
          = (AgentAider.isProcessRunning host handle).2
        ∧ ((AgentAider.isProcessRunning host handle).1 = Returned false →
           (AgentAider.detectActivity host session).1 = Returned st_exited))).
Proof.
  unfold AgentCodex.getActivityState, AgentOpencode.getActivityState,
    AgentAider.detectActivity.
  split.
  - intros ->. auto.
  - intros handle ->.
    repeat split;
      match goal with
      | |- (bind ?m _).2 = _ =>
          destruct m as [[[]|e|] calls]; simpl; rewrite ?app_nil_r; reflexivity
      | |- ?m.1 = _ → _ =>
          destruct m as [[[]|e|] calls]; simpl; congruence
      end.
Qed.

Lemma activity_check_exited_first_witness :
  AgentCodex.getActivityState shellInPane (sessionOn None)
    = (Returned (Some {| state := st_exited |}), [])
  ∧ AgentAider.detectActivity shellInPane (sessionOn None) = (Returned st_exited, [])
  ∧ (AgentCodex.getActivityState shellInPane (sessionOn (Some tmuxHandle))).1
    = Returned (Some {| state := st_exited |})
  ∧ (AgentAider.detectActivity shellInPane (sessionOn (Some tmuxHandle))).1
    = Returned st_exited.
Proof.
  destruct (activity_check_exited_first shellInPane (sessionOn None))
    as [Hnone _].
  destruct (Hnone eq_refl) as (Hcodex & _ & Haider).
  destruct (activity_check_exited_first shellInPane (sessionOn (Some tmuxHandle)))
    as [_ Hsome].
  destruct (Hsome tmuxHandle eq_refl) as ((_ & Hc) & _ & (_ & Ha)).
  split; [exact Hcodex|]. split; [exact Haider|].
  split; [apply Hc; reflexivity | apply Ha; reflexivity].
Defined.

(** Without a time limit, the check of the aider plugin waits for [tmux]. *)
Lemma aider_isProcessRunning_waits_for_tmux (host : Host) (pane : RuntimeHandle) :
  inTmux pane = true →
  run host "tmux" (listPanesArgs pane) = Stalls →
  AgentAider.isProcessRunning host pane
  = (NeverSettles, [ExecFile "tmux" (listPanesArgs pane) None]).
Proof.
  intros Htmux Hstalls.
  unfold AgentAider.isProcessRunning, execFileAsync. rewrite Htmux, Hstalls.
  reflexivity.
Qed.

(** C7. The liveness check of the aider plugin starts [tmux] and [ps]
    without a time limit: when [tmux] does not exit the check never
    answers, and likewise when [ps] does not; the shared helper, on the same
    hosts, answers false after its limit of 30 seconds. *)
Theorem aider_isProcessRunning_without_time_limit :
  AgentAider.isProcessRunning tmuxStalls tmuxHandle
    = (NeverSettles, [ExecFile "tmux" (listPanesArgs tmuxHandle) None])
  ∧ AgentAider.isProcessRunning psStalls tmuxHandle
    = (NeverSettles, [ExecFile "tmux" (listPanesArgs tmuxHandle) None;
                      ExecFile "ps" psArgs None])
  ∧ isAgentProcessRunning tmuxStalls tmuxHandle "aider"
    = (Returned false, [ExecFile "tmux" (listPanesArgs tmuxHandle) (Some 30000)])
  ∧ isAgentProcessRunning psStalls tmuxHandle "aider"
    = (Returned false, [ExecFile "tmux" (listPanesArgs tmuxHandle) (Some 30000);
                        ExecFile "ps" psArgs (Some 30000)]).
Proof. repeat split; reflexivity. Qed.

(** C9. The liveness check of the aider plugin and the shared helper called
    with "aider" disagree: on a pid that exists but may not be signalled
    (the helper answers true, the plugin false), on a session with two panes
    where aider runs in the second (true against false), and on a pane
    running another command whose arguments contain "/aider" (false against
    true). *)
Theorem aider_isProcessRunning_differs_from_shared :
  ((isAgentProcessRunning othersProcess (processHandle 1) "aider").1 = Returned true
   ∧ (AgentAider.isProcessRunning othersProcess (processHandle 1)).1 = Returned false)
  ∧ ((isAgentProcessRunning (agentInSecondPane "aider --yes") tmuxHandle "aider").1
       = Returned true
     ∧ (AgentAider.isProcessRunning (agentInSecondPane "aider --yes") tmuxHandle).1
       = Returned false)
  ∧ ((isAgentProcessRunning (agentInPane "vim /home/dev/aider/README.md")
        tmuxHandle "aider").1 = Returned false
     ∧ (AgentAider.isProcessRunning (agentInPane "vim /home/dev/aider/README.md")
          tmuxHandle).1 = Returned true).
Proof. repeat split; reflexivity. Qed.

(** Where both see aider itself in the only pane, they agree. *)
Example aider_running_in_single_pane :
  (isAgentProcessRunning (agentInPane "/usr/local/bin/aider --yes") tmuxHandle "aider").1
    = Returned true
  ∧ (AgentAider.isProcessRunning (agentInPane "/usr/local/bin/aider --yes") tmuxHandle).1
    = Returned true.
Proof. split; reflexivity. Qed.

End AgentProps.

(** ** Resolution of plugins by name *)

Module ResolutionProps.
Import JsString JsObject Runtime CliPlugins WebRoute AgentCases ResolutionCases.

Lemma append_cons (c : ascii) (s t : string) : String c s +:+ t = String c (s +:+ t).
Proof. reflexivity. Qed.

Lemma append_empty (t : string) : EmptyString +:+ t = t.
Proof. reflexivity. Qed.

Lemma startsWith_append (p s : string) : startsWith p (p +:+ s) = true.
Proof.
  induction p as [|c p IH]; [reflexivity|].
  rewrite append_cons. simpl. rewrite decide_True by reflexivity. exact IH.
Qed.

Lemma includes_here (p s : string) : startsWith p s = true → includes p s = true.
Proof. intros H. destruct s; simpl; rewrite H; reflexivity. Qed.

Lemma includes_append_r (p a s : string) :
  includes p s = true → includes p (a +:+ s) = true.
Proof.
  intros H. induction a as [|c a IH]; [exact H|].
  rewrite append_cons. simpl. rewrite IH. apply orb_true_r.
Qed.

(** A message that ends with the name contains it. *)
Lemma includes_suffix (a name : string) : includes name (a +:+ name) = true.
Proof.
  apply includes_append_r, includes_here.
  induction name as [|c name IH]; [reflexivity|].
  simpl. rewrite decide_True by reflexivity. exact IH.
Qed.

(** A message with the name in its middle contains it. *)
Lemma includes_infix (a name b : string) : includes name (a +:+ name +:+ b) = true.
Proof. apply includes_append_r, includes_here, startsWith_append. Qed.

Lemma toUpperCase_append (a b : string) :
  toUpperCase (a +:+ b) = toUpperCase a +:+ toUpperCase b.
Proof.
  induction a as [|c a IH]; [reflexivity|].
  rewrite append_cons. simpl. rewrite IH. reflexivity.
Qed.

Lemma startsWith_append_r (p s b : string) :
  startsWith p s = true → startsWith p (s +:+ b) = true.
Proof.
  revert s. induction p as [|x p IH]; intros s; [reflexivity|].
  destruct s as [|y s]; simpl; [discriminate|].
  destruct (decide (x = y)); [apply IH | discriminate].
Qed.

Lemma includes_append_l (p s b : string) :
  includes p s = true → includes p (s +:+ b) = true.
Proof.
  induction s as [|c s IH].
  - simpl. rewrite orb_false_r. intros H.
    apply includes_here, (startsWith_append_r p EmptyString b H).
  - intros H. apply orb_true_iff in H as [H | H].
    + apply includes_here, (startsWith_append_r p (String c s) b H).
    + rewrite append_cons. cbn [includes]. rewrite (IH H). apply orb_true_r.
Qed.

(** The word of a message's fixed beginning is mentioned by the message. *)
Lemma mentions_in_prefix (word pre rest : string) :
  mentions word pre → mentions word (pre +:+ rest).
Proof.
  unfold mentions. rewrite toUpperCase_append. apply includes_append_l.
Qed.

(** A name that the table neither has nor inherits is not found in it. *)
Lemma at_key_absent {V} (table : list (string * V)) (name : string) :
  name ∉ keys table → name ∉ prototypeKeys → at_key table name = Absent.
Proof.
  intros Hown Hinherited. unfold at_key, property, inherited, keys in *.
  rewrite (not_elem_of_list_to_map_1 _ _ Hown).
  rewrite bool_decide_eq_false_2 by exact Hinherited. reflexivity.
Qed.

Section Tables.
Context {Agent SCM : Type}.
Variables claudeCode codex aider : AgentModule Agent.
Variable github : SCMModule SCM.
Variables desktop slack webhook composio : NotifierModule.

Lemma getAgentByName_unknown (name : string) :
  at_key (agentPlugins claudeCode codex aider) name = Absent →
  getAgentByName claudeCode codex aider name
  = inl (newError ("Unknown agent plugin: " +:+ name)).
Proof. unfold getAgentByName. intros ->. reflexivity. Qed.

Lemma getAgent_unknown (config : OrchestratorConfig) (projectId : option string) :
  at_key (agentPlugins claudeCode codex aider) (agentNameOf config projectId) = Absent →
  getAgent claudeCode codex aider config projectId
  = inl (newError ("Unknown agent plugin: " +:+ agentNameOf config projectId)).
Proof. unfold getAgent. simpl. intros ->. reflexivity. Qed.

Lemma getSCM_unknown (config : OrchestratorConfig) (projectId : string) :
  at_key (scmPlugins github) (scmNameOf config projectId) = Absent →
  getSCM github config projectId
  = inl (newError ("Unknown SCM plugin: " +:+ scmNameOf config projectId)).
Proof. unfold getSCM. simpl. intros ->. reflexivity. Qed.

Lemma getNotifier_unknown (name : string) :
  at_key (notifierPlugins desktop slack webhook composio) name = Absent →
  getNotifier desktop slack webhook composio name
  = inl (newError ("Unknown notifier plugin: " +:+ dquote +:+ name +:+ dquote
                   +:+ ". Available: desktop, slack, webhook, composio")).
Proof. unfold getNotifier. intros ->. reflexivity. Qed.

End Tables.

(** The route answers 500 "Runtime plugin not found" when the registry
    has no plugin of the project's runtime name, and sends nothing. *)
Lemma POST_runtime_not_registered (request : Request) (id message name : string)
    (services : Services) (session : Session) (pane : RuntimeHandle)
    (project : ProjectConfig) :
  params_id request = Returned id →
  request_message request = Returned (Some message) →
  truthy message = true →
  getServices request = Returned services →
  sessionManager_get services id = Returned (Some session) →
  runtimeHandle session = Some pane →
  services_projects services !! projectId session = Some project →
  project_runtime project = Some name →
  truthy name = true →
  registry_get services "runtime" name = inr None →
  POST request = Returned (json (ErrorBody "Runtime plugin not found") 500).
Proof.
  intros Hid Hmsg Htruthy Hserv Hsess Hhandle Hproj Hrt Hname Hreg.
  unfold POST, handle. rewrite Hid, Hmsg. simpl. rewrite Htruthy. simpl.
  rewrite Hserv. simpl. rewrite Hsess. simpl. rewrite Hhandle, Hproj.
  cbn [property]. rewrite Hrt.
  simpl. rewrite Hname. simpl. rewrite Hreg. reflexivity.
Qed.

(** C6, amended. A name that the plugin table does not have, and that is
    not one of the names every object inherits from [Object.prototype],
    makes [getAgent], [getAgentByName], [getSCM] and [getNotifier] throw an
    error whose message tells the kind of plugin and the requested name. In
    the message route of the dashboard, a [null] from [registry.get] for
    the project's runtime name is answered with status 500 and an error
    text that tells the kind of plugin; the runtime is not used. *)
Theorem unknown_plugin_is_reported {Agent SCM : Type}
    (claudeCode codex aider : AgentModule Agent) (github : SCMModule SCM)
    (desktop slack webhook composio : NotifierModule)
    (config : OrchestratorConfig) (name : string) :
  (name ∉ keys (agentPlugins claudeCode codex aider) → name ∉ prototypeKeys →
   ∃ e, getAgentByName claudeCode codex aider name = inl e
        ∧ mentions "agent" (errorMessage e)
        ∧ includes name (errorMessage e) = true)
  ∧ (∀ projectId,
       agentNameOf config projectId = name →
       name ∉ keys (agentPlugins claudeCode codex aider) → name ∉ prototypeKeys →
       ∃ e, getAgent claudeCode codex aider config projectId = inl e
            ∧ mentions "agent" (errorMessage e)
            ∧ includes name (errorMessage e) = true)
  ∧ (∀ projectId,
       scmNameOf config projectId = name →
       name ∉ keys (scmPlugins github) → name ∉ prototypeKeys →
       ∃ e, getSCM github config projectId = inl e
            ∧ mentions "scm" (errorMessage e)
            ∧ includes name (errorMessage e) = true)
  ∧ (name ∉ keys (notifierPlugins desktop slack webhook composio) →
     name ∉ prototypeKeys →
     ∃ e, getNotifier desktop slack webhook composio name = inl e
          ∧ mentions "notifier" (errorMessage e)
          ∧ includes name (errorMessage e) = true)
  ∧ (∀ request id message services session pane project,
       params_id request = Returned id →
       request_message request = Returned (Some message) →
       truthy message = true →
       getServices request = Returned services →
       sessionManager_get services id = Returned (Some session) →
       runtimeHandle session = Some pane →
       services_projects services !! projectId session = Some project →
       project_runtime project = Some name →
       truthy name = true →
       registry_get services "runtime" name = inr None →
       ∃ r msg, POST request = Returned r
                ∧ status r = 500
                ∧ errorText r = Some msg
                ∧ mentions "runtime" msg).
Proof.
  split; [|split; [|split; [|split]]].
  - intros Hown Hinherited.
    rewrite (getAgentByName_unknown _ _ _ _ (at_key_absent _ _ Hown Hinherited)).
    eexists. split; [reflexivity|]. unfold newError. cbn [errorMessage]. split.
    + apply mentions_in_prefix. reflexivity.
    + apply includes_suffix.
  - intros projectId <- Hown Hinherited.
    rewrite (getAgent_unknown _ _ _ _ _ (at_key_absent _ _ Hown Hinherited)).
    eexists. split; [reflexivity|]. unfold newError. cbn [errorMessage]. split.
    + apply mentions_in_prefix. reflexivity.
    + apply includes_suffix.
  - intros projectId <- Hown Hinherited.
    rewrite (getSCM_unknown _ _ _ (at_key_absent _ _ Hown Hinherited)).
    eexists. split; [reflexivity|]. unfold newError. cbn [errorMessage]. split.
    + apply mentions_in_prefix. reflexivity.
    + apply includes_suffix.
  - intros Hown Hinherited.
    rewrite (getNotifier_unknown _ _ _ _ _ (at_key_absent _ _ Hown Hinherited)).
    eexists. split; [reflexivity|]. unfold newError. cbn [errorMessage]. split.
    + apply mentions_in_prefix. reflexivity.
    + apply (includes_infix ("Unknown notifier plugin: " +:+ dquote) name).
  - intros request id message services session pane project
      Hid Hmsg Htruthy Hserv Hsess Hpane Hproj Hrt Hname Hreg.
    eexists _, _. split.
    + apply (POST_runtime_not_registered request id message name services
               session pane project); assumption.
    + simpl. repeat split; reflexivity.
Qed.

Lemma unknown_plugin_is_reported_witness :
  (∃ e, getAgentByName (agentStub "claude-code") (agentStub "codex")
          (agentStub "aider") "cursor" = inl e
        ∧ mentions "agent" (errorMessage e)
        ∧ includes "cursor" (errorMessage e) = true)
  ∧ (∃ e, getAgent (agentStub "claude-code") (agentStub "codex")
            (agentStub "aider") strayConfig (Some "app") = inl e
          ∧ mentions "agent" (errorMessage e)
          ∧ includes "cursor" (errorMessage e) = true)
  ∧ (∃ e, getSCM scmStub strayConfig "app" = inl e
          ∧ mentions "scm" (errorMessage e)
          ∧ includes "gitlab" (errorMessage e) = true)
  ∧ (∃ e, getNotifier (notifierStub "desktop") (notifierStub "slack")
            (notifierStub "webhook") (notifierStub "composio") "pagerduty" = inl e
          ∧ mentions "notifier" (errorMessage e)
          ∧ includes "pagerduty" (errorMessage e) = true)
  ∧ (∃ r msg, POST dockerRequest = Returned r
              ∧ status r = 500
              ∧ errorText r = Some msg
              ∧ mentions "runtime" msg).
Proof.
  pose proof (unknown_plugin_is_reported (agentStub "claude-code")
                (agentStub "codex") (agentStub "aider") scmStub
                (notifierStub "desktop") (notifierStub "slack")
                (notifierStub "webhook") (notifierStub "composio") strayConfig)
    as H.
  assert (∀ name (names : list string),
            bool_decide (name ∈ names) = false → name ∉ names) as Hnot
    by (intros name names Hdec; exact (bool_decide_eq_false_1 _ Hdec)).
  split; [|split; [|split; [|split]]].
  - destruct (H "cursor") as (Hby & _). apply Hby; apply Hnot; reflexivity.
  - destruct (H "cursor") as (_ & Hget & _).
    apply (Hget (Some "app")); [reflexivity | |]; apply Hnot; reflexivity.
  - destruct (H "gitlab") as (_ & _ & Hscm & _).
    apply (Hscm "app"); [reflexivity | |]; apply Hnot; reflexivity.
  - destruct (H "pagerduty") as (_ & _ & _ & Hnotifier & _).
    apply Hnotifier; apply Hnot; reflexivity.
  - destruct (H "docker") as (_ & _ & _ & _ & Hweb).
    apply (Hweb dockerRequest "app-7" "continue" emptyRegistry
             (sessionOn (Some tmuxHandle)) tmuxHandle dockerProject);
      reflexivity.
Defined.

(** The answer of the route to a project whose runtime plugin "docker" is
    not registered does not tell that name. *)
Lemma web_route_error_omits_plugin_name :
  registry_get emptyRegistry "runtime" "docker" = inr None
  ∧ POST dockerRequest = Returned (json (ErrorBody "Runtime plugin not found") 500)
  ∧ includes "docker" "Runtime plugin not found" = false
  ∧ ¬ mentions "docker" "Runtime plugin not found".
Proof. repeat split; try reflexivity. unfold mentions. discriminate. Qed.

(** The names that the tables inherit are found in them: for the agent and
    the SCM tables [create] is then called on a member of
    [Object.prototype] and throws a [TypeError] that tells neither the kind
    of plugin nor the name; [getNotifier] returns the member as if it were
    a plugin module. *)
Example inherited_names_are_found :
  getAgentByName (agentStub "claude-code") (agentStub "codex") (agentStub "aider")
    "constructor"
  = inl (newError "Object prototype may only be an Object or null: undefined")
  ∧ getAgentByName (agentStub "claude-code") (agentStub "codex") (agentStub "aider")
      "toString"
    = inl (newError "plugin.create is not a function")
  ∧ getNotifier (notifierStub "desktop") (notifierStub "slack")
      (notifierStub "webhook") (notifierStub "composio") "constructor"
    = inr (memberModule "constructor")
  ∧ notifier_create (memberModule "valueOf") ∅
    = inl (newError "pluginModule.create is not a function").
Proof. repeat split; reflexivity. Qed.

Example getNotifier_unknown_message :
  getNotifier (notifierStub "desktop") (notifierStub "slack")
    (notifierStub "webhook") (notifierStub "composio") "pagerduty"
  = inl (newError ("Unknown notifier plugin: " +:+ dquote +:+ "pagerduty" +:+ dquote
                   +:+ ". Available: desktop, slack, webhook, composio")).
Proof. reflexivity. Qed.

End ResolutionProps.

(** ** Escaping for the shell and for AppleScript *)

Module EscapeProps.
Import JsString PluginUtils Readers.

Lemma app_cons (c : ascii) (s t : string) : String c s +:+ t = String c (s +:+ t).
Proof. reflexivity. Qed.

Lemma app_nil_l (t : string) : EmptyString +:+ t = t.
Proof. reflexivity. Qed.

Lemma app_nil_r (s : string) : s +:+ EmptyString = s.
Proof. induction s as [|c s IH]; [reflexivity|]. rewrite app_cons, IH. reflexivity. Qed.

Lemma app_assoc (a b c : string) : (a +:+ b) +:+ c = a +:+ (b +:+ c).
Proof. induction a as [|x a IH]; [reflexivity|]. rewrite !app_cons, IH. reflexivity. Qed.

(** Inside single quotes, the escaped text followed by the closing quote
    adds exactly the original text to the word being read. *)
Lemma quoted_text_read (arg : string) :
  ∀ (cur tail : string),
    shellWordsGo true (Some cur)
      (replaceAll squote quoteEscape arg +:+ String squote tail)
    = shellWordsGo false (Some (cur +:+ arg)) tail.
Proof.
  induction arg as [|d arg IH]; intros cur tail.
  - rewrite app_nil_l, app_nil_r. simpl. reflexivity.
  - cbn [replaceAll]. destruct (decide (d = squote)) as [-> | Hd].
    + rewrite app_assoc.
      change (quoteEscape +:+ ?x)
        with (String squote (String backslash (String squote (String squote x)))).
      cbn [shellWordsGo].
      rewrite !decide_True by reflexivity.
      rewrite decide_False by discriminate.
      rewrite decide_True by reflexivity.
      rewrite decide_False by discriminate.
      rewrite decide_True by reflexivity.
      cbn [default]. rewrite IH. unfold id. rewrite app_assoc. reflexivity.
    + rewrite app_cons. cbn [shellWordsGo].
      rewrite decide_False by exact Hd.
      cbn [default]. rewrite IH. unfold id. rewrite app_assoc. reflexivity.
Qed.

Lemma shellEscape_readsAs (arg : string) : readsAs (shellEscape arg) arg.
Proof.
  intros tail. unfold shellEscape.
  rewrite !app_assoc, !app_cons, !app_nil_l.
  cbn [shellWordsGo]. rewrite decide_True by reflexivity.
  cbn [default]. rewrite quoted_text_read. reflexivity.
Qed.

(** X1. What [shellEscape] returns is read by a POSIX shell as exactly one
    word, and that word is the argument itself: quotes, spaces, line feeds
    and shell metacharacters of the argument have no effect. *)
Theorem shellEscape_is_one_word (arg : string) :
  shellWords (shellEscape arg) = Some [arg].
Proof.
  unfold shellWords. rewrite <- (app_nil_r (shellEscape arg)).
  rewrite shellEscape_readsAs. reflexivity.
Qed.

Example shellEscape_quote :
  shellEscape "it's" = String squote ("it" +:+ quoteEscape +:+ "s" +:+ String squote EmptyString)
  ∧ shellWords ("echo " +:+ shellEscape "a b; rm -rf $HOME") = Some ["echo"; "a b; rm -rf $HOME"]
  ∧ shellWords "echo a b; rm -rf $HOME" = None.
Proof. repeat split; reflexivity. Qed.

Lemma replaceAll_app (c : ascii) (by_ a b : string) :
  replaceAll c by_ (a +:+ b) = replaceAll c by_ a +:+ replaceAll c by_ b.
Proof.
  induction a as [|x a IH]; [reflexivity|].
  rewrite app_cons. cbn [replaceAll]. destruct (decide (x = c)).
  - rewrite IH, app_assoc. reflexivity.
  - rewrite IH, app_cons. reflexivity.
Qed.

(** Reading one escaped character gives the character back. *)
Lemma escaped_char_read (c : ascii) (s : string) :
  appleScriptText (escapeAppleScript (String c s))
  = String c <$> appleScriptText (escapeAppleScript s).
Proof.
  unfold escapeAppleScript.
  cbn [replaceAll]. destruct (decide (c = backslash)) as [-> | Hbs].
  - rewrite !app_cons, app_nil_l. cbn [replaceAll].
    rewrite !decide_False by discriminate.
    cbn [appleScriptText]. rewrite !decide_True by reflexivity. reflexivity.
  - cbn [replaceAll]. destruct (decide (c = dquoteChar)) as [-> | Hdq].
    + rewrite !app_cons, app_nil_l. cbn [appleScriptText].
      rewrite decide_True by reflexivity.
      rewrite decide_False by discriminate.
      rewrite decide_True by reflexivity. reflexivity.
    + cbn [appleScriptText].
      rewrite !decide_False by assumption. reflexivity.
Qed.

(** X2. What [escapeAppleScript] returns, put between double quotes in an
    AppleScript source, is a string literal for the original text: it has
    no bare double quote and no backslash that could reach the closing
    quote, and its two escapes read back as the text. *)
Theorem escapeAppleScript_reads_back (s : string) :
  appleScriptText (escapeAppleScript s) = Some s.
Proof.
  induction s as [|c s IH]; [reflexivity|].
  rewrite escaped_char_read, IH. reflexivity.
Qed.

Example escapeAppleScript_sample :
  escapeAppleScript ("say " +:+ dquote +:+ "hi" +:+ dquote +:+ " \ done")
  = "say \" +:+ dquote +:+ "hi\" +:+ dquote +:+ " \\ done".
Proof. reflexivity. Qed.

End EscapeProps.

(** ** Launch commands as the shell reads them *)

Module LaunchProps.
Import JsString Runtime PluginUtils Readers AgentLaunch.

Lemma sapp_assoc (a b c : string) : (a +:+ b) +:+ c = a +:+ (b +:+ c).
Proof. apply EscapeProps.app_assoc. Qed.

Lemma sapp_nil_r (s : string) : s +:+ EmptyString = s.
Proof. apply EscapeProps.app_nil_r. Qed.

(** Plain characters are added to the word being read. *)
Lemma plain_chars_read (w : string) :
  ∀ (cur : option string) (tail : string),
    plainChars w = true →
    shellWordsGo false cur (w +:+ tail)
    = shellWordsGo false
        (match w with
         | EmptyString => cur
         | _ => Some (default EmptyString cur +:+ w)
         end) tail.
Proof.
  induction w as [|c w IH]; intros cur tail Hplain; [reflexivity|].
  cbn [plainChars] in Hplain. apply andb_prop in Hplain as [Hc Hw].
  unfold plainChar in Hc.
  apply andb_prop in Hc as [Hc Hbs]. apply andb_prop in Hc as [Hc Hsq].
  apply andb_prop in Hc as [Hsp Hspecial].
  apply negb_true_iff in Hsp, Hspecial, Hsq, Hbs.
  apply bool_decide_eq_false in Hsq, Hbs.
  change (String c w +:+ tail) with (String c (w +:+ tail)).
  cbn [shellWordsGo].
  rewrite !decide_False by assumption. rewrite Hsp, Hspecial.
  rewrite (IH _ tail Hw). cbn [default]. unfold id.
  destruct w as [|d w]; [reflexivity|].
  rewrite sapp_assoc. reflexivity.
Qed.

Lemma plainWord_readsAs (w : string) : plainWord w = true → readsAs w w.
Proof.
  unfold plainWord. intros [Hne Hplain]%andb_prop tail.
  rewrite (plain_chars_read w None tail Hplain).
  destruct w; [discriminate | reflexivity].
Qed.

(** Parts that each read as a word, joined by single spaces, read as the
    list of those words. *)
Lemma joined_parts_read (ps vs : list string) :
  Forall2 readsAs ps vs → shellWords (join " " ps) = Some vs.
Proof.
  unfold shellWords. induction 1 as [|p v ps vs Hp Hrest IH]; [reflexivity|].
  destruct Hrest as [|q u ps vs Hq Hrest].
  - cbn [join]. rewrite <- (sapp_nil_r p), Hp. reflexivity.
  - change (join " " (p :: q :: ps)) with (p +:+ " " +:+ join " " (q :: ps)).
    rewrite Hp.
    change (" " +:+ join " " (q :: ps)) with (String " " (join " " (q :: ps))).
    cbn [shellWordsGo]. rewrite !decide_False by discriminate.
    cbn [Ascii.is_space]. rewrite IH. reflexivity.
Qed.

Lemma whenSet_reads (v : option string) (flag : string)
    (escape : string -> string) :
  plainWord flag = true →
  (∀ s, readsAs (escape s) s) →
  Forall2 readsAs (whenSet v (fun s => [flag; escape s]))
                  (whenSet v (fun s => [flag; s])).
Proof.
  intros Hflag Hesc. unfold whenSet.
  destruct v as [s|]; [|constructor].
  destruct (truthy s); [|constructor].
  repeat constructor; auto using plainWord_readsAs.
Qed.

Lemma pushIf_reads (b : bool) (ws : list string) :
  Forall (fun w => plainWord w = true) ws →
  Forall2 readsAs (pushIf b ws) (pushIf b ws).
Proof.
  intros Hws. destruct b; [|constructor]. simpl.
  induction Hws; constructor; auto using plainWord_readsAs.
Qed.

(** X3. The command line that the aider plugin builds is read by the shell
    as the program name followed by the flags, with the model and the
    prompt each arriving as one argument, unchanged, whatever characters
    they contain. *)
Theorem aider_launch_command_argv (config : AgentLaunchConfig) :
  shellWords (AiderLaunch.getLaunchCommand config) = Some (AiderLaunch.argv config).
Proof.
  apply joined_parts_read. unfold AiderLaunch.parts, AiderLaunch.argv.
  repeat apply Forall2_app.
  - repeat constructor.
  - apply pushIf_reads. repeat constructor.
  - apply whenSet_reads; [reflexivity | exact EscapeProps.shellEscape_readsAs].
  - apply whenSet_reads; [reflexivity | exact EscapeProps.shellEscape_readsAs].
Qed.

(** X4. The command line that the opencode plugin builds is read by the
    shell as [opencode], then [run] and the prompt as one argument if there
    is a prompt, then [--model] and the model as one argument if there is
    one. *)
Theorem opencode_launch_command_argv (config : AgentLaunchConfig) :
  shellWords (OpencodeLaunch.getLaunchCommand config)
  = Some (OpencodeLaunch.argv config).
Proof.
  apply joined_parts_read. unfold OpencodeLaunch.parts, OpencodeLaunch.argv.
  repeat apply Forall2_app.
  - repeat constructor.
  - apply whenSet_reads; [reflexivity | exact EscapeProps.shellEscape_readsAs].
  - apply whenSet_reads; [reflexivity | exact EscapeProps.shellEscape_readsAs].
Qed.

(** X5. Without a system prompt file, the command line that the codex
    plugin builds is read by the shell as [codex], the flags, and last
    [--] followed by the prompt as one argument, so that a prompt that
    starts with a dash is not taken for an option. *)
Theorem codex_launch_command_argv (config : AgentLaunchConfig) :
  truthyOpt (systemPromptFile config) = false →
  shellWords (CodexLaunch.getLaunchCommand config) = Some (CodexLaunch.argv config)
  ∧ (∀ p, prompt config = Some p → truthy p = true →
          ∃ before, CodexLaunch.argv config = (before ++ ["--"; p])%list).
Proof.
  intros Hfile. split.
  - apply joined_parts_read. unfold CodexLaunch.parts, CodexLaunch.argv.
    rewrite Hfile.
    repeat apply Forall2_app.
    + repeat constructor.
    + apply pushIf_reads. repeat constructor.
    + apply whenSet_reads; [reflexivity | exact EscapeProps.shellEscape_readsAs].
    + apply whenSet_reads; [reflexivity | exact EscapeProps.shellEscape_readsAs].
    + apply whenSet_reads; [reflexivity | exact EscapeProps.shellEscape_readsAs].
  - intros p Hp Htruthy. unfold CodexLaunch.argv. rewrite Hp.
    unfold whenSet at 3. rewrite Htruthy.
    eexists. rewrite !app_assoc. reflexivity.
Qed.

Lemma codex_launch_command_argv_witness :
  shellWords (CodexLaunch.getLaunchCommand sampleLaunch)
  = Some ["codex"; "--approval-mode"; "full-auto"; "--model"; "gpt-4o"; "--";
          "it's broken; rm -rf $HOME" +:+ String "010" "fix it"].
Proof.
  destruct (codex_launch_command_argv sampleLaunch eq_refl) as [H _].
  exact H.
Defined.

Example aider_launch_sample :
  AiderLaunch.getLaunchCommand sampleLaunch
  = "aider --yes --model 'gpt-4o' --message 'it'\''s broken; rm -rf $HOME"
    +:+ String "010" "fix it'".
Proof. reflexivity. Qed.

End LaunchProps.

(** ** Environments and terminal activity of the agents *)

Module AgentEnvProps.
Import JsString Runtime Readers AgentLaunch.

(** The issue id as the environment gets it: only when it is not empty. *)
Lemma setIssue_lookup (config : AgentLaunchConfig) (env : gmap string string)
    (key : string) :
  setIssue config env !! key
  = if bool_decide (key = "AO_ISSUE_ID") && truthyOpt (issueId config)
    then issueId config else env !! key.
Proof.
  unfold setIssue, setEnv. destruct (issueId config) as [i|]; simpl.
  - destruct (truthy i); simpl.
    + case_bool_decide; simplify_map_eq; reflexivity.
    + rewrite andb_false_r. reflexivity.
  - rewrite andb_false_r. reflexivity.
Qed.

(** X6. Every agent environment carries the session id and, exactly when
    the issue id is set and not empty, the issue id; the aider plugin adds
    the project name, the codex and opencode plugins never set
    AO_PROJECT_ID; no other variable is ever set. *)
Theorem agent_environment_variables (config : AgentLaunchConfig) :
  let issue := if truthyOpt (issueId config) then issueId config else None in
  (AiderLaunch.getEnvironment config !! "AO_SESSION_ID" = Some (sessionId config)
   ∧ AiderLaunch.getEnvironment config !! "AO_PROJECT_ID"
     = Some (projectConfig_name (projectConfig config))
   ∧ AiderLaunch.getEnvironment config !! "AO_ISSUE_ID" = issue)
  ∧ (CodexLaunch.getEnvironment config !! "AO_SESSION_ID" = Some (sessionId config)
     ∧ CodexLaunch.getEnvironment config !! "AO_PROJECT_ID" = None
     ∧ CodexLaunch.getEnvironment config !! "AO_ISSUE_ID" = issue)
  ∧ (OpencodeLaunch.getEnvironment config !! "AO_SESSION_ID" = Some (sessionId config)
     ∧ OpencodeLaunch.getEnvironment config !! "AO_PROJECT_ID" = None
     ∧ OpencodeLaunch.getEnvironment config !! "AO_ISSUE_ID" = issue)
  ∧ (∀ key, key ∉ ["AO_SESSION_ID"; "AO_PROJECT_ID"; "AO_ISSUE_ID"] →
       AiderLaunch.getEnvironment config !! key = None
       ∧ CodexLaunch.getEnvironment config !! key = None
       ∧ OpencodeLaunch.getEnvironment config !! key = None).
Proof.
  intros issue.
  unfold AiderLaunch.getEnvironment, CodexLaunch.getEnvironment,
    OpencodeLaunch.getEnvironment, setEnv.
  repeat split; rewrite setIssue_lookup; simpl;
    try (subst issue; destruct (truthyOpt (issueId config)); reflexivity).
  all: assert (key ≠ "AO_SESSION_ID" ∧ key ≠ "AO_PROJECT_ID" ∧ key ≠ "AO_ISSUE_ID")
         as (H1 & H2 & H3)
         by (repeat split; intros ->; apply H; set_solver).
  all: rewrite (bool_decide_eq_false_2 _ H3); simpl; simplify_map_eq; reflexivity.
Qed.

Lemma agent_environment_variables_witness :
  ("PATH" ∉ ["AO_SESSION_ID"; "AO_PROJECT_ID"; "AO_ISSUE_ID"])
  ∧ AiderLaunch.getEnvironment sampleLaunch !! "PATH" = None
  ∧ CodexLaunch.getEnvironment sampleLaunch !! "PATH" = None
  ∧ OpencodeLaunch.getEnvironment sampleLaunch !! "PATH" = None.
Proof.
  assert ("PATH" ∉ ["AO_SESSION_ID"; "AO_PROJECT_ID"; "AO_ISSUE_ID"]) as Hfresh
    by (intros Hin; repeat (apply elem_of_cons in Hin as [Heq | Hin]; [discriminate Heq|]);
        apply elem_of_nil in Hin; exact Hin).
  split; [exact Hfresh|].
  destruct (agent_environment_variables sampleLaunch) as (_ & _ & _ & Hother).
  exact (Hother "PATH" Hfresh).
Defined.

End AgentEnvProps.

(** ** CI summaries, review decisions, pull requests and comments *)

Module ScmQueriesProps.
Import JsString ScmGithub Runtime CliPlugins ScmGithubQueries ScmQueriesCases.

Lemma some_iff {A} (p : A -> bool) (l : list A) :
  some p l = true ↔ ∃ x, x ∈ l ∧ p x = true.
Proof.
  unfold some. rewrite existsb_exists.
  split; intros (x & Hin & Hp); exists x; split; auto; apply list_elem_of_In; auto.
Qed.

Lemma some_false_iff {A} (p : A -> bool) (l : list A) :
  some p l = false ↔ ∀ x, x ∈ l → p x = false.
Proof.
  split.
  - intros Hnone x Hin. destruct (p x) eqn:Hp; [|reflexivity].
    assert (some p l = true) by (apply some_iff; eauto). congruence.
  - intros Hall. destruct (some p l) eqn:Hs; [|reflexivity].
    apply some_iff in Hs as (x & Hin & Hp). rewrite (Hall x Hin) in Hp. discriminate.
Qed.

Lemma some_perm {A} (p : A -> bool) (l k : list A) :
  l ≡ₚ k → some p l = some p k.
Proof.
  intros Hperm. destruct (some p k) eqn:Hk.
  - apply some_iff in Hk as (x & Hin & Hp). apply some_iff.
    exists x. split; [rewrite Hperm; exact Hin | exact Hp].
  - apply some_false_iff. intros x Hin.
    rewrite some_false_iff in Hk. apply Hk. rewrite <- Hperm. exact Hin.
Qed.

(** What each value of the summary tells about the checks. *)
Lemma getCISummary_sound (gh : GitHub) (pr : PRInfo) :
  match getCISummary gh pr with
  | CI_none => getCIChecks gh pr = []
  | CI_failing => ∃ c, c ∈ getCIChecks gh pr ∧ ci_status c = ck_failed
  | CI_pending =>
      (∀ c, c ∈ getCIChecks gh pr → ci_status c ≠ ck_failed)
      ∧ ∃ c, c ∈ getCIChecks gh pr
             ∧ (ci_status c = ck_pending ∨ ci_status c = ck_running)
  | CI_passing =>
      getCIChecks gh pr ≠ []
      ∧ ∀ c, c ∈ getCIChecks gh pr → ci_status c = ck_passed ∨ ci_status c = ck_skipped
  end.
Proof.
  unfold getCISummary. generalize (getCIChecks gh pr). intros checks.
  destruct (length checks =? 0)%nat eqn:Hlen.
  { apply Nat.eqb_eq, nil_length_inv in Hlen. exact Hlen. }
  assert (checks ≠ []) as Hne by (intros ->; discriminate).
  destruct (some _ checks) eqn:Hf.
  { apply some_iff in Hf as (c & Hc & Hfailed%bool_decide_eq_true). eauto. }
  rewrite some_false_iff in Hf.
  assert (∀ c, c ∈ checks → ci_status c ≠ ck_failed) as Hnofail.
  { intros c Hc. apply (bool_decide_eq_false (ci_status c = ck_failed)), Hf, Hc. }
  destruct (some _ checks) eqn:Hg.
  { apply some_iff in Hg as (c & Hc & Hp). split; [exact Hnofail|].
    exists c. split; [exact Hc|].
    apply orb_true_iff in Hp. rewrite !bool_decide_eq_true in Hp. exact Hp. }
  rewrite some_false_iff in Hg. split; [exact Hne|].
  intros c Hc. specialize (Hg c Hc). specialize (Hnofail c Hc).
  apply orb_false_iff in Hg as [Hp Hr]. apply bool_decide_eq_false in Hp, Hr.
  destruct (ci_status c); tauto.
Qed.

(** X8. The CI summary is "none" exactly for no checks, "failing" exactly
    when some check failed (however many are pending), "pending" exactly
    when none failed and some check is pending or running, and "passing"
    exactly when there are checks and each of them passed or was skipped;
    it does not depend on the order in which the checks are listed. *)
Theorem getCISummary_by_statuses (gh : GitHub) (pr : PRInfo) :
  (getCISummary gh pr = CI_none ↔ getCIChecks gh pr = [])
  ∧ (getCISummary gh pr = CI_failing
     ↔ ∃ c, c ∈ getCIChecks gh pr ∧ ci_status c = ck_failed)
  ∧ (getCISummary gh pr = CI_pending
     ↔ (∀ c, c ∈ getCIChecks gh pr → ci_status c ≠ ck_failed)
       ∧ ∃ c, c ∈ getCIChecks gh pr
              ∧ (ci_status c = ck_pending ∨ ci_status c = ck_running))
  ∧ (getCISummary gh pr = CI_passing
     ↔ getCIChecks gh pr ≠ []
       ∧ ∀ c, c ∈ getCIChecks gh pr → ci_status c = ck_passed ∨ ci_status c = ck_skipped)
  ∧ (∀ gh', getCIChecks gh' pr ≡ₚ getCIChecks gh pr →
            getCISummary gh' pr = getCISummary gh pr).
Proof.
  pose proof (getCISummary_sound gh pr) as Hsound.
  split; [|split; [|split; [|split]]].
  - split; [intros Hs; rewrite Hs in Hsound; exact Hsound|].
    intros Hnil. destruct (getCISummary gh pr); [| | |reflexivity]; exfalso.
    + destruct Hsound as (_ & c & Hc & _). rewrite Hnil in Hc. apply elem_of_nil in Hc as [].
    + destruct Hsound as [Hne _]. contradiction.
    + destruct Hsound as (c & Hc & _). rewrite Hnil in Hc. apply elem_of_nil in Hc as [].
  - split; [intros Hs; rewrite Hs in Hsound; exact Hsound|].
    intros (c & Hc & Hfailed).
    destruct (getCISummary gh pr); [| |reflexivity|]; exfalso.
    + destruct Hsound as [Hno _]. exact (Hno c Hc Hfailed).
    + destruct Hsound as [_ Hall]. destruct (Hall c Hc); congruence.
    + rewrite Hsound in Hc. apply elem_of_nil in Hc as [].
  - split; [intros Hs; rewrite Hs in Hsound; exact Hsound|].
    intros (Hno & c & Hc & Hp).
    destruct (getCISummary gh pr); [reflexivity| | |]; exfalso.
    + destruct Hsound as [_ Hall]. destruct (Hall c Hc), Hp; congruence.
    + destruct Hsound as (c' & Hc' & Hfailed). exact (Hno c' Hc' Hfailed).
    + rewrite Hsound in Hc. apply elem_of_nil in Hc as [].
  - split; [intros Hs; rewrite Hs in Hsound; exact Hsound|].
    intros (Hne & Hall).
    destruct (getCISummary gh pr); [|reflexivity| |]; exfalso.
    + destruct Hsound as (_ & c & Hc & Hp). destruct (Hall c Hc), Hp; congruence.
    + destruct Hsound as (c & Hc & Hfailed). destruct (Hall c Hc); congruence.
    + contradiction.
  - intros gh' Hperm. unfold getCISummary.
    rewrite (Permutation_length Hperm), !(some_perm _ _ _ Hperm). reflexivity.
Qed.

Lemma getCISummary_by_statuses_witness :
  getCISummary ScmGithubCases.noChecksPR ScmGithubCases.somePR = CI_none
  ∧ getCISummary ScmGithubCases.blockedPR ScmGithubCases.somePR = CI_failing
  ∧ getCISummary ScmGithubCases.readyPR ScmGithubCases.somePR = CI_passing.
Proof.
  split; [|split].
  - destruct (getCISummary_by_statuses ScmGithubCases.noChecksPR ScmGithubCases.somePR)
      as (Hnone & _).
    apply Hnone. reflexivity.
  - destruct (getCISummary_by_statuses ScmGithubCases.blockedPR ScmGithubCases.somePR)
      as (_ & Hfailing & _).
    apply Hfailing. eexists.
    split; [apply list_elem_of_further, list_elem_of_here | reflexivity].
  - destruct (getCISummary_by_statuses ScmGithubCases.readyPR ScmGithubCases.somePR)
      as (_ & _ & _ & Hpassing & _).
    apply Hpassing. split; [discriminate|]. intros c Hc.
    apply list_elem_of_singleton in Hc as ->. left. reflexivity.
Defined.


Lemma rev_app_spec (a b : string) : String.rev_app a b = String.rev a +:+ b.
Proof.
  revert b. induction a as [|c a IH]; intros b; [reflexivity|].
  unfold String.rev. cbn [String.rev_app]. rewrite (IH (String c b)), (IH (String c EmptyString)).
  rewrite EscapeProps.app_assoc. reflexivity.
Qed.

Lemma splitGo_nonempty (sep : ascii) (cur s : string) : splitGo sep cur s ≠ [].
Proof.
  revert cur. induction s as [|c s IH]; intros cur; cbn [splitGo]; [discriminate|].
  destruct (decide (c = sep)); [discriminate | apply IH].
Qed.

Lemma join_cons (sep p : string) (rest : list string) :
  rest ≠ [] → join sep (p :: rest) = p +:+ sep +:+ join sep rest.
Proof. destruct rest; [congruence | reflexivity]. Qed.

Lemma join_splitGo (sep : ascii) (cur s : string) :
  join (String sep EmptyString) (splitGo sep cur s) = String.rev cur +:+ s.
Proof.
  revert cur. induction s as [|c s IH]; intros cur; cbn [splitGo].
  - cbn [join]. rewrite EscapeProps.app_nil_r. reflexivity.
  - destruct (decide (c = sep)) as [-> | Hc].
    + rewrite join_cons by apply splitGo_nonempty. rewrite IH. reflexivity.
    + rewrite IH.
      change (String.rev (String c cur))
        with (String.rev_app cur (String c EmptyString)).
      rewrite rev_app_spec, EscapeProps.app_assoc. reflexivity.
Qed.

(** Joining the pieces of a split with the separator gives the text back. *)
Lemma join_split (sep : ascii) (s : string) :
  join (String sep EmptyString) (split sep s) = s.
Proof. unfold split. rewrite join_splitGo. reflexivity. Qed.

(** X9. [detectPR] answers [null] for a session without branch whatever
    GitHub would list, and [null] when the query fails or lists nothing.
    When the query lists pull requests it answers the first one listed:
    its number, url, title, branches and draft flag, with the owner and
    the name that the project's repo has around its first slash; and when
    the project's repo has the form owner/name (one slash) the [--repo]
    argument that [mergePR] and [closePR] build from the answer is the
    project's repo again. *)
Theorem detectPR_first_listed (gh : Replies) (session : Session)
    (project : ProjectConfig) :
  (truthyOpt (branch session) = false → detectPR gh session project = None)
  ∧ (∀ b, branch session = Some b → truthy b = true →
       match gh_pr_list gh (project_repo project) b with
       | GhFails _ => detectPR gh session project = None
       | GhOk [] => detectPR gh session project = None
       | GhOk (first :: _) =>
           ∃ pr, detectPR gh session project = Some pr
                 ∧ pr_number pr = listed_number first
                 ∧ pr_url pr = listed_url first
                 ∧ pr_title pr = listed_title first
                 ∧ pr_branch pr = listed_headRefName first
                 ∧ pr_baseBranch pr = listed_baseRefName first
                 ∧ pr_isDraft pr = listed_isDraft first
                 ∧ Some (pr_owner pr) = split "/" (project_repo project) !! 0%nat
                 ∧ (∀ name, split "/" (project_repo project) !! 1%nat = Some name →
                            pr_repo pr = name)
                 ∧ (length (split "/" (project_repo project)) = 2%nat →
                    repoFlag pr = project_repo project
                    ∧ ∀ method,
                        mergeArgs pr method !! 4%nat = Some (project_repo project)
                        ∧ closeArgs pr !! 4%nat = Some (project_repo project)
                        ∧ last (mergeArgs pr method) = Some "--delete-branch")
       end).
Proof.
  unfold detectPR. split.
  - intros ->. reflexivity.
  - intros b -> Htruthy. cbn [truthyOpt default negb]. rewrite Htruthy. cbn [negb].
    unfold id.
    destruct (gh_pr_list gh (project_repo project) b) as [[|first others]|e];
      [reflexivity| |reflexivity].
    eexists. split; [reflexivity|]. cbn.
    repeat (split; [reflexivity|]).
    pose proof (join_split "/" (project_repo project)) as Hjoin.
    pose proof (splitGo_nonempty "/" EmptyString (project_repo project)) as Hparts.
    fold (split "/" (project_repo project)) in Hparts.
    destruct (split "/" (project_repo project)) as [|o [|n [|x parts]]];
      [congruence | | |].
    + split; [reflexivity|]. split; [discriminate|]. discriminate.
    + split; [reflexivity|]. split; [intros name [= <-]; reflexivity|].
      intros _. unfold mergeArgs, closeArgs, repoFlag. cbn.
      change (join "/" [o; n]) with (o +:+ "/" +:+ n) in Hjoin. rewrite Hjoin. auto.
    + split; [reflexivity|]. split; [intros name [= <-]; reflexivity|]. discriminate.
Qed.

Lemma detectPR_first_listed_witness :
  ∃ pr, detectPR (replying [pr42; pr43] []) (ScmQueriesCases.onBranch (Some "feat/retries"))
          acmeApp = Some pr
        ∧ pr_number pr = 42
        ∧ repoFlag pr = "acme/app"
        ∧ mergeArgs pr method_squash
          = ["pr"; "merge"; "42"; "--repo"; "acme/app"; "--squash"; "--delete-branch"]
        ∧ detectPR (replying [pr42; pr43] []) (ScmQueriesCases.onBranch None) acmeApp = None.
Proof.
  destruct (detectPR_first_listed (replying [pr42; pr43] [])
              (ScmQueriesCases.onBranch (Some "feat/retries")) acmeApp) as [_ Hsome].
  destruct (detectPR_first_listed (replying [pr42; pr43] [])
              (ScmQueriesCases.onBranch None) acmeApp) as [Hnone _].
  destruct (Hsome "feat/retries" eq_refl eq_refl)
    as (pr & Hpr & Hnum & _ & _ & _ & _ & _ & _ & _ & Hrepo).
  exists pr. split; [exact Hpr|].
  destruct (Hrepo eq_refl) as [Hflag _].
  split; [exact Hnum|]. split; [exact Hflag|].
  split; [injection Hpr as <-; reflexivity|].
  apply Hnone. reflexivity.
Defined.

(** The two review reasons among the blockers: each is present exactly
    for its decision. *)
Lemma review_blockers (data : PRView) (ciStatus : CIStatus) :
  ("Changes requested in review" ∈ blockers (readiness data ciStatus)
   ↔ toUpperCase (default EmptyString (view_reviewDecision data)) = "CHANGES_REQUESTED")
  ∧ ("Review required" ∈ blockers (readiness data ciStatus)
     ↔ toUpperCase (default EmptyString (view_reviewDecision data)) = "REVIEW_REQUIRED").
Proof.
  rewrite ScmGithubProps.readiness_blockers.
  unfold reviewBlocker, conflictBlocker, draftBlocker.
  generalize (toUpperCase (default EmptyString (view_reviewDecision data))). intros d.
  generalize (toUpperCase (default EmptyString (view_mergeable data))). intros m.
  destruct ciStatus; repeat case_bool_decide; destruct (view_isDraft data);
    cbn [ciBlocker app];
    (split; split; [intros Hin | intros Hd | intros Hin | intros Hd]);
    subst; try congruence; try discriminate;
    try (repeat (apply elem_of_cons in Hin as [Hin | Hin]; [discriminate Hin|]);
         apply elem_of_nil in Hin as []);
    try (repeat (first [apply list_elem_of_here | apply list_elem_of_further])).
Qed.

(** X10. When the review decision that [getReviewDecision] reads is the one
    [getMergeability] reads, the two agree: the decision is "approved"
    exactly when the readiness says approved, "changes_requested" exactly
    when "Changes requested in review" is a blocker, "pending" exactly when
    "Review required" is a blocker, and "none" exactly when the readiness
    is not approved and has neither blocker. *)
Theorem review_decision_agrees_with_readiness
    (gh : GitHub) (q : Replies) (pr : PRInfo) (data : PRView) :
  gh_pr_view_mergeability gh pr = GhOk data →
  gh_pr_view_reviewDecision q pr = GhOk (view_reviewDecision data) →
  ∃ d r,
    getReviewDecision q pr = Returned d
    ∧ getMergeability gh pr = Returned r
    ∧ (d = rd_approved ↔ approved r = true)
    ∧ (d = rd_changes_requested ↔ "Changes requested in review" ∈ blockers r)
    ∧ (d = rd_pending ↔ "Review required" ∈ blockers r)
    ∧ (d = rd_none
       ↔ approved r = false
         ∧ ("Changes requested in review" ∉ blockers r)
         ∧ ("Review required" ∉ blockers r)).
Proof.
  intros Hview Hdecision.
  unfold getReviewDecision, getMergeability. rewrite Hview, Hdecision.
  destruct (review_blockers data (getCISummary gh pr)) as [Hchanges Hrequired].
  assert (approved (readiness data (getCISummary gh pr)) = true
          ↔ toUpperCase (default EmptyString (view_reviewDecision data)) = "APPROVED")
    as Happroved by (unfold readiness; cbn [approved]; apply bool_decide_eq_true).
  revert Hchanges Hrequired Happroved.
  generalize (readiness data (getCISummary gh pr)). intros r.
  generalize (toUpperCase (default EmptyString (view_reviewDecision data))). intros d.
  intros Hchanges Hrequired Happroved.
  assert (approved r = false ↔ d ≠ "APPROVED") as Hnot.
  { rewrite <- Happroved. destruct (approved r); split; congruence. }
  repeat case_bool_decide; eexists _, r;
    (split; [reflexivity|]); (split; [reflexivity|]);
    rewrite Hchanges, Hrequired, Happroved, Hnot;
    subst; intuition (congruence || discriminate).
Qed.

Lemma review_decision_agrees_with_readiness_witness :
  ∃ d r,
    getReviewDecision (replying [pr42] []) ScmGithubCases.somePR = Returned d
    ∧ getMergeability ScmGithubCases.readyPR ScmGithubCases.somePR = Returned r
    ∧ d = rd_approved ∧ approved r = true.
Proof.
  destruct (review_decision_agrees_with_readiness ScmGithubCases.readyPR
              (replying [pr42] []) ScmGithubCases.somePR _ eq_refl eq_refl)
    as (d & r & Hd & Hr & Happroved & _).
  exists d, r. split; [exact Hd|]. split; [exact Hr|].
  injection Hd as <-. split; [reflexivity|]. apply Happroved. reflexivity.
Defined.



(** The filter by ids seen so far keeps the first comment of every id that
    was not seen before, and nothing else. *)
Lemma uniqueById_spec (comments : list RawComment) :
  ∀ seen : list Z,
    NoDup (comment_id <$> uniqueById seen comments)
    ∧ (∀ c, c ∈ uniqueById seen comments → c ∈ comments ∧ comment_id c ∉ seen)
    ∧ (∀ c, c ∈ comments →
         comment_id c ∈ seen
         ∨ comment_id c ∈ (comment_id <$> uniqueById seen comments)).
Proof.
  induction comments as [|c0 comments IH]; intros seen; cbn [uniqueById].
  - split; [constructor|]. split; intros c Hc; apply elem_of_nil in Hc as [].
  - case_bool_decide as Hseen.
    + destruct (IH seen) as (Hnodup & Hin & Hall).
      split; [exact Hnodup|]. split.
      * intros c Hc. destruct (Hin c Hc). split; [right|]; assumption.
      * intros c [-> | Hc]%elem_of_cons; [left; exact Hseen | apply Hall, Hc].
    + destruct (IH (comment_id c0 :: seen)) as (Hnodup & Hin & Hall).
      split; [|split].
      * cbn [fmap list_fmap]. constructor; [|exact Hnodup].
        intros (c & Hid & Hc)%list_elem_of_fmap.
        destruct (Hin c Hc) as [_ Hnot]. apply Hnot. rewrite <- Hid. left.
      * intros c [-> | Hc]%elem_of_cons.
        -- split; [left | exact Hseen].
        -- destruct (Hin c Hc) as [Hmem Hnot]. split; [right; exact Hmem|].
           intros Hs. apply Hnot. right. exact Hs.
      * intros c [-> | Hc]%elem_of_cons.
        -- right. cbn [fmap list_fmap]. left.
        -- destruct (Hall c Hc) as [[-> | Hs]%elem_of_cons | Hkept].
           ++ right. cbn [fmap list_fmap]. left.
           ++ left. exact Hs.
           ++ right. cbn [fmap list_fmap]. right. exact Hkept.
Qed.

Lemma automated_ids (l : list RawComment) :
  ac_id <$> (toAutomatedComment <$> l) = pretty <$> (comment_id <$> l).
Proof. rewrite <- !list_fmap_compose. reflexivity. Qed.

(** A fetched comment of a known bot is among the automated comments. *)
Lemma bot_comment_reported (gh : Replies) (pr : PRInfo)
    (comments : list RawComment) (c : RawComment) :
  gh_api_comments gh pr = GhOk comments →
  c ∈ comments → isBot (comment_login c) = true →
  pretty (comment_id c) ∈ (ac_id <$> getAutomatedComments gh pr).
Proof.
  intros Hcomments Hc Hbot. unfold getAutomatedComments. rewrite Hcomments.
  destruct (uniqueById_spec (allBotComments gh pr comments) []) as (_ & _ & Hall).
  rewrite automated_ids. apply list_elem_of_fmap_2.
  destruct (Hall c) as [Hnil | Hkept]; [|apply elem_of_nil in Hnil as [] | exact Hkept].
  unfold allBotComments. apply elem_of_app. left.
  apply list_elem_of_In, filter_In. split; [apply list_elem_of_In, Hc | exact Hbot].
Qed.

(** The loop over the reviews gathers, after what it starts with, the
    comments listed under the reviews of known bots. *)
Lemma botReviewCommentsOf_spec (gh : Replies) (pr : PRInfo)
    (reviews : list RawReview) :
  ∀ (acc : list RawComment) (c : RawComment),
    c ∈ botReviewCommentsOf gh pr reviews acc
    ↔ c ∈ acc
      ∨ ∃ review underReview,
          review ∈ reviews ∧ isBot (review_login review) = true
          ∧ gh_api_review_comments gh pr (review_id review) = GhOk underReview
          ∧ c ∈ underReview.
Proof.
  induction reviews as [|review reviews IH]; intros acc c; cbn [botReviewCommentsOf].
  - split; [auto|]. intros [Hc | (review & rc & []%elem_of_nil & _)]. exact Hc.
  - destruct (isBot (review_login review)) eqn:Hbot; cbn [negb].
    + destruct (gh_api_review_comments gh pr (review_id review)) as [rc|e] eqn:Hfetch.
      * rewrite IH, elem_of_app. split.
        -- intros [[Hc | Hc] | (r & u & Hr & Hb & Hf & Hc)]; [auto | right | right].
           ++ exists review, rc. split; [left|]. auto.
           ++ exists r, u. split; [right; exact Hr|]. auto.
        -- intros [Hc | (r & u & [-> | Hr]%elem_of_cons & Hb & Hf & Hc)]; [auto | |].
           ++ rewrite Hfetch in Hf. injection Hf as <-. auto.
           ++ right. exists r, u. auto.
      * rewrite IH. split.
        -- intros [Hc | (r & u & Hr & Hb & Hf & Hc)]; [auto | right].
           exists r, u. split; [right; exact Hr|]. auto.
        -- intros [Hc | (r & u & [-> | Hr]%elem_of_cons & Hb & Hf & Hc)]; [auto | |].
           ++ rewrite Hfetch in Hf. discriminate.
           ++ right. exists r, u. auto.
    + rewrite IH. split.
      * intros [Hc | (r & u & Hr & Hb & Hf & Hc)]; [auto | right].
        exists r, u. split; [right; exact Hr|]. auto.
      * intros [Hc | (r & u & [-> | Hr]%elem_of_cons & Hb & Hf & Hc)]; [auto | |].
        -- rewrite Hbot in Hb. discriminate.
        -- right. exists r, u. auto.
Qed.

Lemma allBotComments_gathered (gh : Replies) (pr : PRInfo)
    (comments : list RawComment) (c : RawComment) :
  c ∈ allBotComments gh pr comments ↔ gathered gh pr comments c.
Proof.
  unfold allBotComments, gathered. rewrite elem_of_app.
  assert (c ∈ List.filter (fun c => isBot (comment_login c)) comments
          ↔ c ∈ comments ∧ isBot (comment_login c) = true) as ->.
  { rewrite list_elem_of_In, filter_In, <- list_elem_of_In. reflexivity. }
  destruct (gh_api_reviews gh pr) as [reviews|e].
  - rewrite botReviewCommentsOf_spec. split.
    + intros [Hc | [[]%elem_of_nil | (r & u & Hr & Hb & Hf & Hc)]]; [auto|].
      right. exists reviews, r, u. auto.
    + intros [Hc | (reviews' & r & u & [= <-] & Hr & Hb & Hf & Hc)]; [auto|].
      right. right. exists r, u. auto.
  - split.
    + intros [Hc | []%elem_of_nil]. auto.
    + intros [Hc | (reviews' & r & u & [=] & _)]. auto.
Qed.

(** X11. [getAutomatedComments] reports no number of a comment twice. What
    it reports are comments it gathered: the comments of the pull request
    written by a known bot, and every comment listed under a review
    written by a known bot, whoever wrote that comment; of every number
    gathered one comment is reported. A failing comments query gives the
    empty list. *)
Theorem getAutomatedComments_unique (gh : Replies) (pr : PRInfo) :
  (∀ comments,
     gh_api_comments gh pr = GhOk comments →
     ∃ kept,
       getAutomatedComments gh pr = toAutomatedComment <$> kept
       ∧ NoDup (comment_id <$> kept)
       ∧ (∀ c, c ∈ kept → gathered gh pr comments c)
       ∧ (∀ c, gathered gh pr comments c →
               comment_id c ∈ (comment_id <$> kept)))
  ∧ (∀ e, gh_api_comments gh pr = GhFails e → getAutomatedComments gh pr = []).
Proof.
  unfold getAutomatedComments.
  destruct (gh_api_comments gh pr) as [comments|e0].
  - split; [|discriminate]. intros ? [= <-].
    destruct (uniqueById_spec (allBotComments gh pr comments) []) as (Hnodup & Hin & Hall).
    exists (uniqueById [] (allBotComments gh pr comments)).
    split; [reflexivity|]. split; [exact Hnodup|]. split.
    + intros c Hc. apply allBotComments_gathered, (Hin c Hc).
    + intros c Hc. apply allBotComments_gathered in Hc.
      destruct (Hall c Hc) as [[]%elem_of_nil | Hkept]. exact Hkept.
  - split; [discriminate|]. reflexivity.
Qed.

Lemma getAutomatedComments_unique_witness :
  ∃ kept,
    getAutomatedComments underBotReview ScmGithubCases.somePR = toAutomatedComment <$> kept
    ∧ NoDup (comment_id <$> kept)
    ∧ 8 ∈ (comment_id <$> kept)
    ∧ ac_botName <$> getAutomatedComments underBotReview ScmGithubCases.somePR
      = ["cursor[bot]"; "alice"].
Proof.
  destruct (getAutomatedComments_unique underBotReview ScmGithubCases.somePR)
    as [Hkept _].
  destruct (Hkept _ eq_refl) as (kept & Hrun & Hnodup & _ & Hall).
  exists kept. split; [exact Hrun|]. split; [exact Hnodup|]. split; [|reflexivity].
  apply (Hall (commentBy 8 "alice" (Some 7) "Not an issue")).
  right. eexists _, {| review_id := 900; review_login := Some "cursor[bot]" |}, _.
  split; [reflexivity|]. split; [left|]. split; [reflexivity|].
  split; [reflexivity|]. right. left.
Defined.

(** X12. [getPendingComments] reports no comment of a known bot and marks
    none as resolved; every top-level comment of the pull request is
    reported by one of the two functions, by [getPendingComments] when a
    person wrote it and by [getAutomatedComments] when a bot did; a failing
    query gives the empty list. *)
Theorem getPendingComments_people_only (gh : Replies) (pr : PRInfo) :
  (∀ r, r ∈ getPendingComments gh pr →
        (rc_author r ∉ BOT_AUTHORS) ∧ rc_isResolved r = false)
  ∧ (∀ comments c,
       gh_api_comments gh pr = GhOk comments →
       c ∈ comments → truthyNum (comment_in_reply_to_id c) = false →
       if isBot (comment_login c)
       then pretty (comment_id c) ∈ (ac_id <$> getAutomatedComments gh pr)
       else toReviewComment c ∈ getPendingComments gh pr)
  ∧ (∀ e, gh_api_comments gh pr = GhFails e → getPendingComments gh pr = []).
Proof.
  split; [|split].
  - unfold getPendingComments. destruct (gh_api_comments gh pr) as [comments|e];
      [|intros r Hr; apply elem_of_nil in Hr as []].
    intros r (c & -> & Hc)%list_elem_of_fmap.
    apply list_elem_of_In, filter_In in Hc as [_ Hkeep].
    apply andb_prop in Hkeep as [_ Hhuman]. apply negb_true_iff in Hhuman.
    split; [|reflexivity]. unfold isBot in Hhuman.
    apply bool_decide_eq_false in Hhuman. cbn [toReviewComment rc_author].
    destruct (comment_login c) as [login|]; [exact Hhuman|].
    apply (bool_decide_eq_false_1 ("unknown" ∈ BOT_AUTHORS)). reflexivity.
  - intros comments c Hcomments Hc Htop.
    destruct (isBot (comment_login c)) eqn:Hbot.
    + exact (bot_comment_reported gh pr comments c Hcomments Hc Hbot).
    + unfold getPendingComments. rewrite Hcomments.
      apply list_elem_of_fmap_2, list_elem_of_In, filter_In.
      split; [apply list_elem_of_In, Hc|]. rewrite Htop, Hbot. reflexivity.
  - intros e He. unfold getPendingComments. rewrite He. reflexivity.
Qed.

Lemma getPendingComments_people_only_witness :
  rc_id <$> getPendingComments (replying [pr42] someComments) ScmGithubCases.somePR
  = ["1"]
  ∧ toReviewComment (commentBy 1 "alice" None "Please rename this")
    ∈ getPendingComments (replying [pr42] someComments) ScmGithubCases.somePR.
Proof.
  split; [reflexivity|].
  destruct (getPendingComments_people_only (replying [pr42] someComments)
              ScmGithubCases.somePR) as (_ & Hkept & _).
  apply (Hkept someComments (commentBy 1 "alice" None "Please rename this") eq_refl).
  - apply list_elem_of_here.
  - reflexivity.
Defined.

End ScmQueriesProps.

(** ** White space, [trim] and the activity read off the terminal *)

Module TrimProps.
Import JsString Readers Runtime.

Lemma rev_append (a b : string) :
  String.rev (a +:+ b) = String.rev b +:+ String.rev a.
Proof.
  induction a as [|c a IH].
  - rewrite EscapeProps.app_nil_l, EscapeProps.app_nil_r. reflexivity.
  - rewrite EscapeProps.app_cons. unfold String.rev at 1 3. cbn [String.rev_app].
    rewrite !ScmQueriesProps.rev_app_spec, IH, EscapeProps.app_assoc. reflexivity.
Qed.

Lemma rev_involutive (s : string) : String.rev (String.rev s) = s.
Proof.
  induction s as [|c s IH]; [reflexivity|].
  unfold String.rev at 2. cbn [String.rev_app].
  rewrite ScmQueriesProps.rev_app_spec, rev_append, IH. reflexivity.
Qed.

Lemma rev_empty (s : string) : String.rev s = EmptyString → s = EmptyString.
Proof. intros H. rewrite <- (rev_involutive s), H. reflexivity. Qed.

Lemma joined_app (front back : list string) :
  joined (front ++ back) = joined front +:+ joined back.
Proof.
  induction front as [|w front IH]; [reflexivity|].
  cbn [app joined foldr]. fold (joined (front ++ back)). fold (joined front).
  rewrite IH, EscapeProps.app_assoc. reflexivity.
Qed.

Lemma whiteSpaceOnly_empty : whiteSpaceOnly EmptyString.
Proof. exists []. split; [constructor | reflexivity]. Qed.

Lemma whiteSpaceOnly_character (w : string) : w ∈ whiteSpace → whiteSpaceOnly w.
Proof.
  intros Hw. exists [w]. split; [constructor; [exact Hw | constructor]|].
  cbn. rewrite EscapeProps.app_nil_r. reflexivity.
Qed.

Lemma whiteSpaceOnly_app (a b : string) :
  whiteSpaceOnly a → whiteSpaceOnly b → whiteSpaceOnly (a +:+ b).
Proof.
  intros (wa & Hwa & ->) (wb & Hwb & ->). exists (wa ++ wb)%list.
  split; [apply Forall_app; auto | symmetry; apply joined_app].
Qed.

(** What [stripStart] removes is made of characters that [unit] accepts. *)
Lemma stripStart_spec (unit : string -> bool) (s : string) :
  ∃ ws, Forall (λ w, unit w = true) ws ∧ s = joined ws +:+ stripStart unit s.
Proof.
  remember (String.length s) as n eqn:Hn. revert s Hn.
  induction n as [n IH] using lt_wf_ind. intros s Hn.
  assert (∀ s' w, (String.length s' < n)%nat → unit w = true →
            ∃ ws, Forall (λ w, unit w = true) ws
                  ∧ w +:+ s' = joined ws +:+ stripStart unit s') as Hstep.
  { intros s' w Hlen Hw. destruct (IH _ Hlen s' eq_refl) as (ws & Hws & Heq).
    exists (w :: ws). split; [constructor; assumption|].
    cbn [joined foldr]. fold (joined ws).
    rewrite EscapeProps.app_assoc, <- Heq. reflexivity. }
  assert (∃ ws, Forall (λ w, unit w = true) ws ∧ s = joined ws +:+ s) as Hstop
    by (exists []; split; [constructor | reflexivity]).
  destruct s as [|a s1]; [exact Hstop|]. cbn [stripStart].
  destruct (unit (String a EmptyString)) eqn:H1.
  { apply (Hstep s1 (String a EmptyString)); [cbn in Hn; lia | exact H1]. }
  destruct s1 as [|b s2]; [exact Hstop|].
  destruct (unit (String a (String b EmptyString))) eqn:H2.
  { apply (Hstep s2 (String a (String b EmptyString))); [cbn in Hn; lia | exact H2]. }
  destruct s2 as [|c s3]; [exact Hstop|].
  destruct (unit (String a (String b (String c EmptyString)))) eqn:H3; [|exact Hstop].
  apply (Hstep s3 (String a (String b (String c EmptyString))));
    [cbn in Hn; lia | exact H3].
Qed.

(** A white-space character at the start is removed, whatever follows. *)
Lemma trimStart_character (w rest : string) :
  w ∈ whiteSpace → trimStart (w +:+ rest) = trimStart rest.
Proof.
  unfold whiteSpace. intros Hw.
  repeat (apply elem_of_cons in Hw as [-> | Hw]; [reflexivity|]).
  apply elem_of_nil in Hw as [].
Qed.

Lemma trimStart_whiteSpaceOnly (s : string) :
  whiteSpaceOnly s → trimStart s = EmptyString.
Proof.
  intros (ws & Hws & ->). induction Hws as [|w ws Hw Hws IH]; [reflexivity|].
  cbn [joined foldr]. fold (joined ws). rewrite (trimStart_character _ _ Hw). exact IH.
Qed.

(** The bytes of a white-space character, reversed, reverse to it. *)
Lemma reversed_whiteSpaceOnly (ws : list string) :
  Forall (λ w, isWhiteSpace (String.rev w) = true) ws →
  whiteSpaceOnly (String.rev (joined ws)).
Proof.
  induction 1 as [|w ws Hw Hws IH]; [exact whiteSpaceOnly_empty|].
  cbn [joined foldr]. fold (joined ws). rewrite rev_append.
  apply whiteSpaceOnly_app; [exact IH|].
  apply whiteSpaceOnly_character. apply (bool_decide_eq_true_1 _ Hw).
Qed.

(** [trim] leaves nothing exactly of a text of white space only. *)
Lemma trim_whiteSpaceOnly (s : string) : trim s = EmptyString ↔ whiteSpaceOnly s.
Proof.
  split.
  - intros Htrim. unfold trim, trimEnd in Htrim. apply rev_empty in Htrim.
    destruct (stripStart_spec isWhiteSpace s) as (front & Hfront & Hs).
    destruct (stripStart_spec (fun w => isWhiteSpace (String.rev w))
                (String.rev (trimStart s))) as (back & Hback & Ht).
    fold (trimStart s) in Hs. rewrite Htrim, EscapeProps.app_nil_r in Ht.
    rewrite Hs. apply whiteSpaceOnly_app.
    + exists front. split; [|reflexivity].
      eapply Forall_impl; [exact Hfront|]. intros w Hw. apply (bool_decide_eq_true_1 _ Hw).
    + rewrite <- (rev_involutive (trimStart s)), Ht.
      apply reversed_whiteSpaceOnly, Hback.
  - intros Hs. unfold trim. rewrite (trimStart_whiteSpaceOnly _ Hs). reflexivity.
Qed.

Lemma truthy_trim (s : string) : truthy (trim s) = false ↔ whiteSpaceOnly s.
Proof.
  rewrite <- trim_whiteSpaceOnly. destruct (trim s); cbn [truthy]; split; congruence.
Qed.

(** X7. From the terminal output alone, the codex and opencode plugins tell
    "idle" exactly when the output is empty or made of white space only
    (the white space and line terminators of ECMAScript, the no-break
    space and the other Unicode spaces included), and "active" otherwise;
    they never tell "exited" from it, and they agree. *)
Theorem terminal_activity_idle_iff_blank (terminalOutput : string) :
  (CodexLaunch.detectActivity terminalOutput = st_idle ↔ whiteSpaceOnly terminalOutput)
  ∧ (CodexLaunch.detectActivity terminalOutput = st_active
     ↔ ¬ whiteSpaceOnly terminalOutput)
  ∧ OpencodeLaunch.detectActivity terminalOutput
    = CodexLaunch.detectActivity terminalOutput.
Proof.
  unfold CodexLaunch.detectActivity, OpencodeLaunch.detectActivity.
  pose proof (truthy_trim terminalOutput) as Hblank.
  destruct (truthy (trim terminalOutput)); cbn [negb].
  - split; [|split; [|reflexivity]].
    + split; [discriminate|]. intros Hws. apply Hblank in Hws. discriminate.
    + split; [|reflexivity]. intros _ Hws. apply Hblank in Hws. discriminate.
  - split; [|split; [|reflexivity]].
    + split; [intros _; apply Hblank; reflexivity | reflexivity].
    + split; [discriminate|]. intros Hnot. exfalso. apply Hnot, Hblank. reflexivity.
Qed.

(** A line feed and a no-break space are no activity; a prompt is. *)
Example terminal_activity_samples :
  CodexLaunch.detectActivity
    (String "010" (String "194" (String "160" (String "032" EmptyString)))) = st_idle
  ∧ OpencodeLaunch.detectActivity
      (String "226" (String "128" (String "168" (String "239" (String "187"
         (String "191" EmptyString)))))) = st_idle
  ∧ CodexLaunch.detectActivity (String "194" (String "160" "> ")) = st_active.
Proof. repeat split; reflexivity. Qed.

End TrimProps.

(** ** What the liveness checks do on the host *)

Module LivenessProps.
Import JsString Runtime CoreUtils AgentCases.

Ltac case_liveness host pane :=
  unfold isAgentProcessRunning, AgentAider.isProcessRunning, execFileAsync, processKill;
  destruct (inTmux pane) eqn:Htmux;
  [ destruct (run host "tmux" (listPanesArgs pane)) as [ttyOut|e|] eqn:Hpanes;
    cbn [bind tryCatch ret];
    [ try (destruct (length (paneTtys ttyOut) =? 0)%nat eqn:Hnone);
      try (destruct (negb (truthy (default EmptyString
                                     (split "010" (trim ttyOut) !! 0%nat)))) eqn:Hfirst);
      cbn [bind tryCatch ret];
      try (destruct (run host "ps" psArgs) as [psOut|e|] eqn:Hps;
           cbn [bind tryCatch ret])
    | | ]
  | destruct (finitePositive (toPid host (default JsUndefined (data pane !! "pid"))))
      eqn:Hpositive;
    [ destruct (toPid host (default JsUndefined (data pane !! "pid")))
        as [|neg|z|pos] eqn:Hpid;
      cbn [bind tryCatch ret];
      try (destruct (int32 z) eqn:Hint; cbn [bind tryCatch ret];
           try (destruct (probe host z) as [[m [code|]| |]|] eqn:Hprobe;
                cbn [bind tryCatch ret];
                try case_bool_decide))
    | cbn [bind tryCatch ret] ] ].

Ltac inspect_calls H :=
  cbn [snd app] in H;
  repeat (apply elem_of_cons in H as [H | H]; [try discriminate H; try (injection H as -> ->)|]);
  try (apply elem_of_nil in H as []).

(** X13. The shared liveness helper always answers, after at most two
    programs, each started with the time limit of 30 seconds; when [tmux]
    or [ps] fails or runs out of time for a tmux handle the answer is
    false. *)
Theorem isAgentProcessRunning_bounded (host : Host) (pane : RuntimeHandle)
    (processName : string) :
  ∃ (b : bool) (calls : list SysCall),
    isAgentProcessRunning host pane processName = (Returned b, calls)
    ∧ Forall timeBounded calls
    ∧ (length calls ≤ 2)%nat
    ∧ (inTmux pane = true →
       givesNothing (run host "tmux" (listPanesArgs pane))
       ∨ givesNothing (run host "ps" psArgs) →
       b = false).
Proof.
  case_liveness host pane;
    eexists _, _; (split; [reflexivity|]);
    (split; [repeat constructor|]); (split; [cbn; lia|]);
    intros Hin Hnothing; try discriminate; try reflexivity.
  all: destruct Hnothing as [[] | []].
Qed.

Lemma isAgentProcessRunning_bounded_witness :
  ∃ calls, isAgentProcessRunning psStalls tmuxHandle "codex" = (Returned false, calls)
           ∧ Forall timeBounded calls.
Proof.
  destruct (isAgentProcessRunning_bounded psStalls tmuxHandle "codex")
    as (b & calls & Hrun & Hbounded & _ & Hfalse).
  exists calls. rewrite Hrun, (Hfalse eq_refl); [auto|]. right. exact I.
Defined.

(** X14. Neither liveness check ever sends a signal other than the probe 0,
    and only to a pid that is finite and positive, and only for a handle
    that is not a tmux pane; for such a handle without a usable pid both
    answer false without any call that leaves the process. *)
Theorem liveness_probes_positive_pids_only (host : Host) (pane : RuntimeHandle)
    (processName : string) :
  (∀ pid signal,
     ProcessKill pid signal ∈ (isAgentProcessRunning host pane processName).2
     ∨ ProcessKill pid signal ∈ (AgentAider.isProcessRunning host pane).2 →
     finitePositive pid = true ∧ signal = 0 ∧ inTmux pane = false)
  ∧ (inTmux pane = false →
     finitePositive (toPid host (default JsUndefined (data pane !! "pid"))) = false →
     isAgentProcessRunning host pane processName = (Returned false, [])
     ∧ AgentAider.isProcessRunning host pane = (Returned false, [])).
Proof.
  split.
  - intros pid signal [Hcall | Hcall]; revert Hcall;
      case_liveness host pane; intros Hcall; inspect_calls Hcall;
      try discriminate; repeat split; auto.
  - intros Htmux Hpid. unfold isAgentProcessRunning, AgentAider.isProcessRunning.
    rewrite Htmux, Hpid. split; reflexivity.
Qed.

Lemma liveness_probes_positive_pids_only_witness :
  isAgentProcessRunning othersProcess (processHandle 0) "aider" = (Returned false, [])
  ∧ AgentAider.isProcessRunning othersProcess (processHandle (-1)) = (Returned false, [])
  ∧ (isAgentProcessRunning othersProcess (processHandle 4242) "aider").2
    = [ProcessKill (JsInteger 4242) 0].
Proof.
  destruct (liveness_probes_positive_pids_only othersProcess (processHandle 0) "aider")
    as [_ H0].
  destruct (liveness_probes_positive_pids_only othersProcess (processHandle (-1)) "aider")
    as [_ H1].
  split; [apply H0; reflexivity|]. split; [apply H1; reflexivity|]. reflexivity.
Defined.


Lemma dropPrefix_Some (p s r : string) : dropPrefix p s = Some r ↔ s = p +:+ r.
Proof.
  revert s. induction p as [|a p IH]; intros s; cbn [dropPrefix].
  - split; [intros [= ->]; reflexivity | intros ->; reflexivity].
  - destruct s as [|b s]; [split; discriminate|].
    change (String a p +:+ r) with (String a (p +:+ r)).
    destruct (decide (a = b)) as [-> | Hab].
    + rewrite IH. split; [intros ->; reflexivity | intros [= ->]; reflexivity].
    + split; [discriminate | intros [= <- _]; contradiction].
Qed.

Lemma append_slash_cases (c : ascii) (pre0 dir : string) :
  String c pre0 = dir +:+ "/" →
  (pre0 = EmptyString ∧ c = "/"%char) ∨ ∃ dir', pre0 = dir' +:+ "/".
Proof.
  destruct dir as [|d dir].
  - intros [= -> ->]. left. auto.
  - change (String d dir +:+ "/") with (String d (dir +:+ "/")).
    intros [= -> ->]. right. eauto.
Qed.

(** The matcher finds the name at a boundary of the text it scans. *)
Lemma matchFrom_spec (name s : string) :
  ∀ boundary : bool,
    matchFrom name boundary s = true
    ↔ ∃ pre post,
        s = pre +:+ name +:+ post
        ∧ spaceOrEnd post = true
        ∧ ((pre = EmptyString ∧ boundary = true) ∨ ∃ dir, pre = dir +:+ "/").
Proof.
  induction s as [|c s IH]; intros boundary.
  - cbn [matchFrom]. rewrite orb_false_r. split.
    + intros [-> Hhere]%andb_prop.
      destruct (dropPrefix name EmptyString) as [after|] eqn:Hdrop; [|discriminate].
      apply dropPrefix_Some in Hdrop. exists EmptyString, after. auto.
    + intros (pre & post & Hs & Hpost & Hpre).
      destruct pre as [|x pre]; [|discriminate].
      destruct Hpre as [[_ ->] | [dir Hdir]]; [|destruct dir; discriminate].
      change (EmptyString +:+ name +:+ post) with (name +:+ post) in Hs.
      apply dropPrefix_Some in Hs. rewrite Hs. exact Hpost.
  - cbn [matchFrom]. split.
    + intros [[-> Hhere]%andb_prop | Hlater]%orb_true_iff.
      * destruct (dropPrefix name (String c s)) as [after|] eqn:Hdrop; [|discriminate].
        apply dropPrefix_Some in Hdrop. exists EmptyString, after. auto.
      * apply IH in Hlater as (pre & post & -> & Hpost & Hpre).
        exists (String c pre), post. split; [reflexivity|]. split; [exact Hpost|].
        right. destruct Hpre as [[-> Hc%bool_decide_eq_true] | [dir ->]].
        -- subst c. exists EmptyString. reflexivity.
        -- exists (String c dir). reflexivity.
    + intros (pre & post & Hs & Hpost & Hpre). apply orb_true_iff.
      destruct pre as [|x pre].
      * left. destruct Hpre as [[_ ->] | [dir Hdir]]; [|destruct dir; discriminate].
        change (EmptyString +:+ name +:+ post) with (name +:+ post) in Hs.
        apply dropPrefix_Some in Hs. rewrite Hs. exact Hpost.
      * right. change (String x pre +:+ name +:+ post)
          with (String x (pre +:+ name +:+ post)) in Hs.
        injection Hs as -> ->. apply IH. exists pre, post.
        split; [reflexivity|]. split; [exact Hpost|].
        destruct Hpre as [[Hnil _] | [dir Hdir]]; [discriminate|].
        destruct (append_slash_cases x pre dir Hdir) as [[-> ->] | Hdir'].
        -- left. split; [reflexivity | apply bool_decide_eq_true; reflexivity].
        -- right. exact Hdir'.
Qed.

(** X15. The test that the shared helper applies to the command of a [ps]
    line succeeds exactly when the process name occurs in it at the very
    start or right after a slash, and is followed by white space or by the
    end of the command. *)
Theorem processRe_test_spec (processName args : string) :
  processRe_test processName args = true
  ↔ ∃ pre post,
      args = pre +:+ processName +:+ post
      ∧ (pre = EmptyString ∨ ∃ dir, pre = dir +:+ "/")
      ∧ (post = EmptyString
         ∨ ∃ c rest, post = String c rest ∧ Ascii.is_space c = true).
Proof.
  unfold processRe_test. rewrite matchFrom_spec. split.
  - intros (pre & post & Hs & Hpost & Hpre). exists pre, post.
    split; [exact Hs|]. split.
    + destruct Hpre as [[-> _] | Hdir]; auto.
    + destruct post as [|c rest]; [auto | right; eauto].
  - intros (pre & post & Hs & Hpre & Hpost). exists pre, post.
    split; [exact Hs|]. split.
    + destruct Hpost as [-> | (c & rest & -> & Hc)]; [reflexivity | exact Hc].
    + destruct Hpre as [-> | Hdir]; auto.
Qed.

End LivenessProps.

(** ** More on the webhook notifier *)

Module WebhookMoreProps.
Import JsString Core NotifierWebhook NotifierWebhookCases.


(** X17. A webhook notifier configured with a url and a negative retry
    count never sends anything: [notify], [notifyWithActions] and [post]
    each throw [undefined] and leave the wire untouched. *)
Theorem webhook_negative_retries_send_nothing
    (net : Network) (config : WebhookNotifierConfig) (target : string) (r : Z)
    (event : OrchestratorEvent) (actions : list NotifyAction)
    (msg : string) (context : option NotifyContext) (w : Wire) :
  cfg_url config = Some target →
  truthy target = true →
  cfg_retries config = Some r →
  r < 0 →
  let self := (create (Some config)).1 in
  notify net self event w = Some (Threw ThrownUndefined, w)
  ∧ notifyWithActions net self event actions w = Some (Threw ThrownUndefined, w)
  ∧ post net self msg context w = Some (Threw ThrownUndefined, w).
Proof.
  intros Hurl Htruthy Hretries Hneg self.
  unfold notify, notifyWithActions, post, deliver.
  subst self. cbn [create fst url retries mbind option_bind].
  rewrite Hurl, Hretries, Htruthy. cbn [negb default].
  rewrite !NotifierWebhookProps.postWithRetry_negative by exact Hneg.
  auto.
Qed.

Lemma webhook_negative_retries_send_nothing_witness :
  notify alwaysFails
    (create (Some {| cfg_url := Some "https://hooks.example.test/ao";
                     cfg_headers := None; cfg_retries := Some (-1);
                     cfg_retryDelayMs := None |})).1
    sampleEvent idle
  = Some (Threw ThrownUndefined, idle).
Proof.
  destruct (webhook_negative_retries_send_nothing alwaysFails
              {| cfg_url := Some "https://hooks.example.test/ao";
                 cfg_headers := None; cfg_retries := Some (-1);
                 cfg_retryDelayMs := None |}
              "https://hooks.example.test/ao" (-1) sampleEvent [] "hello" None idle)
    as (Hnotify & _); [reflexivity | reflexivity | reflexivity | lia |].
  exact Hnotify.
Defined.

End WebhookMoreProps.

(** ** The names and the exit status of [ao notify test] *)

Module NotifyActionProps.
Import JsString JsObject Core CliPlugins NotifyCommand NotifyCommandCases NotifyAction.

Lemma setAdd_spec (names : list string) (n : string) :
  (NoDup names → NoDup (setAdd names n))
  ∧ (∀ x, x ∈ setAdd names n ↔ x ∈ names ∨ x = n).
Proof.
  unfold setAdd. case_bool_decide as Hin.
  - split; [auto|]. intros x. split; [auto|]. intros [Hx | ->]; assumption.
  - split.
    + intros Hnodup. apply NoDup_app. split; [exact Hnodup|]. split.
      * intros x Hx [-> | []%elem_of_nil]%elem_of_cons. contradiction.
      * apply NoDup_singleton.
    + intros x. rewrite elem_of_app, list_elem_of_singleton. reflexivity.
Qed.

Lemma addAll_spec (items : list string) :
  ∀ names : list string,
    (NoDup names → NoDup (addAll names items))
    ∧ (∀ x, x ∈ addAll names items ↔ x ∈ names ∨ x ∈ items).
Proof.
  unfold addAll. induction items as [|n items IH]; intros names; cbn [foldl].
  - split; [auto|]. intros x. rewrite elem_of_nil. tauto.
  - destruct (setAdd_spec names n) as [Hnodup Hmem].
    destruct (IH (setAdd names n)) as [Hnodup' Hmem'].
    split; [auto|]. intros x. rewrite Hmem', Hmem, elem_of_cons. tauto.
Qed.

Lemma addAll_lists_spec (lists : list (list string)) :
  ∀ names : list string,
    (NoDup names → NoDup (foldl addAll names lists))
    ∧ (∀ x, x ∈ foldl addAll names lists
            ↔ x ∈ names ∨ ∃ items, items ∈ lists ∧ x ∈ items).
Proof.
  induction lists as [|items lists IH]; intros names; cbn [foldl].
  - split; [auto|]. intros x. split; [auto|].
    intros [Hx | (items & []%elem_of_nil & _)]. exact Hx.
  - destruct (addAll_spec items names) as [Hnodup Hmem].
    destruct (IH (addAll names items)) as [Hnodup' Hmem'].
    split; [auto|]. intros x. rewrite Hmem', Hmem. split.
    + intros [[Hx | Hx] | (l & Hl & Hx)]; [auto | right | right].
      * exists items. split; [left | exact Hx].
      * exists l. split; [right; exact Hl | exact Hx].
    + intros [Hx | (l & [-> | Hl]%elem_of_cons & Hx)]; [auto | auto |].
      right. exists l. auto.
Qed.

(** A name that the routing or the defaults mention. *)
Lemma collectNames_spec (config : OrchestratorConfig) (notifierKeys : list string) :
  NoDup (collectNames config notifierKeys)
  ∧ (∀ x, x ∈ collectNames config notifierKeys
          ↔ (∃ items, items ∈ (snd <$> notificationRouting config) ∧ x ∈ items)
            ∨ x ∈ defaults_notifiers (defaults config)
            ∨ ((∀ items, items ∈ (snd <$> notificationRouting config) → items = [])
               ∧ defaults_notifiers (defaults config) = []
               ∧ x ∈ notifierKeys)).
Proof.
  unfold collectNames.
  destruct (addAll_lists_spec (snd <$> ownEntries (notificationRouting config)) [])
    as [Hn1 Hm1].
  destruct (addAll_spec (defaults_notifiers (defaults config))
              (foldl addAll [] (snd <$> ownEntries (notificationRouting config))))
    as [Hn2 Hm2].
  specialize (Hn2 (Hn1 (NoDup_nil_2))).
  assert (∀ x, (∃ items, items ∈ (snd <$> ownEntries (notificationRouting config))
                         ∧ x ∈ items)
               ↔ ∃ items, items ∈ (snd <$> notificationRouting config) ∧ x ∈ items)
    as Hvalues.
  { intros x. split; intros (items & Hitems & Hx); exists items;
      (split; [apply JsObjectProps.ownEntries_values, Hitems | exact Hx]). }
  set (names := addAll _ (defaults_notifiers (defaults config))) in *.
  assert (∀ x, x ∈ names
               ↔ (∃ items, items ∈ (snd <$> notificationRouting config) ∧ x ∈ items)
                 ∨ x ∈ defaults_notifiers (defaults config)) as Hm.
  { intros x. rewrite Hm2, Hm1, Hvalues, elem_of_nil. tauto. }
  destruct (length names =? 0)%nat eqn:Hlen.
  - apply Nat.eqb_eq, nil_length_inv in Hlen.
    destruct (addAll_spec notifierKeys names) as [Hn3 Hm3].
    split; [auto|]. intros x. rewrite Hm3, Hm.
    assert (∀ y, ¬ ((∃ items, items ∈ (snd <$> notificationRouting config) ∧ y ∈ items)
                    ∨ y ∈ defaults_notifiers (defaults config))) as Hnone.
    { intros y Hy. apply Hm in Hy. rewrite Hlen in Hy. apply elem_of_nil in Hy as []. }
    assert (∀ items, items ∈ (snd <$> notificationRouting config) → items = [])
      as Hempty.
    { intros items Hitems. destruct items as [|y items]; [reflexivity|].
      exfalso. apply (Hnone y). left. exists (y :: items). split; [exact Hitems | left]. }
    assert (defaults_notifiers (defaults config) = []) as Hdefaults.
    { destruct (defaults_notifiers (defaults config)) as [|y l]; [reflexivity|].
      exfalso. apply (Hnone y). right. left. }
    specialize (Hnone x). tauto.
  - split; [exact Hn2|]. intros x. rewrite Hm. split; [tauto|].
    intros [Hx | [Hx | (Hempty & Hdefaults & _)]]; [auto | auto |].
    exfalso. destruct names as [|y names'] eqn:Hnames; [discriminate|].
    assert (y ∈ y :: names') as Hy by left. apply Hm in Hy.
    destruct Hy as [(items & Hitems & Hy) | Hy].
    + rewrite (Hempty items Hitems) in Hy. apply elem_of_nil in Hy as [].
    + rewrite Hdefaults in Hy. apply elem_of_nil in Hy as [].
Qed.

(** What [config.notifiers[name]] finds: something exactly for a
    configured name and for a name that every object inherits. *)
Lemma notifierConfigAt_found (config : OrchestratorConfig) (name : string) :
  is_Some (notifierConfigAt config name)
  ↔ is_Some (notifiers config !! name) ∨ name ∈ prototypeKeys.
Proof.
  unfold notifierConfigAt, property, inherited.
  destruct (notifiers config !! name) as [c|].
  - split; [intros _; left; eauto | intros _; eauto].
  - case_bool_decide as Hin.
    + split; [intros _; right; exact Hin | intros _; eauto].
    + split; [intros [x [=]] | intros [[x [=]] | Hin']; contradiction].
Qed.


(** With a filter, [resolveNotifierNames] answers that name when
    [config.notifiers] has something under it and throws otherwise. *)
Lemma resolveNotifierNames_filter (config : OrchestratorConfig)
    (notifierKeys : list string) (name : string) :
  truthy name = true →
  (is_Some (notifiers config !! name) ∨ name ∈ prototypeKeys →
   resolveNotifierNames config notifierKeys (Some name) = inr [name])
  ∧ (notifiers config !! name = None → name ∉ prototypeKeys →
     ∃ e, resolveNotifierNames config notifierKeys (Some name) = inl e
          ∧ includes name (errorMessage e) = true).
Proof.
  intros Htruthy.
  pose proof (notifierConfigAt_found config name) as Hfound.
  unfold resolveNotifierNames. cbn [truthyOpt default]. unfold id. rewrite Htruthy.
  destruct (notifierConfigAt config name) as [c|] eqn:Hat.
  - split; [reflexivity|]. intros Hown Hinherited. exfalso.
    destruct (proj1 Hfound (ltac:(eauto))) as [[x Hx] | Hin]; [congruence | contradiction].
  - split.
    + intros Hsome. apply Hfound in Hsome as [x [=]].
    + intros _ _. eexists. split; [reflexivity|]. unfold newError. cbn [errorMessage].
      apply (ResolutionProps.includes_infix ("Unknown notifier: " +:+ dquote) name).
Qed.

(** X18. [resolveNotifierNames] never returns a name twice. With a filter
    it returns that one name when [config.notifiers] has something under
    it, which is so for a configured name and also for a name that every
    object inherits from [Object.prototype]; otherwise it throws an error
    that tells the name. Without a filter it returns exactly the names of
    the routing lists and of the defaults, or, when those mention none, the
    configured names. *)
Theorem resolveNotifierNames_spec (config : OrchestratorConfig)
    (notifierKeys : list string) (filterName : option string) :
  (∀ names, resolveNotifierNames config notifierKeys filterName = inr names →
            NoDup names)
  ∧ (∀ name, filterName = Some name → truthy name = true →
       (is_Some (notifiers config !! name) ∨ name ∈ prototypeKeys →
        resolveNotifierNames config notifierKeys filterName = inr [name])
       ∧ (notifiers config !! name = None → name ∉ prototypeKeys →
          ∃ e, resolveNotifierNames config notifierKeys filterName = inl e
               ∧ includes name (errorMessage e) = true))
  ∧ (truthyOpt filterName = false →
     resolveNotifierNames config notifierKeys filterName
     = inr (collectNames config notifierKeys)
     ∧ ∀ x, x ∈ collectNames config notifierKeys
            ↔ (∃ items, items ∈ (snd <$> notificationRouting config) ∧ x ∈ items)
              ∨ x ∈ defaults_notifiers (defaults config)
              ∨ ((∀ items, items ∈ (snd <$> notificationRouting config) → items = [])
                 ∧ defaults_notifiers (defaults config) = []
                 ∧ x ∈ notifierKeys)).
Proof.
  split; [|split].
  - unfold resolveNotifierNames. intros names. destruct (truthyOpt filterName).
    + destruct (notifierConfigAt config _); [|discriminate].
      intros [= <-]. apply NoDup_singleton.
    + intros [= <-]. apply collectNames_spec.
  - intros name -> Htruthy. apply resolveNotifierNames_filter, Htruthy.
  - unfold resolveNotifierNames. intros ->. split; [reflexivity | apply collectNames_spec].
Qed.

Lemma resolveNotifierNames_spec_witness :
  resolveNotifierNames someConfig ["hook"; "chat"; "pager"; "desk"] (Some "chat")
    = inr ["chat"]
  ∧ resolveNotifierNames someConfig ["hook"; "chat"; "pager"; "desk"]
      (Some "constructor") = inr ["constructor"]
  ∧ (∃ e, resolveNotifierNames someConfig ["hook"; "chat"; "pager"; "desk"]
            (Some "phantom") = inl e
          ∧ includes "phantom" (errorMessage e) = true)
  ∧ resolveNotifierNames someConfig ["hook"; "chat"; "pager"; "desk"] None
    = inr ["hook"; "chat"; "pager"; "phantom"; "desk"].
Proof.
  destruct (resolveNotifierNames_spec someConfig ["hook"; "chat"; "pager"; "desk"]
              (Some "chat")) as (_ & Hchat & _).
  destruct (resolveNotifierNames_spec someConfig ["hook"; "chat"; "pager"; "desk"]
              (Some "constructor")) as (_ & Hconstructor & _).
  destruct (resolveNotifierNames_spec someConfig ["hook"; "chat"; "pager"; "desk"]
              (Some "phantom")) as (_ & Hphantom & _).
  destruct (resolveNotifierNames_spec someConfig ["hook"; "chat"; "pager"; "desk"] None)
    as (_ & _ & Hall).
  split.
  { apply (Hchat "chat" eq_refl eq_refl). left. eexists. reflexivity. }
  split.
  { apply (Hconstructor "constructor" eq_refl eq_refl). right.
    apply (bool_decide_eq_true_1 ("constructor" ∈ prototypeKeys)). reflexivity. }
  split.
  { apply (Hphantom "phantom" eq_refl eq_refl); [reflexivity|].
    apply (bool_decide_eq_false_1 ("phantom" ∈ prototypeKeys)). reflexivity. }
  destruct (Hall eq_refl) as [-> _]. reflexivity.
Defined.






(** A [-n] name that the configuration only inherits is not refused: the
    command runs, its one line is a failure that tells the plugin
    undefined, and it ends without an exit status. *)
Example notifyTest_inherited_name :
  notifyTest working unreachable misconfigured working epoch
    (inr (someConfig, ["hook"; "chat"; "pager"; "desk"])) (Some "constructor") None
  = Returned
      {| ending := Done; notices := [SomeFailed];
         lines := [ LineFailPlugin "constructor"
                      ("Unknown notifier plugin: " +:+ dquote +:+ "undefined" +:+ dquote
                       +:+ ". Available: desktop, slack, webhook, composio") ] |}
  ∧ ∃ report,
      notifyTest working unreachable misconfigured working epoch
        (inr (someConfig, ["hook"; "chat"; "pager"; "desk"])) (Some "phantom") None
      = Returned report
      ∧ ending report = Exit 1.
Proof. split; [vm_compute; reflexivity|]. eexists. split; [vm_compute|]; reflexivity. Qed.

End NotifyActionProps.

(** ** The answers of the message route *)

Module WebRouteProps.
Import JsString Runtime CliPlugins WebRoute AgentCases ResolutionCases.

(** X20. The message route never throws: it answers with status 200, 400,
    404 or 500 (or waits for a call that does not settle). It answers 200
    with the success body only when the message is not empty, the session
    exists and has a runtime handle, its project is configured with a
    runtime, the registry has that runtime plugin, and the plugin's
    [sendMessage] was called with the handle and the message and
    returned. *)
Theorem POST_answers (request : Request) :
  (∀ e, POST request ≠ Threw e)
  ∧ (∀ r, POST request = Returned r →
       status r ∈ [200; 400; 404; 500]
       ∧ (status r = 200 ↔ body r = SuccessBody)
       ∧ (body r = SuccessBody →
          ∃ id message services session pane project name runtime,
            params_id request = Returned id
            ∧ request_message request = Returned (Some message)
            ∧ truthy message = true
            ∧ getServices request = Returned services
            ∧ sessionManager_get services id = Returned (Some session)
            ∧ runtimeHandle session = Some pane
            ∧ services_projects services !! projectId session = Some project
            ∧ project_runtime project = Some name
            ∧ registry_get services "runtime" name = inr (Some runtime)
            ∧ sendMessage runtime pane message = Returned tt)).
Proof.
  unfold POST, WebRoute.handle.
  destruct (params_id request) as [sid|e|] eqn:Hid; cbn [cbind];
    [|split; [discriminate | intros r [= <-]; cbn; split; [set_solver|];
                             split; [split; discriminate | discriminate]]
     |split; discriminate].
  destruct (request_message request) as [[message|]|e|] eqn:Hmsg; cbn [cbind truthyOpt negb].
  2,3: split; [discriminate | intros r [= <-]; cbn; split; [set_solver|];
                              split; [split; discriminate | discriminate]].
  2: split; discriminate.
  destruct (truthy message) eqn:Htruthy; cbn [negb].
  2: split; [discriminate | intros r [= <-]; cbn; split; [set_solver|];
                            split; [split; discriminate | discriminate]].
  destruct (getServices request) as [services|e|] eqn:Hserv; cbn [cbind].
  2: split; [discriminate | intros r [= <-]; cbn; split; [set_solver|];
                            split; [split; discriminate | discriminate]].
  2: split; discriminate.
  destruct (sessionManager_get services sid) as [[session|]|e|] eqn:Hsess; cbn [cbind].
  2,3: split; [discriminate | intros r [= <-]; cbn; split; [set_solver|];
                              split; [split; discriminate | discriminate]].
  2: split; discriminate.
  destruct (runtimeHandle session) as [pane|] eqn:Hpane.
  2: split; [discriminate | intros r [= <-]; cbn; split; [set_solver|];
                            split; [split; discriminate | discriminate]].
  destruct (services_projects services !! projectId session) as [project|] eqn:Hproj;
    cbn [JsObject.property].
  2: destruct (JsObject.inherited (projectId session));
       (split; [discriminate | intros r [= <-]; cbn; split; [set_solver|];
                               split; [split; discriminate | discriminate]]).
  destruct (project_runtime project) as [name|] eqn:Hrt; cbn [truthyOpt negb default].
  2: split; [discriminate | intros r [= <-]; cbn; split; [set_solver|];
                            split; [split; discriminate | discriminate]].
  destruct (truthy name); cbn [negb].
  2: split; [discriminate | intros r [= <-]; cbn; split; [set_solver|];
                            split; [split; discriminate | discriminate]].
  unfold id.
  destruct (registry_get services "runtime" name) as [e|[runtime|]] eqn:Hreg.
  1,3: split; [discriminate | intros r [= <-]; cbn; split; [set_solver|];
                              split; [split; discriminate | discriminate]].
  destruct (sendMessage runtime pane message) as [[]|e|] eqn:Hsend.
  2: split; [discriminate | intros r [= <-]; cbn; split; [set_solver|];
                            split; [split; discriminate | discriminate]].
  2: split; discriminate.
  split; [discriminate|]. intros r [= <-]. cbn. split; [set_solver|].
  split; [split; reflexivity|]. intros _.
  exists sid, message, services, session, pane, project, name, runtime.
  repeat split; assumption.
Qed.

Lemma POST_answers_witness :
  ∃ r, POST dockerRequest = Returned r ∧ status r ∈ [200; 400; 404; 500]
       ∧ body r ≠ SuccessBody.
Proof.
  destruct (POST_answers dockerRequest) as [_ Hr].
  eexists. split; [reflexivity|].
  destruct (Hr _ eq_refl) as (Hstatus & H200 & _).
  split; [exact Hstatus|]. intros Hbody. apply H200 in Hbody. discriminate.
Defined.

End WebRouteProps.

(** ** Desktop notifications and the project of a session *)

Module DesktopProps.
Import JsString Core Runtime PluginUtils Readers NotifierDesktop AgentCases.

(** X21. On a platform other than macOS and Linux the desktop notifier
    resolves without starting any program. On Linux it starts
    [notify-send] once with the title and the message, and with
    [--urgency=critical] exactly for an urgent event while sound is not
    switched off; the notification rejects with the error of a failed
    program. The dashboard url of the configuration has no influence on
    what is started. *)
Theorem desktop_notify_by_platform (host : Host) (os : string)
    (config : option DesktopNotifierConfig) (event : OrchestratorEvent) :
  let self := create config in
  (os ≠ "darwin" → os ≠ "linux" → notify host os self event = (Returned tt, []))
  ∧ (os = "linux" →
     let args := ([formatTitle event; ev_message event]
                  ++ (if bool_decide (ev_priority event = urgent)
                         && default true (config ≫= cfg_sound)
                      then ["--urgency=critical"] else []))%list in
     (notify host os self event).2 = [ExecFile "notify-send" args None]
     ∧ ∀ e, run host "notify-send" args = Fails e →
            (notify host os self event).1 = Threw e)
  ∧ (∀ config',
       config' ≫= cfg_sound = config ≫= cfg_sound →
       notify host os (create config') event = notify host os self event)
  ∧ (length (notify host os self event).2 ≤ 1)%nat.
Proof.
  intros self. unfold notify, sendNotification, execFilePromise, shouldPlaySound.
  subst self. cbn [create soundEnabled opt_sound].
  split; [|split; [|split]].
  - intros Hmac Hlinux. rewrite !bool_decide_eq_false_2 by assumption. reflexivity.
  - intros ->.
    rewrite (bool_decide_eq_false_2 ("linux" = "darwin")) by discriminate.
    rewrite (bool_decide_eq_true_2 ("linux" = "linux")) by reflexivity.
    unfold formatMessage. cbn.
    destruct (default true (config ≫= cfg_sound)); cbn; rewrite ?andb_true_r, ?andb_false_r.
    + destruct (bool_decide (ev_priority event = urgent)); cbn;
        (split; [destruct (run host _ _); reflexivity | intros e ->; reflexivity]).
    + split; [destruct (run host _ _); reflexivity | intros e ->; reflexivity].
  - intros config' ->. reflexivity.
  - repeat case_bool_decide; cbn; try lia;
      destruct (run host _ _); cbn; lia.
Qed.

Lemma desktop_notify_by_platform_witness :
  notify shellInPane "win32" (create None) NotifierWebhookCases.sampleEvent
    = (Returned tt, [])
  ∧ (notify shellInPane "linux" (create None) NotifierWebhookCases.sampleEvent).2
    = [ExecFile "notify-send"
         ["Agent Orchestrator [app-7]"; "Agent is waiting for input"] None].
Proof.
  destruct (desktop_notify_by_platform shellInPane "win32" None
              NotifierWebhookCases.sampleEvent) as (Hother & _).
  destruct (desktop_notify_by_platform shellInPane "linux" None
              NotifierWebhookCases.sampleEvent) as (_ & Hlinux & _).
  split; [apply Hother; discriminate|].
  destruct (Hlinux eq_refl) as [Hcalls _]. exact Hcalls.
Defined.

Lemma escapeAppleScript_cons (c : ascii) (s : string) :
  escapeAppleScript (String c s)
  = (if decide (c = backslash) then String backslash (String backslash EmptyString)
     else if decide (c = dquoteChar) then String backslash (String dquoteChar EmptyString)
     else String c EmptyString) +:+ escapeAppleScript s.
Proof.
  unfold escapeAppleScript. cbn [replaceAll].
  destruct (decide (c = backslash)) as [-> | Hbs].
  - rewrite EscapeProps.replaceAll_app. reflexivity.
  - cbn [replaceAll]. destruct (decide (c = dquoteChar)); reflexivity.
Qed.

(** On a text without control characters [JSON.stringify] escapes as
    [escapeAppleScript] does. *)
Lemma jsonChars_printable (s : string) :
  printable s = true → jsonChars s = escapeAppleScript s.
Proof.
  induction s as [|c s IH]; [reflexivity|].
  cbn [printable jsonChars]. intros [Hc Hs]%andb_prop.
  rewrite escapeAppleScript_cons, (IH Hs). f_equal.
  apply negb_true_iff, Nat.ltb_ge in Hc. unfold jsonChar.
  destruct (decide (c = dquoteChar)) as [-> | Hdq].
  { rewrite decide_False by discriminate. reflexivity. }
  destruct (decide (c = backslash)); [reflexivity|].
  repeat match goal with
         | |- context [(nat_of_ascii c =? ?k)%nat] =>
             destruct (Nat.eqb_spec (nat_of_ascii c) k); [lia|]
         end.
  destruct (Nat.ltb_spec (nat_of_ascii c) 32); [lia | reflexivity].
Qed.

(** What [JSON.stringify] puts between the quotes reads back in
    AppleScript as the text, when the text has no control character. *)
Lemma jsonChars_read (s : string) :
  printable s = true → appleScriptText (jsonChars s) = Some s.
Proof.
  intros Hs. rewrite (jsonChars_printable _ Hs). clear Hs.
  induction s as [|c s IH]; [reflexivity|].
  rewrite EscapeProps.escaped_char_read, IH. reflexivity.
Qed.

Lemma printable_app (a b : string) :
  printable (a +:+ b) = printable a && printable b.
Proof.
  induction a as [|c a IH]; [reflexivity|].
  change (String c a +:+ b) with (String c (a +:+ b)). cbn [printable].
  rewrite IH, andb_assoc. reflexivity.
Qed.

(** X22. On macOS, for an event whose message and session id have no
    control characters, the desktop notifier starts [osascript] once with
    a script of the form display notification "m" with title "t", where
    the two literals read back in AppleScript as the message and the
    title: quotes and backslashes of the event cannot leave the
    literals. *)
Theorem desktop_notify_macos_script (host : Host)
    (config : option DesktopNotifierConfig) (event : OrchestratorEvent) :
  printable (ev_message event) = true →
  printable (ev_sessionId event) = true →
  ∃ m t soundClause,
    (notify host "darwin" (create config) event).2
    = [ExecFile "osascript"
         ["-e"; "display notification " +:+ (dquote +:+ m +:+ dquote)
                +:+ " with title " +:+ (dquote +:+ t +:+ dquote) +:+ soundClause]
         None]
    ∧ appleScriptText m = Some (ev_message event)
    ∧ appleScriptText t = Some (formatTitle event)
    ∧ (soundClause = EmptyString
       ∨ soundClause = " sound name " +:+ dquote +:+ "default" +:+ dquote).
Proof.
  intros Hmessage Hsession.
  assert (printable (formatTitle event) = true) as Htitle.
  { unfold formatTitle. rewrite !printable_app, Hsession.
    case_bool_decide; reflexivity. }
  exists (jsonChars (ev_message event)), (jsonChars (formatTitle event)),
    (if shouldPlaySound (ev_priority event) (soundEnabled (create config))
     then " sound name " +:+ dquote +:+ "default" +:+ dquote else EmptyString).
  split; [|split; [|split]].
  - unfold notify, sendNotification, execFilePromise.
    rewrite (bool_decide_eq_true_2 ("darwin" = "darwin")) by reflexivity.
    destruct (run host _ _); reflexivity.
  - apply jsonChars_read, Hmessage.
  - apply jsonChars_read, Htitle.
  - destruct (shouldPlaySound _ _); auto.
Qed.

Lemma desktop_notify_macos_script_witness :
  ∃ m t soundClause,
    (notify shellInPane "darwin" (create None) NotifierWebhookCases.sampleEvent).2
    = [ExecFile "osascript"
         ["-e"; "display notification " +:+ (dquote +:+ m +:+ dquote)
                +:+ " with title " +:+ (dquote +:+ t +:+ dquote) +:+ soundClause]
         None]
    ∧ appleScriptText m = Some "Agent is waiting for input"
    ∧ appleScriptText t = Some "Agent Orchestrator [app-7]"
    ∧ (soundClause = EmptyString
       ∨ soundClause = " sound name " +:+ dquote +:+ "default" +:+ dquote).
Proof.
  apply (desktop_notify_macos_script shellInPane None NotifierWebhookCases.sampleEvent);
    reflexivity.
Defined.

End DesktopProps.

Module ProjectLookupProps.
Import JsString JsObject JsObjectProps CliPlugins ProjectLookup.

(** The loop answers the first entry whose prefix starts the name. *)
Lemma firstWithPrefix_spec (entries : list (string * ProjectConfig))
    (sessionName : string) :
  (firstWithPrefix entries sessionName = None
   ↔ ∀ entry, entry ∈ entries → startsWith (prefixOf entry) sessionName = false)
  ∧ (∀ id, firstWithPrefix entries sessionName = Some id →
       ∃ before project after,
         entries = (before ++ (id, project) :: after)%list
         ∧ startsWith (prefixOf (id, project)) sessionName = true
         ∧ ∀ entry, entry ∈ before → startsWith (prefixOf entry) sessionName = false)
  ∧ (∀ before id project after,
       entries = (before ++ (id, project) :: after)%list →
       startsWith (prefixOf (id, project)) sessionName = true →
       (∀ entry, entry ∈ before → startsWith (prefixOf entry) sessionName = false) →
       firstWithPrefix entries sessionName = Some id).
Proof.
  induction entries as [|[id0 project0] entries (IHnone & IHsome & IHfirst)];
    cbn [firstWithPrefix].
  - split; [split; [intros _ entry []%elem_of_nil | reflexivity]|].
    split; [discriminate|]. intros [|b before] id project after [=].
  - change (orElse (project_sessionPrefix project0) id0 +:+ "-")
      with (prefixOf (id0, project0)).
    destruct (startsWith (prefixOf (id0, project0)) sessionName) eqn:Hhere.
    + split; [|split].
      * split; [discriminate|]. intros Hall.
        rewrite (Hall (id0, project0)) in Hhere by left. discriminate.
      * intros id [= <-]. exists [], project0, entries.
        split; [reflexivity|]. split; [exact Hhere|]. intros entry []%elem_of_nil.
      * intros [|b before] id project after Heq Hmatch Hbefore.
        -- injection Heq as <- <- <-. reflexivity.
        -- injection Heq as <- ->. rewrite (Hbefore (id0, project0)) in Hhere by left.
           discriminate.
    + split; [|split].
      * rewrite IHnone. split.
        -- intros Hall entry [-> | Hin]%elem_of_cons; [exact Hhere | apply Hall, Hin].
        -- intros Hall entry Hin. apply Hall. right. exact Hin.
      * intros id Hfound.
        destruct (IHsome id Hfound) as (before & project & after & -> & Hmatch & Hbefore).
        exists ((id0, project0) :: before), project, after.
        split; [reflexivity|]. split; [exact Hmatch|].
        intros entry [-> | Hin]%elem_of_cons; [exact Hhere | apply Hbefore, Hin].
      * intros [|b before] id project after Heq Hmatch Hbefore.
        -- injection Heq as <- <- <-. congruence.
        -- injection Heq as <- ->. apply (IHfirst before id project after eq_refl Hmatch).
           intros entry Hin. apply Hbefore. right. exact Hin.
Qed.

(** X23. [findProjectForSession] answers [null] exactly when no project
    has a prefix ([sessionPrefix] or else the id, followed by a dash) that
    starts the session name. Otherwise it answers the first such project
    in the order of [Object.entries]: the projects whose id is an array
    index come first, in ascending order of the index, then the others in
    the order of the configuration; when no id is an array index this is
    the first such project of the configuration. *)
Theorem findProjectForSession_first_match
    (projects : list (string * ProjectConfig)) (sessionName : string) :
  (findProjectForSession projects sessionName = None
   ↔ ∀ entry, entry ∈ projects → startsWith (prefixOf entry) sessionName = false)
  ∧ (∃ indices,
       let named := List.filter (fun e => negb (isArrayIndex e.1)) projects in
       indices ≡ₚ List.filter (fun e => isArrayIndex e.1) projects
       ∧ StronglySorted indexLe indices
       ∧ ∀ id,
           findProjectForSession projects sessionName = Some id
           ↔ ∃ before project after,
               (indices ++ named)%list = (before ++ (id, project) :: after)%list
               ∧ startsWith (prefixOf (id, project)) sessionName = true
               ∧ ∀ entry, entry ∈ before →
                          startsWith (prefixOf entry) sessionName = false)
  ∧ (Forall (fun e => isArrayIndex e.1 = false) projects →
     ∀ before id project after,
       projects = (before ++ (id, project) :: after)%list →
       startsWith (prefixOf (id, project)) sessionName = true →
       (∀ entry, entry ∈ before → startsWith (prefixOf entry) sessionName = false) →
       findProjectForSession projects sessionName = Some id).
Proof.
  unfold findProjectForSession.
  destruct (firstWithPrefix_spec (ownEntries projects) sessionName)
    as (Hnone & Hsome & Hfirst).
  split; [|split].
  - rewrite Hnone. destruct (ownEntries_order projects) as [Hperm _].
    split; intros Hall entry Hin; apply Hall.
    + rewrite Hperm. exact Hin.
    + rewrite <- Hperm. exact Hin.
  - exists (merge_sort indexLe (List.filter (fun e => isArrayIndex e.1) projects)).
    split; [apply merge_sort_Permutation|].
    split; [apply StronglySorted_merge_sort; apply _|].
    intros id. split.
    + intros Hfound. exact (Hsome id Hfound).
    + intros (before & project & after & Heq & Hmatch & Hbefore).
      exact (Hfirst before id project after Heq Hmatch Hbefore).
  - intros Hnames. rewrite (ownEntries_names _ Hnames) in Hfirst |- *. exact Hfirst.
Qed.

Lemma findProjectForSession_first_match_witness :
  findProjectForSession
    [projectNamed "api" None; projectNamed "app" None; projectNamed "app-web" (Some "web")]
    "web-12" = Some "app-web".
Proof.
  destruct (findProjectForSession_first_match
              [projectNamed "api" None; projectNamed "app" None;
               projectNamed "app-web" (Some "web")] "web-12") as (_ & _ & Hfirst).
  apply (Hfirst ltac:(repeat constructor)
           [projectNamed "api" None; projectNamed "app" None]
           "app-web" (projectNamed "app-web" (Some "web")).2 []); [reflexivity.. |].
  intros entry [-> | [-> | []%elem_of_nil]%elem_of_cons]%elem_of_cons; reflexivity.
Defined.

(** With ids of which one extends the other, the order decides: a session
    of "app-web" is taken for one of "app" when "app" is listed first. An
    id that is an array index goes before the ids written before it: the
    session "7-1" of the project "web", whose prefix is "7", is taken for
    one of the project "7". *)
Example findProjectForSession_shadowed :
  findProjectForSession [projectNamed "app" None; projectNamed "app-web" None]
    "app-web-3" = Some "app"
  ∧ findProjectForSession [projectNamed "app-web" None; projectNamed "app" None]
      "app-web-3" = Some "app-web"
  ∧ findProjectForSession [projectNamed "web" (Some "7"); projectNamed "7" None]
      "7-1" = Some "7"
  ∧ ownEntries [projectNamed "web" None; projectNamed "10" None; projectNamed "2" None;
                projectNamed "02" None]
    = [projectNamed "2" None; projectNamed "10" None; projectNamed "web" None;
       projectNamed "02" None].
Proof. repeat split; vm_compute; reflexivity. Qed.

End ProjectLookupProps.

(** ** The last line of a file *)

Module LastLineProps.
Import JsString Readers LastLine.

Lemma substring_from_start (m : nat) (s : string) :
  String.substring 0 m s +:+ skip m s = s.
Proof.
  revert s. induction m as [|m IH]; intros [|c s]; cbn; try reflexivity.
  change (String c (substring 0 m s) +:+ skip m s)
    with (String c (substring 0 m s +:+ skip m s)).
  rewrite IH. reflexivity.
Qed.

Lemma substring_skip (n m : nat) (s : string) :
  String.substring n m s +:+ skip (n + m) s = skip n s.
Proof.
  revert s. induction n as [|n IH]; intros s.
  - apply substring_from_start.
  - destruct s as [|c s]; [destruct m; reflexivity|]. cbn. apply IH.
Qed.

Lemma substring_whole (s : string) : String.substring 0 (String.length s) s = s.
Proof. induction s as [|c s IH]; cbn; [reflexivity | rewrite IH; reflexivity]. Qed.

Lemma skip_length (n : nat) (s : string) :
  String.length (skip n s) = (String.length s - n)%nat.
Proof.
  revert s. induction n as [|n IH]; intros [|c s]; cbn; try lia. apply IH.
Qed.

Lemma lastNonBlank_app (front rest : list string) :
  lastNonBlank (front ++ rest)
  = match lastNonBlank rest with
    | Some found => Some found
    | None => lastNonBlank front
    end.
Proof.
  induction front as [|l front IH]; cbn [lastNonBlank app].
  - destruct (lastNonBlank rest); reflexivity.
  - rewrite IH. destruct (lastNonBlank rest); reflexivity.
Qed.

(** What [lastNonBlank] answers: the trimmed text of a line of which
    [trim] leaves something and after which it leaves nothing of any line;
    nothing when it leaves nothing of all. *)
Lemma lastNonBlank_spec (lines : list string) :
  (lastNonBlank lines = None ↔ Forall (λ l, truthy (trim l) = false) lines)
  ∧ (∀ found, lastNonBlank lines = Some found ↔
       ∃ before line after,
         lines = (before ++ line :: after)%list
         ∧ found = trim line ∧ truthy (trim line) = true
         ∧ Forall (λ l, truthy (trim l) = false) after).
Proof.
  induction lines as [|l lines [IHnone IHsome]]; cbn [lastNonBlank].
  - split; [split; [constructor | reflexivity]|].
    intros found. split; [discriminate|].
    intros (before & line & after & Heq & _). destruct before; discriminate.
  - destruct (lastNonBlank lines) as [x|] eqn:Hrest.
    + split.
      * split; [discriminate|]. intros Hall. apply Forall_cons in Hall as [_ Hall].
        apply IHnone in Hall. discriminate.
      * intros found. split.
        -- intros [= <-]. destruct (proj1 (IHsome x) eq_refl)
             as (before & line & after & -> & Hx & Hline & Hafter).
           exists (l :: before), line, after. auto.
        -- intros (before & line & after & Heq & Hx & Hline & Hafter).
           destruct before as [|b before]; cbn in Heq.
           ++ injection Heq as -> ->. apply IHnone in Hafter. discriminate.
           ++ injection Heq as -> ->. f_equal. symmetry.
              assert (Some found = Some x) as [= ->]; [|reflexivity].
              symmetry. apply IHsome. exists before, line, after. auto.
    + pose proof (proj1 IHnone eq_refl) as Hblank.
      destruct (truthy (trim l)) eqn:Hl.
      * split.
        -- split; [discriminate|]. intros Hall.
           apply Forall_cons in Hall as [Hall _]. congruence.
        -- intros found. split.
           ++ intros [= <-]. exists [], l, lines. auto.
           ++ intros (before & line & after & Heq & Hx & Hline & Hafter).
              destruct before as [|b before]; cbn in Heq.
              ** injection Heq as -> ->. subst found. reflexivity.
              ** injection Heq as -> ->.
                 apply Forall_app in Hblank as [_ Hblank].
                 apply Forall_cons in Hblank as [Hblank _]. congruence.
      * split; [split; [constructor; assumption | reflexivity]|].
        intros found. split; [discriminate|].
        intros (before & line & after & Heq & Hx & Hline & Hafter).
        assert (Forall (λ l0, truthy (trim l0) = false) (l :: lines)) as Hall
          by (constructor; assumption).
        rewrite Heq in Hall. apply Forall_app in Hall as [_ Hall].
        apply Forall_cons in Hall as [Hall _]. congruence.
Qed.

Lemma rev_cons (c : ascii) (cur : string) :
  String.rev (String c cur) = String.rev cur +:+ String c EmptyString.
Proof. unfold String.rev. cbn [String.rev_app]. apply ScmQueriesProps.rev_app_spec. Qed.

(** The text read before a piece began goes in front of the first piece. *)
Lemma splitGo_cur (sep : ascii) (cur s : string) :
  splitGo sep cur s
  = (String.rev cur +:+ hd EmptyString (split sep s)) :: tl (split sep s).
Proof.
  unfold split. revert cur. induction s as [|c s IH]; intros cur; cbn [splitGo].
  - cbn. rewrite EscapeProps.app_nil_r. reflexivity.
  - destruct (decide (c = sep)) as [-> | Hc].
    + cbn. rewrite EscapeProps.app_nil_r. reflexivity.
    + rewrite (IH (String c cur)), (IH (String c EmptyString)). cbn [hd tl].
      rewrite rev_cons, <- EscapeProps.app_assoc. reflexivity.
Qed.

(** The pieces of a text end with the pieces of each of its ends, the
    first one apart. *)
Lemma splitGo_app_tail (sep : ascii) (cur pre suf : string) :
  ∃ front, splitGo sep cur (pre +:+ suf) = (front ++ tl (split sep suf))%list.
Proof.
  revert cur. induction pre as [|c pre IH]; intros cur.
  - rewrite EscapeProps.app_nil_l, splitGo_cur. eexists [_]. reflexivity.
  - rewrite EscapeProps.app_cons. cbn [splitGo].
    destruct (decide (c = sep)).
    + destruct (IH EmptyString) as [front ->]. exists (String.rev cur :: front).
      reflexivity.
    + apply IH.
Qed.

Lemma whiteSpaceOnly_join (lines : list string) :
  Forall whiteSpaceOnly lines →
  whiteSpaceOnly (join (String newline EmptyString) lines).
Proof.
  induction 1 as [|l lines Hl Hall IH]; [exact TrimProps.whiteSpaceOnly_empty|].
  destruct lines as [|l' lines]; [exact Hl|].
  rewrite ScmQueriesProps.join_cons by discriminate.
  apply TrimProps.whiteSpaceOnly_app; [exact Hl|].
  apply TrimProps.whiteSpaceOnly_app; [|exact IH].
  apply TrimProps.whiteSpaceOnly_character. unfold whiteSpace, newline.
  right. left.
Qed.

(** When [trim] leaves nothing of any line, it leaves nothing of the file. *)
Lemma blank_lines (content : string) :
  lastNonBlank (split newline content) = None → truthy (trim content) = false.
Proof.
  intros Hnone. apply TrimProps.truthy_trim.
  rewrite <- (ScmQueriesProps.join_split newline content).
  apply whiteSpaceOnly_join. apply lastNonBlank_spec in Hnone.
  eapply Forall_impl; [exact Hnone|]. intros l Hl. apply TrimProps.truthy_trim, Hl.
Qed.

(** The scan answers the last line after the first that is not blank, and
    the first line only when the whole file has been read. *)
Lemma scan_spec (k : nat) (l0 : string) (rest : list string) (pos : nat) :
  (k ≤ length rest)%nat →
  scan (S k) (l0 :: rest) pos
  = match lastNonBlank (take k rest) with
    | Some found => Some found
    | None => if truthy (trim l0) && (pos =? 0)%nat then Some (trim l0) else None
    end.
Proof.
  induction k as [|k IH]; intros Hk.
  - cbn. reflexivity.
  - destruct (lookup_lt_is_Some_2 rest k) as [x Hx]; [lia|].
    rewrite (take_S_r _ _ _ Hx), lastNonBlank_app.
    cbn [lastNonBlank]. change (scan (S (S k)) (l0 :: rest) pos)
      with (let line := trim (nth (S k) (l0 :: rest) EmptyString) in
            if truthy line && ((0 <? S k)%nat || (pos =? 0)%nat) then Some line
            else scan (S k) (l0 :: rest) pos).
    cbn [nth]. rewrite (nth_lookup_Some _ _ _ _ Hx). cbn zeta.
    change (0 <? S k)%nat with true. cbn [orb]. rewrite andb_true_r.
    destruct (truthy (trim x)); [reflexivity|]. apply IH. lia.
Qed.

Section Loop.
Variable chunkSize : nat.
Hypothesis chunkSize_positive : (0 < chunkSize)%nat.
Variable content : string.

Lemma readBack_spec (fuel : nat) :
  ∀ (chunks : list string) (totalBytes pos : nat),
    (pos ≤ String.length content)%nat →
    (pos ≤ fuel)%nat →
    foldr String.append EmptyString chunks = skip pos content →
    totalBytes = (String.length content - pos)%nat →
    (pos = 0%nat → lastNonBlank (split newline content) = None) →
    readBack chunkSize fuel content chunks totalBytes pos
    = Some (lastNonBlank (split newline content)).
Proof.
  assert (∀ chunks totalBytes pos,
            foldr String.append EmptyString chunks = skip pos content →
            totalBytes = (String.length content - pos)%nat →
            bufferConcat chunks totalBytes = skip pos content) as Htail.
  { intros chunks totalBytes pos Hchunks ->. unfold bufferConcat.
    rewrite Hchunks, <- skip_length. apply substring_whole. }
  induction fuel as [|fuel IH]; intros chunks totalBytes pos Hpos Hfuel Hchunks Htotal Hdone.
  - assert (pos = 0%nat) as -> by lia. cbn.
    rewrite (Htail _ _ 0%nat Hchunks Htotal). cbn [skip].
    rewrite (Hdone eq_refl), (blank_lines _ (Hdone eq_refl)).
    destruct content; reflexivity.
  - cbn [readBack]. destruct (0 <? pos)%nat eqn:Hloop.
    + apply Nat.ltb_lt in Hloop.
      set (readSize := Nat.min chunkSize pos).
      set (pos' := (pos - readSize)%nat).
      assert (0 < readSize ≤ pos)%nat as HreadSize by (subst readSize; lia).
      assert (foldr String.append EmptyString (readAt content readSize pos' :: chunks)
              = skip pos' content) as Hchunks'.
      { cbn [foldr]. rewrite Hchunks. unfold readAt.
        rewrite <- (substring_skip pos' readSize content).
        do 2 f_equal. subst pos'. lia. }
      assert ((totalBytes + readSize)%nat = (String.length content - pos')%nat) as Htotal'
        by (subst pos'; lia).
      rewrite (Htail _ _ pos' Hchunks' Htotal').
      destruct (splitGo_app_tail newline EmptyString
                  (String.substring 0 pos' content) (skip pos' content)) as [front Hall].
      rewrite substring_from_start in Hall. fold (split newline content) in Hall.
      pose proof (splitGo_cur newline EmptyString (skip pos' content)) as Hlines.
      fold (split newline (skip pos' content)) in Hlines.
      set (l0 := String.rev EmptyString +:+ hd EmptyString (split newline (skip pos' content)))
        in Hlines.
      set (rest := tl (split newline (skip pos' content))) in *.
      rewrite Hlines. cbn [length]. rewrite scan_spec by lia.
      rewrite firstn_all.
      destruct (lastNonBlank rest) as [found|] eqn:Hrest.
      * rewrite Hall, lastNonBlank_app, Hrest. reflexivity.
      * assert (pos' = 0%nat → split newline content = l0 :: rest) as Hwhole
          by (intros Hzero; rewrite Hzero in Hlines; exact Hlines).
        destruct (truthy (trim l0) && (pos' =? 0)%nat) eqn:Hfirst.
        -- apply andb_true_iff in Hfirst as [Hl0 Hzero%Nat.eqb_eq].
           rewrite (Hwhole Hzero). cbn [lastNonBlank]. rewrite Hrest, Hl0. reflexivity.
        -- apply IH; [subst pos'; lia | subst pos'; lia | exact Hchunks' | lia |].
           intros Hzero. rewrite (Hwhole Hzero). cbn [lastNonBlank]. rewrite Hrest.
           rewrite Hzero, Nat.eqb_refl, andb_true_r in Hfirst. rewrite Hfirst.
           reflexivity.
    + apply Nat.ltb_ge in Hloop. assert (pos = 0%nat) as -> by lia.
      rewrite (Htail _ _ 0%nat Hchunks Htotal). cbn [skip].
      rewrite (Hdone eq_refl), (blank_lines _ (Hdone eq_refl)).
      reflexivity.
Qed.

End Loop.

(** X24. Whatever the size of the chunks read, [readLastLine] answers the
    trimmed text of the last line of the file that is not white space
    only, and [null] when there is none; as many rounds as the file has
    bytes are enough for the loop to end. *)
Theorem readLastLine_last_nonblank_line (chunkSize fuel : nat) (content : string) :
  (0 < chunkSize)%nat →
  (String.length content ≤ fuel)%nat →
  readLastLineBy chunkSize fuel content = Some (lastNonBlank (split newline content)).
Proof.
  intros Hchunk Hfuel. unfold readLastLineBy.
  destruct (String.length content =? 0)%nat eqn:Hsize.
  - apply Nat.eqb_eq in Hsize. destruct content; [reflexivity | discriminate].
  - apply Nat.eqb_neq in Hsize.
    apply readBack_spec; [exact Hchunk | lia | exact Hfuel | | lia | lia].
    clear. induction content as [|c s IH]; [reflexivity | exact IH].
Qed.

Lemma readLastLine_last_nonblank_line_witness :
  readLastLineBy 5 (String.length logText) logText = Some (Some "{type: assistant}").
Proof.
  apply (readLastLine_last_nonblank_line 5 (String.length logText) logText); cbn; lia.
Defined.

(** The chunks of the source and chunks of three bytes read the same line. *)
Example readLastLine_chunks_agree :
  readLastLine 40 logText = Some (Some "{type: assistant}")
  ∧ readLastLineBy 3 40 logText = readLastLine 40 logText
  ∧ readLastLine 40 (String newline (String newline EmptyString)) = Some None.
Proof. repeat split; vm_compute; reflexivity. Qed.

End LastLineProps.
